(** * gh-stats-gif-server: the image-synthesis pipeline of [main.go]

    A shallow embedding of the pure and stateful parts of [src/main.go]
    that render the stats card:

    - [resizeImage]      nearest-neighbour resampling of the avatar,
    - [getFontFace]      font lookup through the process-wide [fontCache],
    - [addLabel]         one text draw,
    - [createStatsImage] the card compositor,
    - [selectTheme]      the theme lookup of [requestHandler],
    - [step], [run]      [getFontFace] in goroutines that interleave,

    and of the parts that fetch the statistics and answer a request:

    - [getUserData], [getAvatar], [getTotalStars]  the GitHub requests,
    - [fetchStatsData]   their composition,
    - [requestHandler]   the handler of the server.

    Go's [int] is the 64-bit two's complement integer and is modelled as
    [Z] with the wrap-around written out ([Int.wrap]); [float64] is
    IEEE-754 binary64, modelled by the standard library's [SpecFloat]
    (precision 53, [emax] 1024, round to nearest even), so that the
    arithmetic of [resizeImage] is the one the program performs.  The
    packages [image], [image/color], [image/draw] are modelled from their
    documented behaviour; the font rasteriser, the PNG encoder, the
    file system, the network and the JSON and image decoders are
    parameters of the development. *)

From Stdlib Require Import ZArith Lia Bool SpecFloat.
From stdpp Require Import gmap strings list fin_maps pretty.

Local Open Scope Z_scope.

(* ===================================================================== *)
(** * Part I: definitions                                                  *)
(* ===================================================================== *)

(** ** Machine integers *)

Module Int.

(** [wrap w z]: the value of [z] as a signed [w]-bit integer. *)
Definition wrap (w : Z) (z : Z) : Z :=
  (z + 2 ^ (w - 1)) mod 2 ^ w - 2 ^ (w - 1).

Definition MaxInt : Z := 2 ^ 63 - 1.
Definition MinInt : Z := - 2 ^ 63.

(** Go [int] arithmetic (64 bits). *)
Definition add (a b : Z) : Z := wrap 64 (a + b).
Definition sub (a b : Z) : Z := wrap 64 (a - b).
Definition mul (a b : Z) : Z := wrap 64 (a * b).

(** The conversions [int32(x)] and [uint8(x)]. *)
Definition to_int32 (z : Z) : Z := wrap 32 z.
Definition to_uint8 (z : Z) : Z := Z.land z 255.

End Int.

(** ** [float64] *)

Module Float64.

Definition prec : Z := 53.
Definition emax : Z := 1024.

Definition float64 : Type := spec_float.

(** [float64(z)] for an [int] [z]: the nearest binary64, ties to even. *)
Definition of_int (z : Z) : float64 := binary_normalize prec emax z 0 false.

Definition div (a b : float64) : float64 := SFdiv prec emax a b.
Definition mul (a b : float64) : float64 := SFmul prec emax a b.

(** [int(f)]: the fraction is discarded (truncation towards zero).  When
    the value does not fit an [int], or [f] is an infinity or a NaN, Go
    leaves the result to the implementation; amd64 (CVTTSD2SQ) yields
    the smallest [int], which is what is written here. *)
Definition to_int (f : float64) : Z :=
  match f with
  | S754_zero _ => 0
  | S754_finite s m e =>
      let mag := if 0 <=? e then Z.pos m * 2 ^ e else Z.pos m / 2 ^ (- e) in
      let z := if s then - mag else mag in
      if (Int.MinInt <=? z) && (z <=? Int.MaxInt) then z else Int.MinInt
  | _ => Int.MinInt
  end.

End Float64.

(** ** Loops *)

(** [for i := lo; i < hi; i++ { s = body i s }] *)
Definition for_loop {St : Type} (lo hi : Z) (body : Z -> St -> St) (s : St) : St :=
  foldl (fun acc i => body i acc) s (seqZ lo (hi - lo)).

(** ** Package [image/color] *)

Module color.

(** [color.RGBA]: alpha-premultiplied, 8 bits per channel. *)
Record RGBA : Type := mkRGBA { R : Z; G : Z; B : Z; A : Z }.

(** The interface [color.Color].  The concrete types the program
    meets are listed; any other implementation is given by what its
    [RGBA()] method returns. *)
Inductive Color : Type :=
| OfRGBA (c : RGBA)
| OfNRGBA (r g b a : Z)
| OfGray16 (y : Z)
| Other (r g b a : Z).

(** The method [RGBA() (r, g, b, a uint32)]: alpha-premultiplied
    16-bit channels. *)
Definition rgba (c : Color) : Z * Z * Z * Z :=
  match c with
  | OfRGBA c =>
      (Z.lor (R c) (Z.shiftl (R c) 8), Z.lor (G c) (Z.shiftl (G c) 8),
       Z.lor (B c) (Z.shiftl (B c) 8), Z.lor (A c) (Z.shiftl (A c) 8))
  | OfNRGBA r g b a =>
      (Z.lor r (Z.shiftl r 8) * a / 255, Z.lor g (Z.shiftl g 8) * a / 255,
       Z.lor b (Z.shiftl b 8) * a / 255, Z.lor a (Z.shiftl a 8))
  | OfGray16 y => (y, y, y, 65535)
  | Other r g b a => (r, g, b, a)
  end.

Definition White : Color := OfGray16 65535.
Definition Black : Color := OfGray16 0.

(** [color.RGBA{uint8(r >> 8), uint8(g >> 8), uint8(b >> 8), uint8(a >> 8)}]
    for [r, g, b, a := c.RGBA()]. *)
Definition quantize (c : Color) : RGBA :=
  let '(r, g, b, a) := rgba c in
  mkRGBA (Int.to_uint8 (Z.shiftr r 8)) (Int.to_uint8 (Z.shiftr g 8))
         (Int.to_uint8 (Z.shiftr b 8)) (Int.to_uint8 (Z.shiftr a 8)).

End color.

(** ** Package [image] *)

Module image.

Record Point : Type := mkPoint { X : Z; Y : Z }.
Record Rectangle : Type := mkRectangle { Min : Point; Max : Point }.

(** [image.Rect]: the rectangle with the corners put in order. *)
Definition Rect (x0 y0 x1 y1 : Z) : Rectangle :=
  let '(x0, x1) := if x1 <? x0 then (x1, x0) else (x0, x1) in
  let '(y0, y1) := if y1 <? y0 then (y1, y0) else (y0, y1) in
  mkRectangle (mkPoint x0 y0) (mkPoint x1 y1).

Definition Dx (r : Rectangle) : Z := Int.sub (X (Max r)) (X (Min r)).
Definition Dy (r : Rectangle) : Z := Int.sub (Y (Max r)) (Y (Min r)).

Definition Empty (r : Rectangle) : bool :=
  (X (Max r) <=? X (Min r)) || (Y (Max r) <=? Y (Min r)).

Definition ZR : Rectangle := mkRectangle (mkPoint 0 0) (mkPoint 0 0).

(** [p.In(r)] *)
Definition In (p : Point) (r : Rectangle) : bool :=
  (X (Min r) <=? X p) && (X p <? X (Max r)) &&
  (Y (Min r) <=? Y p) && (Y p <? Y (Max r)).

Definition Intersect (r s : Rectangle) : Rectangle :=
  let r' := mkRectangle
              (mkPoint (Z.max (X (Min r)) (X (Min s))) (Z.max (Y (Min r)) (Y (Min s))))
              (mkPoint (Z.min (X (Max r)) (X (Max s))) (Z.min (Y (Max r)) (Y (Max s)))) in
  if Empty r' then ZR else r'.

(** [r.Add(p)] and [p.Sub(q)] *)
Definition PSub (p q : Point) : Point :=
  mkPoint (Int.sub (X p) (X q)) (Int.sub (Y p) (Y q)).
Definition RAdd (r : Rectangle) (p : Point) : Rectangle :=
  mkRectangle (mkPoint (Int.add (X (Min r)) (X p)) (Int.add (Y (Min r)) (Y p)))
              (mkPoint (Int.add (X (Max r)) (X p)) (Int.add (Y (Max r)) (Y p))).

(** The interface [image.Image] (the colour model is not used by the
    program and is left out). *)
Record Image : Type := mkImage { Bounds : Rectangle; At : Z -> Z -> color.Color }.

(** [*image.RGBA]: [Pix] holds the pixels in R, G, B, A order. *)
Record RGBA : Type := mkRGBA { Pix : list Z; Stride : Z; RGBA_Rect : Rectangle }.

(** The largest number of bytes the runtime lets one [make] ask for:
    [1 << 48] on linux/amd64.  Above it [make] panics with "makeslice:
    len out of range". *)
Definition maxAlloc : Z := 2 ^ 48.

(** [image.NewRGBA]; [None] is a panic: that of [pixelBufferLength] on
    a buffer length that is negative or overflows [int], or that of
    [make([]uint8, 4 * w * h)] on a length above [maxAlloc].  A buffer
    within the limit is taken to be granted: the memory of the machine
    is not modelled. *)
Definition NewRGBA (r : Rectangle) : option RGBA :=
  let w := Dx r in
  let h := Dy r in
  if (0 <=? w) && (0 <=? h) && (4 * w * h <=? Int.MaxInt) && (4 * w * h <=? maxAlloc)
  then Some (mkRGBA (replicate (Z.to_nat (4 * w * h)) 0) (4 * w) r)
  else None.

Definition PixOffset (p : RGBA) (x y : Z) : Z :=
  (y - Y (Min (RGBA_Rect p))) * Stride p + (x - X (Min (RGBA_Rect p))) * 4.

Definition set_byte (pix : list Z) (i : Z) (v : Z) : list Z :=
  <[Z.to_nat i := v]> pix.
Definition get_byte (pix : list Z) (i : Z) : Z :=
  default 0 (pix !! Z.to_nat i).

(** [p.SetRGBA(x, y, c)]: nothing happens outside the rectangle. *)
Definition SetRGBA (p : RGBA) (x y : Z) (c : color.RGBA) : RGBA :=
  if negb (In (mkPoint x y) (RGBA_Rect p)) then p
  else
    let i := PixOffset p x y in
    mkRGBA (set_byte (set_byte (set_byte (set_byte (Pix p)
              i (color.R c)) (i + 1) (color.G c)) (i + 2) (color.B c)) (i + 3) (color.A c))
           (Stride p) (RGBA_Rect p).

(** [p.RGBAAt(x, y)]: the zero colour outside the rectangle. *)
Definition RGBAAt (p : RGBA) (x y : Z) : color.RGBA :=
  if negb (In (mkPoint x y) (RGBA_Rect p)) then color.mkRGBA 0 0 0 0
  else
    let i := PixOffset p x y in
    color.mkRGBA (get_byte (Pix p) i) (get_byte (Pix p) (i + 1))
                 (get_byte (Pix p) (i + 2)) (get_byte (Pix p) (i + 3)).

(** [*image.RGBA] as an [image.Image]. *)
Definition of_RGBA (p : RGBA) : Image :=
  mkImage (RGBA_Rect p) (fun x y => color.OfRGBA (RGBAAt p x y)).

(** [&image.Uniform{C: c}]: an unbounded image of one colour. *)
Definition Uniform (c : color.Color) : Image :=
  mkImage (mkRectangle (mkPoint (-1000000000) (-1000000000))
                       (mkPoint 1000000000 1000000000))
          (fun _ _ => c).

End image.

(** ** Package [image/draw] *)

Module draw.

(** [draw.Draw(dst, r, src, sp, draw.Src)] for a [*image.RGBA]
    destination: [r] is clipped to [dst] and to [src], and every pixel
    of what is left is overwritten with the source pixel that [sp]
    aligns with it. *)
Definition Draw (dst : image.RGBA) (r : image.Rectangle) (src : image.Image)
    (sp : image.Point) : image.RGBA :=
  let orig := image.Min r in
  let r := image.Intersect r (image.RGBA_Rect dst) in
  let r := image.Intersect r (image.RAdd (image.Bounds src) (image.PSub orig sp)) in
  for_loop (image.Y (image.Min r)) (image.Y (image.Max r)) (fun y dst =>
    for_loop (image.X (image.Min r)) (image.X (image.Max r)) (fun x dst =>
      image.SetRGBA dst x y
        (color.quantize
           (image.At src (Int.add (Int.sub x (image.X orig)) (image.X sp))
                         (Int.add (Int.sub y (image.Y orig)) (image.Y sp)))))
      dst)
    dst.

End draw.

(** ** [resizeImage] *)

(** The body of the two loops: one destination pixel. *)
Definition resizePixel (src : image.Image) (srcWidth srcHeight : Z)
    (xRatio yRatio : Float64.float64) (x y : Z) (dst : image.RGBA) : image.RGBA :=
  let srcBounds := image.Bounds src in
  let srcX := Float64.to_int (Float64.mul (Float64.of_int x) xRatio) in
  let srcY := Float64.to_int (Float64.mul (Float64.of_int y) yRatio) in
  let srcX := if srcWidth <=? srcX then Int.sub srcWidth 1 else srcX in
  let srcY := if srcHeight <=? srcY then Int.sub srcHeight 1 else srcY in
  let '(r, g, b, a) :=
    color.rgba (image.At src (Int.add (image.X (image.Min srcBounds)) srcX)
                             (Int.add (image.Y (image.Min srcBounds)) srcY)) in
  image.SetRGBA dst x y
    (color.mkRGBA (Int.to_uint8 (Z.shiftr r 8)) (Int.to_uint8 (Z.shiftr g 8))
                  (Int.to_uint8 (Z.shiftr b 8)) (Int.to_uint8 (Z.shiftr a 8))).

Definition resizeImage (src : image.Image) (width height : Z) : option image.RGBA :=
  let srcBounds := image.Bounds src in
  let srcWidth := Int.sub (image.X (image.Max srcBounds)) (image.X (image.Min srcBounds)) in
  let srcHeight := Int.sub (image.Y (image.Max srcBounds)) (image.Y (image.Min srcBounds)) in
  dst ← image.NewRGBA (image.Rect 0 0 width height);
  let xRatio := Float64.div (Float64.of_int srcWidth) (Float64.of_int width) in
  let yRatio := Float64.div (Float64.of_int srcHeight) (Float64.of_int height) in
  Some (for_loop 0 height (fun y dst =>
          for_loop 0 width (fun x dst =>
            resizePixel src srcWidth srcHeight xRatio yRatio x y dst) dst) dst).

(** ** Themes *)

Record Theme : Type := mkTheme {
  BGColor : color.Color;
  TextColor : color.Color;
  TitleColor : color.Color;
  StatsColor : color.Color
}.

Definition rgb (r g b a : Z) : color.Color := color.OfRGBA (color.mkRGBA r g b a).

Definition theme_light : Theme :=
  mkTheme color.White color.Black (rgb 40 120 200 255) (rgb 50 50 50 255).
Definition theme_dark : Theme :=
  mkTheme (rgb 30 30 30 255) (rgb 230 230 230 255) (rgb 100 180 255 255) (rgb 200 200 200 255).
Definition theme_a : Theme :=
  mkTheme (rgb 255 240 240 255) (rgb 80 20 20 255) (rgb 200 50 50 255) (rgb 120 40 40 255).

(** The package-level map [themes]. *)
Definition themes : gmap string Theme :=
  <["light" := theme_light]> (<["dark" := theme_dark]> (<["a" := theme_a]> ∅)).

(** The zero [Theme], which indexing [themes] with an absent key yields. *)
Definition Theme_zero : Theme :=
  mkTheme (color.Other 0 0 0 0) (color.Other 0 0 0 0) (color.Other 0 0 0 0) (color.Other 0 0 0 0).

(** [requestHandler], lines 97-101: "Select theme, default to light". *)
Definition selectTheme (themeName : string) : Theme :=
  match themes !! themeName with
  | Some theme => theme
  | None => default Theme_zero (themes !! "light")
  end.

(** ** The font library and the platform *)

Module opentype.
Record FaceOptions : Type := mkFaceOptions { Size : Float64.float64; DPI : Float64.float64 }.
End opentype.

(** [golang.org/x/image/font/opentype]: fonts are opaque; [Parse] and
    [NewFace] may report an error. *)
Class FontLib : Type := {
  Font : Type;
  Parse : list Z -> option Font;
  NewFace_ok : Font -> opentype.FaceOptions -> bool
}.

Section Pipeline.

Context `{FontLib}.

(** A [font.Face] is a pointer to a rasteriser bound to one font and one
    set of options; [face_addr] is the identity of the object. *)
Record Face : Type := mkFace {
  face_addr : nat;
  face_font : Font;
  face_opts : opentype.FaceOptions
}.

(** [fixed.Point26_6] and [font.Drawer] *)
Record Point26_6 : Type := mkPoint26_6 { PX : Z; PY : Z }.

Record Drawer : Type := mkDrawer {
  Dst : image.RGBA;
  Src : image.Image;
  DFace : Face;
  Dot : Point26_6
}.

(** The file system, the glyph rasteriser and the PNG encoder. *)
Class Platform : Type := {
  ReadFile : string -> option (list Z);
  DrawString : Drawer -> string -> image.RGBA;
  png_Encode : image.RGBA -> list Z + string
}.

Context `{Platform}.

(** What the program does to the outside, in order. *)
Inductive Event : Type :=
| EvReadFile (path : string)
| EvLog (msg : string)
| EvDrawString (d : Drawer) (s : string).

(** The process state: the package-level [fontCache], the next fresh
    object identity, and the events so far (oldest first). *)
Record World : Type := mkWorld {
  fontCache : gmap Z Face;
  next_addr : nat;
  trace : list Event
}.

(** State passing; [None] is a panic. *)
Definition M (A : Type) : Type := World -> option (A * World).

Definition ret {A} (a : A) : M A := fun w => Some (a, w).
Definition bind {A B} (m : M A) (k : A -> M B) : M B :=
  fun w => match m w with
           | Some (a, w') => k a w'
           | None => None
           end.
Definition panic {A} : M A := fun _ => None.
Definition lift {A} (o : option A) : M A :=
  match o with Some a => ret a | None => panic end.

Notation "'do' x <- m ; k" := (bind m (fun x => k))
  (at level 10, x name, m at level 100, k at level 200).
Notation "m ;; k" := (bind m (fun _ => k))
  (at level 100, k at level 200, right associativity).

Definition emit (e : Event) : M unit :=
  fun w => Some (tt, mkWorld (fontCache w) (next_addr w) (trace w ++ [e])).

(** [ioutil.ReadFile(path)] *)
Definition readFile (path : string) : M (option (list Z)) :=
  emit (EvReadFile path) ;; ret (ReadFile path).

(** [log.Printf] *)
Definition logPrintf (msg : string) : M unit := emit (EvLog msg).

(** [opentype.NewFace(f, opts)]: a fresh face, or an error. *)
Definition newFace (f : Font) (opts : opentype.FaceOptions) : M (option Face) :=
  fun w =>
    if NewFace_ok f opts
    then Some (Some (mkFace (next_addr w) f opts),
               mkWorld (fontCache w) (S (next_addr w)) (trace w))
    else Some (None, w).

Definition cacheLookup (size : Z) : M (option Face) :=
  fun w => Some (fontCache w !! size, w).
Definition cacheStore (size : Z) (face : Face) : M unit :=
  fun w => Some (tt, mkWorld (<[size := face]> (fontCache w)) (next_addr w) (trace w)).

(** ** [getFontFace] *)

Definition fontPaths : list string :=
  [ "/usr/share/fonts/truetype/inconsolata/Inconsolata.ttf";
    "/usr/share/fonts/truetype/inconsolata/Inconsolata-Regular.ttf";
    "/usr/share/fonts/opentype/inconsolata/Inconsolata-Regular.otf";
    "/usr/share/fonts/truetype/dejavu/DejaVuSansMono.ttf";
    "/usr/share/fonts/truetype/liberation/LiberationMono-Regular.ttf";
    "/System/Library/Fonts/Menlo.ttc";
    "C:\Windows\Fonts\consola.ttf" ]%string.

(** The loop [for _, path := range fontPaths] and what follows it. *)
Fixpoint tryFontPaths (size : Z) (paths : list string) : M (option Face) :=
  match paths with
  | [] =>
      logPrintf "Warning: Could not find system font, using default rendering" ;;
      ret None
  | path :: rest =>
      do fontData <- readFile path;
      match fontData with
      | None => tryFontPaths size rest
      | Some fontData =>
          match Parse fontData with
          | None => tryFontPaths size rest
          | Some parsedFont =>
              do face <- newFace parsedFont
                           (opentype.mkFaceOptions (Float64.of_int size) (Float64.of_int 72));
              match face with
              | None => tryFontPaths size rest
              | Some face => cacheStore size face ;; ret (Some face)
              end
          end
      end
  end.

(** [getFontFace(size)]; [None] is the nil face. *)
Definition getFontFace (size : Z) : M (option Face) :=
  do cached <- cacheLookup size;
  match cached with
  | Some face => ret (Some face)
  | None => tryFontPaths size fontPaths
  end.

(** ** [addLabel] *)

(** [fixed.Int26_6(v)]: a conversion to [int32]. *)
Definition Int26_6 (v : Z) : Z := Int.to_int32 v.

Definition drawString (d : Drawer) (s : string) : M image.RGBA :=
  emit (EvDrawString d s) ;; ret (DrawString d s).

(** [img] is a pointer in the program; the image it points to after the
    call is returned. *)
Definition addLabel (img : image.RGBA) (x y : Z) (label : string)
    (clr : color.Color) (fontSize : Z) : M image.RGBA :=
  do face <- getFontFace fontSize;
  match face with
  | None =>
      logPrintf ("Warning: Could not load font, skipping text: " +:+ label) ;;
      ret img
  | Some face =>
      let point := mkPoint26_6 (Int26_6 (Int.mul x 64)) (Int26_6 (Int.mul y 64)) in
      let d := mkDrawer img (image.Uniform clr) face point in
      drawString d label
  end.

(** ** [createStatsImage] *)

Record StatsData : Type := mkStatsData {
  Name : string;
  Avatar : image.Image;
  Followers : Z;
  Following : Z;
  PublicRepos : Z;
  TotalStars : Z
}.

(** [fmt.Sprintf(prefix + "%d", n)] *)
Definition Sprintf_d (prefix : string) (n : Z) : string := prefix +:+ pretty n.

(** Lines 336-353: the canvas with the background and the avatar. *)
Definition drawBase (stats : StatsData) (theme : Theme) : M image.RGBA :=
  let width := 1200 in
  let height := 800 in
  do img <- lift (image.NewRGBA (image.Rect 0 0 width height));
  let img := draw.Draw img (image.RGBA_Rect img) (image.Uniform (BGColor theme))
               (image.mkPoint 0 0) in
  let avatarSize := 160 in
  let avatarDestRect := image.Rect 53 53 (Int.add 53 avatarSize) (Int.add 53 avatarSize) in
  do resizedAvatar <- lift (resizeImage (Avatar stats) avatarSize avatarSize);
  ret (draw.Draw img avatarDestRect (image.of_RGBA resizedAvatar) (image.mkPoint 0 0)).

(** Lines 336-372: everything before the encoding. *)
Definition drawCard (stats : StatsData) (theme : Theme) : M image.RGBA :=
  do img <- drawBase stats theme;
  let avatarSize := 160 in
  do img <- addLabel img (Int.add (Int.add 53 avatarSize) 53) 147 (Name stats)
              (TitleColor theme) 72;
  let yPos := 293 in
  let statSpacing := 67 in
  let xPos1 := 53 in
  let xPos2 := 640 in
  do img <- addLabel img xPos1 yPos (Sprintf_d "Followers: " (Followers stats))
              (StatsColor theme) 48;
  do img <- addLabel img xPos2 yPos (Sprintf_d "Following: " (Following stats))
              (StatsColor theme) 48;
  let yPos := Int.add yPos statSpacing in
  do img <- addLabel img xPos1 yPos (Sprintf_d "Public Repos: " (PublicRepos stats))
              (StatsColor theme) 48;
  do img <- addLabel img xPos2 yPos (Sprintf_d "Total Stars: " (TotalStars stats))
              (StatsColor theme) 48;
  ret img.

(** [createStatsImage]: the PNG bytes, or the encoder's error. *)
Definition createStatsImage (stats : StatsData) (theme : Theme) : M (list Z + string) :=
  do img <- drawCard stats theme;
  ret (png_Encode img).

End Pipeline.

(** ** The GitHub API client and the request handler *)

(** The bytes of a Go string. *)
Definition bytes (s : string) : list Z :=
  (fun c => Z.of_N (Ascii.N_of_ascii c)) <$> String.list_ascii_of_string s.

Module GitHubUser.
Record t : Type := mk {
  Name : string;
  AvatarURL : string;
  Followers : Z;
  Following : Z;
  PublicRepos : Z;
  ReposURL : string
}.
End GitHubUser.

Module GitHubRepo.
Record t : Type := mk { StargazersCount : Z }.
End GitHubRepo.

(** [net/http]: what the client sees of a response. *)
Module http.
Definition StatusOK : Z := 200.
Record Response (ReadCloser : Type) : Type := mkResponse {
  StatusCode : Z;
  Status : string;
  Body : ReadCloser
}.
Arguments mkResponse {ReadCloser}.
Arguments StatusCode {ReadCloser}.
Arguments Status {ReadCloser}.
Arguments Body {ReadCloser}.
End http.

(** The network and the decoders.  An [error] is its message; [inl] is
    the result with a nil error.  [http_Get n url] is what the call
    [http.Get(url)] returns when the process has called [http.Get] [n]
    times before it: the response, reached through whatever redirects
    the client follows by itself, or the error, which the client may
    also raise before it sends anything (a URL it cannot parse). *)
Class Network : Type := {
  ReadCloser : Type;
  http_Get : nat -> string -> http.Response ReadCloser + string;
  ioutil_ReadAll : ReadCloser -> list Z + string;
  image_Decode : ReadCloser -> image.Image + string;
  json_Unmarshal_user : list Z -> GitHubUser.t + string;
  json_Unmarshal_repos : list Z -> list GitHubRepo.t + string
}.

(** [github.com/valyala/fasthttp]: the request context, as far as the
    handler uses it. *)
Module fasthttp.

Definition StatusOK : Z := 200.
Definition StatusBadRequest : Z := 400.
Definition StatusNotFound : Z := 404.
Definition StatusInternalServerError : Z := 500.

Record Response : Type := mkResponse {
  StatusCode : Z;
  ContentType : string;
  Header : gmap string string;
  Body : list Z
}.

Record RequestCtx : Type := mkRequestCtx {
  QueryArgs : list (string * string);
  CtxResponse : Response
}.

(** [args.Peek(key)]: the value of the first argument named [key]; no
    bytes when there is none. *)
Fixpoint Peek (args : list (string * string)) (key : string) : string :=
  match args with
  | [] => ""
  | (k, v) :: rest => if String.eqb k key then v else Peek rest key
  end.

(** [ctx.Error(msg, statusCode)]: the response is reset, then given the
    status, the default content type and [msg] as its body. *)
Definition Error (ctx : RequestCtx) (msg : string) (statusCode : Z) : RequestCtx :=
  mkRequestCtx (QueryArgs ctx)
    (mkResponse statusCode "text/plain; charset=utf-8" ∅ (bytes msg)).

Definition SetContentType (ctx : RequestCtx) (contentType : string) : RequestCtx :=
  let r := CtxResponse ctx in
  mkRequestCtx (QueryArgs ctx) (mkResponse (StatusCode r) contentType (Header r) (Body r)).

(** [ctx.Response.Header.Set(key, value)] *)
Definition Header_Set (ctx : RequestCtx) (key value : string) : RequestCtx :=
  let r := CtxResponse ctx in
  mkRequestCtx (QueryArgs ctx)
    (mkResponse (StatusCode r) (ContentType r) (<[key := value]> (Header r)) (Body r)).

(** [ctx.Write(p)]: [p] is appended to the body. *)
Definition Write (ctx : RequestCtx) (p : list Z) : RequestCtx :=
  let r := CtxResponse ctx in
  mkRequestCtx (QueryArgs ctx)
    (mkResponse (StatusCode r) (ContentType r) (Header r) (Body r ++ p)).

End fasthttp.

Section Server.

Context {FL : FontLib} {PF : Platform} {NW : Network}.

(** What the process does with the HTTP client, in order: a call of
    [http.Get], and the closing of the body of a response.  A call is
    one event, however many requests the client sends for it. *)
Inductive NetEvent : Type :=
| EvGet (url : string)
| EvClose (body : ReadCloser).

(** The process: the state of the renderer and the network events so
    far (oldest first). *)
Record Process : Type := mkProcess {
  world : World;
  net : list NetEvent
}.

(** The URLs [http.Get] has been called with so far, one for every
    call, whether or not the call got as far as sending a request. *)
Definition requests (p : Process) : list string :=
  omap (fun e => match e with EvGet url => Some url | _ => None end) (net p).

(** State passing over the process; [None] is a panic. *)
Definition Proc (A : Type) : Type := Process -> option (A * Process).

Definition retP {A} (a : A) : Proc A := fun p => Some (a, p).
Definition bindP {A B} (m : Proc A) (k : A -> Proc B) : Proc B :=
  fun p => match m p with
           | Some (a, p') => k a p'
           | None => None
           end.

(** A step of the renderer, run inside the process. *)
Definition liftM {A} (m : M A) : Proc A :=
  fun p => match m (world p) with
           | Some (a, w') => Some (a, mkProcess w' (net p))
           | None => None
           end.

Notation "'do' x <- m ; k" := (bindP m (fun x => k))
  (at level 10, x name, m at level 100, k at level 200).
Notation "m ;; k" := (bindP m (fun _ => k))
  (at level 100, k at level 200, right associativity).

(** [http.Get(url)]: the call is recorded, and its result is the one
    the network gives to the call of that rank. *)
Definition httpGet (url : string) : Proc (http.Response ReadCloser + string) :=
  fun p => Some (http_Get (length (requests p)) url,
                 mkProcess (world p) (net p ++ [EvGet url])).

(** [resp.Body.Close()] *)
Definition closeBody (resp : http.Response ReadCloser) : Proc unit :=
  fun p => Some (tt, mkProcess (world p) (net p ++ [EvClose (http.Body resp)])).

(** ** [getUserData] *)

Definition getUserData (username : string) : Proc (GitHubUser.t + string) :=
  let apiURL := "https://api.github.com/users/" +:+ username in
  do resp <- httpGet apiURL;
  match resp with
  | inr err => retP (inr err)
  | inl resp =>
      (* [defer resp.Body.Close()]: the body is closed on every return *)
      let result :=
        if negb (http.StatusCode resp =? http.StatusOK)
        then inr ("GitHub API returned status: " +:+ http.Status resp)
        else match ioutil_ReadAll (http.Body resp) with
             | inr err => inr err
             | inl body =>
                 match json_Unmarshal_user body with
                 | inr err => inr err
                 | inl user => inl user
                 end
             end in
      closeBody resp ;; retP result
  end.

(** ** [getAvatar] *)

Definition getAvatar (url : string) : Proc (image.Image + string) :=
  do resp <- httpGet url;
  match resp with
  | inr err => retP (inr err)
  | inl resp =>
      let result :=
        if negb (http.StatusCode resp =? http.StatusOK)
        then inr ("avatar URL returned status: " +:+ http.Status resp)
        else match image_Decode (http.Body resp) with
             | inr err => inr err
             | inl avatar => inl avatar
             end in
      closeBody resp ;; retP result
  end.

(** ** [getTotalStars] *)

(** [for _, repo := range repos { totalStars += repo.StargazersCount }] *)
Definition sumStars (repos : list GitHubRepo.t) : Z :=
  foldl (fun totalStars repo => Int.add totalStars (GitHubRepo.StargazersCount repo)) 0 repos.

Definition getTotalStars (reposURL : string) : Proc (Z + string) :=
  let apiURL := reposURL +:+ "?per_page=100" in
  do resp <- httpGet apiURL;
  match resp with
  | inr err => retP (inr err)
  | inl resp =>
      let result :=
        if negb (http.StatusCode resp =? http.StatusOK)
        then inr ("repos API returned status: " +:+ http.Status resp)
        else match ioutil_ReadAll (http.Body resp) with
             | inr err => inr err
             | inl body =>
                 match json_Unmarshal_repos body with
                 | inr err => inr err
                 | inl repos => inl (sumStars repos)
                 end
             end in
      closeBody resp ;; retP result
  end.

(** ** [fetchStatsData] *)

Definition fetchStatsData (username : string) : Proc (StatsData + string) :=
  do user <- getUserData username;
  match user with
  | inr err => retP (inr ("could not get user data: " +:+ err))
  | inl user =>
      do avatar <- getAvatar (GitHubUser.AvatarURL user);
      match avatar with
      | inr err => retP (inr ("could not get avatar: " +:+ err))
      | inl avatar =>
          do stars <- getTotalStars (GitHubUser.ReposURL user);
          do totalStars <-
            match stars with
            | inr err =>
                liftM (logPrintf ("Warning: could not get stars for " +:+ username
                                  +:+ ": " +:+ err)) ;;
                retP 0
            | inl totalStars => retP totalStars
            end;
          let displayName :=
            if String.eqb (GitHubUser.Name user) "" then username
            else GitHubUser.Name user in
          retP (inl (mkStatsData displayName avatar
                       (GitHubUser.Followers user) (GitHubUser.Following user)
                       (GitHubUser.PublicRepos user) totalStars))
      end
  end.

(** ** [requestHandler] *)

(** [ctx] is a pointer in the program; the context it points to after
    the call is returned. *)
Definition requestHandler (ctx : fasthttp.RequestCtx) : Proc fasthttp.RequestCtx :=
  let githubIDBytes := fasthttp.Peek (fasthttp.QueryArgs ctx) "id" in
  let themeNameBytes := fasthttp.Peek (fasthttp.QueryArgs ctx) "theme" in
  if (String.length githubIDBytes =? 0)%nat
  then retP (fasthttp.Error ctx "Missing 'id' query parameter" fasthttp.StatusBadRequest)
  else
    let githubID := githubIDBytes in
    let themeName := themeNameBytes in
    let theme := selectTheme themeName in
    do stats <- fetchStatsData githubID;
    match stats with
    | inr err =>
        retP (fasthttp.Error ctx
                ("Failed to get GitHub stats for " +:+ githubID +:+ ": " +:+ err)
                fasthttp.StatusNotFound)
    | inl stats =>
        do imgBuf <- liftM (createStatsImage stats theme);
        match imgBuf with
        | inr err =>
            retP (fasthttp.Error ctx ("Failed to create image: " +:+ err)
                    fasthttp.StatusInternalServerError)
        | inl imgBuf =>
            let ctx := fasthttp.SetContentType ctx "image/png" in
            let ctx := fasthttp.Header_Set ctx "Cache-Control"
                         "public, max-age=3600, s-maxage=3600" in
            retP (fasthttp.Write ctx imgBuf)
        end
    end.

End Server.


(* ===================================================================== *)
(** * Part II: vocabulary of the statements                                *)
(* ===================================================================== *)

(** ** Integers and bitmaps *)

(** [z] is a value of Go's [int]. *)
Definition is_int (z : Z) : Prop := Int.MinInt <= z <= Int.MaxInt.

Definition width (src : image.Image) : Z :=
  image.X (image.Max (image.Bounds src)) - image.X (image.Min (image.Bounds src)).
Definition height (src : image.Image) : Z :=
  image.Y (image.Max (image.Bounds src)) - image.Y (image.Min (image.Bounds src)).

(** A source bitmap, that is an image held in memory: its bounds are
    [int]s, it is at least [1 x 1], and its pixels, of one byte or more
    each, are no more than one allocation can hold. *)
Definition Bitmap (src : image.Image) : Prop :=
  is_int (image.X (image.Min (image.Bounds src))) /\
  is_int (image.Y (image.Min (image.Bounds src))) /\
  is_int (image.X (image.Max (image.Bounds src))) /\
  is_int (image.Y (image.Max (image.Bounds src))) /\
  1 <= width src /\ 1 <= height src /\
  width src * height src <= image.maxAlloc.

(** A target size, at least [1 x 1], whose buffer of four bytes per
    pixel [make] accepts. *)
Definition Target (W H : Z) : Prop :=
  1 <= W /\ 1 <= H /\ 4 * W * H <= image.maxAlloc.

Definition byte (v : Z) : Prop := 0 <= v <= 255.
Definition RGBA8 (c : color.RGBA) : Prop :=
  byte (color.R c) /\ byte (color.G c) /\ byte (color.B c) /\ byte (color.A c).

Definition blank : color.RGBA := color.mkRGBA 0 0 0 0.

(** The invariant of a [*image.RGBA] made by [image.NewRGBA]. *)
Definition wf (p : image.RGBA) : Prop :=
  let r := image.RGBA_Rect p in
  image.X (image.Min r) <= image.X (image.Max r) /\
  image.Y (image.Min r) <= image.Y (image.Max r) /\
  image.Stride p = 4 * (image.X (image.Max r) - image.X (image.Min r)) /\
  Z.of_nat (length (image.Pix p)) =
    image.Stride p * (image.Y (image.Max r) - image.Y (image.Min r)).

(** ** The sampled coordinate *)

(** What [resizePixel] computes for one axis: [int(float64(i) * ratio)],
    lowered to [srcLen - 1] when it reaches [srcLen]. *)
Definition clampCoord (ratio : Float64.float64) (srcLen i : Z) : Z :=
  let s := Float64.to_int (Float64.mul (Float64.of_int i) ratio) in
  if srcLen <=? s then Int.sub srcLen 1 else s.

(** The same with the ratio [resizeImage] passes. *)
Definition sampleCoord (i srcLen len : Z) : Z :=
  clampCoord (Float64.div (Float64.of_int srcLen) (Float64.of_int len)) srcLen i.

(** The coordinate as the specification words it:
    [floor(i * srcLen / len)] clamped to [[0, srcLen - 1]]. *)
Definition claimedCoord (i srcLen len : Z) : Z :=
  Z.min (Z.max 0 (i * srcLen / len)) (srcLen - 1).

(** The resampling contract with the specification's coordinate. *)
Definition floor_sampling (src : image.Image) (W H : Z) : Prop :=
  exists dst,
    resizeImage src W H = Some dst /\
    image.RGBA_Rect dst = image.mkRectangle (image.mkPoint 0 0) (image.mkPoint W H) /\
    forall x y, 0 <= x < W -> 0 <= y < H ->
      image.RGBAAt dst x y =
        color.quantize
          (image.At src
             (image.X (image.Min (image.Bounds src)) + claimedCoord x (width src) W)
             (image.Y (image.Min (image.Bounds src)) + claimedCoord y (height src) H)).

(** The 8-bit channels a colour holds: its own bytes when it is an
    8-bit colour, the high bytes of its 16-bit channels otherwise. *)
Definition stored8 (c : color.Color) : color.RGBA :=
  match c with
  | color.OfRGBA c => c
  | color.OfNRGBA r g b a => color.mkRGBA r g b a
  | _ => color.quantize c
  end.

(** "Every pixel of the output equals some pixel of the input", as the
    specification words it. *)
Definition copies_verbatim (src : image.Image) (W H : Z) : Prop :=
  exists dst,
    resizeImage src W H = Some dst /\
    forall x y, 0 <= x < W -> 0 <= y < H ->
      exists u v,
        image.In (image.mkPoint u v) (image.Bounds src) = true /\
        image.RGBAAt dst x y = stored8 (image.At src u v).

(** "A uniform [W x H] bitmap of the single source colour", as the
    specification words it. *)
Definition uniform_resample (src : image.Image) (W H : Z) : Prop :=
  exists dst,
    resizeImage src W H = Some dst /\
    image.RGBA_Rect dst = image.mkRectangle (image.mkPoint 0 0) (image.mkPoint W H) /\
    forall x y, 0 <= x < W -> 0 <= y < H ->
      image.RGBAAt dst x y =
        color.quantize (image.At src (image.X (image.Min (image.Bounds src)))
                                     (image.Y (image.Min (image.Bounds src)))).

(** ** Bounds on [float64] values *)

Module Float64Bounds.

(** The round and sticky bits of a shifted mantissa say it is inexact. *)
Definition inexact (mrs : shr_record) : bool := shr_r mrs || shr_s mrs.

(** The mantissa rounded up. *)
Definition up (mrs : shr_record) : Z := shr_m mrs + (if inexact mrs then 1 else 0).

Definition loc_bump (l : location) : Z := match l with loc_Exact => 0 | _ => 1 end.

(** "[0 <= f <= 2 ^ k]" *)
Definition le_pow2 (k : Z) (f : Float64.float64) : Prop :=
  match f with
  | S754_zero false => True
  | S754_finite false m e => e <= k /\ Z.pos m <= 2 ^ (k - e)
  | _ => False
  end.

(** "[1 <= f]", for a finite [f] *)
Definition ge_one (f : Float64.float64) : Prop :=
  match f with
  | S754_finite false m e => 0 <= e \/ 2 ^ (- e) <= Z.pos m
  | _ => False
  end.

(** The reciprocal of the relative spacing of binary64 numbers. *)
Definition T52 : Z := 2 ^ 52.

End Float64Bounds.

(** ** The card *)

Definition canvasRect : image.Rectangle :=
  image.mkRectangle (image.mkPoint 0 0) (image.mkPoint 1200 800).

(** The rectangle the avatar is drawn into. *)
Definition inAvatar (x y : Z) : bool :=
  (53 <=? x) && (x <? 213) && (53 <=? y) && (y <? 213).

(** ** Font resolution *)

Section FontVocabulary.

Context {FL : FontLib} {PF : Platform}.

(** The options [getFontFace] passes to [opentype.NewFace]. *)
Definition faceOptions (size : Z) : opentype.FaceOptions :=
  opentype.mkFaceOptions (Float64.of_int size) (Float64.of_int 72).

(** [path] is readable and parses as a font. *)
Definition loadFont (path : string) : option Font :=
  match ReadFile path with
  | Some data => Parse data
  | None => None
  end.

(** [path] yields a face of [size]: it loads and [NewFace] accepts it. *)
Definition candidate (size : Z) (path : string) : option Font :=
  match loadFont path with
  | Some f => if NewFace_ok f (faceOptions size) then Some f else None
  | None => None
  end.

(** The position and the font of the first path that yields a face. *)
Fixpoint firstUsable (size : Z) (paths : list string) : option (nat * Font) :=
  match paths with
  | [] => None
  | path :: rest =>
      match candidate size path with
      | Some f => Some (O, f)
      | None =>
          match firstUsable size rest with
          | Some (k, f) => Some (S k, f)
          | None => None
          end
      end
  end.

(** The paths handed to [ioutil.ReadFile], in order. *)
Definition reads (w : World) : list string :=
  omap (fun e => match e with EvReadFile p => Some p | _ => None end) (trace w).

(** The calls of [DrawString], in order. *)
Definition draws (w : World) : list (Drawer * string) :=
  omap (fun e => match e with EvDrawString d s => Some (d, s) | _ => None end) (trace w).

Definition addEvents (w : World) (evs : list Event) : World :=
  mkWorld (fontCache w) (next_addr w) (trace w ++ evs).

Definition notFoundMsg : string :=
  "Warning: Could not find system font, using default rendering".

Definition skipMsg (label : string) : string :=
  "Warning: Could not load font, skipping text: " +:+ label.

(** The [font.Drawer] that [addLabel] sets up. *)
Definition labelDrawer (img : image.RGBA) (x y : Z) (clr : color.Color) (face : Face)
    : Drawer :=
  mkDrawer img (image.Uniform clr) face
           (mkPoint26_6 (Int26_6 (Int.mul x 64)) (Int26_6 (Int.mul y 64))).

(** [n] resolutions of [size], one after the other. *)
Fixpoint resolveTimes (n : nat) (size : Z) : M (list (option Face)) :=
  match n with
  | O => ret []
  | S n => bind (getFontFace size) (fun r =>
           bind (resolveTimes n size) (fun rs => ret (r :: rs)))
  end.

(** Idempotence as the specification words it: after a first successful
    resolution a second one returns the same face, and the two together
    have read a file exactly once. *)
Definition reads_exactly_once (size : Z) (w : World) : Prop :=
  forall face w1,
    getFontFace size w = Some (Some face, w1) ->
    exists w2,
      getFontFace size w1 = Some (Some face, w2) /\
      length (reads w2) = (length (reads w) + 1)%nat.

(** Every cached face was made for the size it is stored under, as the
    faces [getFontFace] stores are. *)
Definition cacheSized (w : World) : Prop :=
  forall size face, fontCache w !! size = Some face -> face_opts face = faceOptions size.

(** ** Resolutions in several goroutines

    The server runs [requestHandler] in a goroutine per connection, so
    that several calls of [getFontFace] may be under way at once, all
    on the one [fontCache], which no lock guards.  A goroutine inside
    [getFontFace(size)] is about to look [size] up in the map, or has
    missed and is about to enter the loop over the paths, or has
    returned; another goroutine may run between the lookup and the
    loop.  (The scheduler may cut the loop as well; taking it in one
    stretch leaves executions out and adds none.) *)
Inductive Goroutine : Type :=
| AtLookup (size : Z)
| AtLoop (size : Z)
| Returned (face : option Face).

(** One stretch of [getFontFace] run without interruption: the [if] of
    lines 291-293, or the loop of lines 306-331 with the store of the
    face it finds. *)
Definition step (g : Goroutine) : M Goroutine :=
  match g with
  | AtLookup size =>
      bind (cacheLookup size) (fun cached =>
      ret match cached with
          | Some face => Returned (Some face)
          | None => AtLoop size
          end)
  | AtLoop size => bind (tryFontPaths size fontPaths) (fun face => ret (Returned face))
  | Returned face => ret (Returned face)
  end.

(** The goroutines [gs] run under a schedule, which names the goroutine
    that takes each step. *)
Fixpoint run (schedule : list nat) (gs : list Goroutine) : M (list Goroutine) :=
  match schedule with
  | [] => ret gs
  | i :: schedule =>
      match gs !! i with
      | Some g => bind (step g) (fun g' => run schedule (<[i := g']> gs))
      | None => run schedule gs
      end
  end.

End FontVocabulary.

(** ** Renders *)

Section CardVocabulary.

Context {FL : FontLib} {PF : Platform}.

(** The messages handed to [log.Printf], in order. *)
Definition logs (w : World) : list string :=
  omap (fun e => match e with EvLog msg => Some msg | _ => None end) (trace w).

(** [size] resolves: it is cached, or a candidate path yields a face. *)
Definition resolves (size : Z) (w : World) : Prop :=
  is_Some (fontCache w !! size) \/ is_Some (firstUsable size fontPaths).

(** "Render draws the four metric labels at 48pt in the theme's
    [StatsColor] at the anchors (53, 293), (640, 293), (53, 360) and
    (640, 360)": the last four [DrawString] calls of the render are the
    four labels, each with a [font.Drawer] of that colour, of the face
    cached for 48 (a face of 48 points when every cached face has the
    size of its key) and with its dot at the anchor in 26.6 fixed point,
    each drawn onto the canvas the call before it left. *)
Definition draws_stat_labels (stats : StatsData) (theme : Theme) (w : World) : Prop :=
  exists f48 c0 w' pre,
    let stat := image.Uniform (StatsColor theme) in
    let s1 := "Followers: " +:+ pretty (Followers stats) in
    let s2 := "Following: " +:+ pretty (Following stats) in
    let s3 := "Public Repos: " +:+ pretty (PublicRepos stats) in
    let s4 := "Total Stars: " +:+ pretty (TotalStars stats) in
    let d1 := mkDrawer c0 stat f48 (mkPoint26_6 (53 * 64) (293 * 64)) in
    let d2 := mkDrawer (DrawString d1 s1) stat f48 (mkPoint26_6 (640 * 64) (293 * 64)) in
    let d3 := mkDrawer (DrawString d2 s2) stat f48 (mkPoint26_6 (53 * 64) ((293 + 67) * 64)) in
    let d4 := mkDrawer (DrawString d3 s3) stat f48 (mkPoint26_6 (640 * 64) ((293 + 67) * 64)) in
    drawCard stats theme w = Some (DrawString d4 s4, w') /\
    fontCache w' !! 48 = Some f48 /\
    (cacheSized w -> face_opts f48 = faceOptions 48) /\
    draws w' = draws w ++ pre ++ [(d1, s1); (d2, s2); (d3, s3); (d4, s4)] /\
    (length pre <= 1)%nat.

End CardVocabulary.

(** ** The handler and the network *)

Section ServerVocabulary.

Context {FL : FontLib} {PF : Platform} {NW : Network}.

(** The URL [getUserData] asks for. *)
Definition userURL (username : string) : string :=
  "https://api.github.com/users/" +:+ username.

(** The URL [getTotalStars] asks for. *)
Definition reposPage (reposURL : string) : string := reposURL +:+ "?per_page=100".

(** The URLs [http.Get] is called with and the bodies closed by a run
    of events. *)
Definition gets (evs : list NetEvent) : list string :=
  omap (fun e => match e with EvGet url => Some url | _ => None end) evs.
Definition closes (evs : list NetEvent) : list ReadCloser :=
  omap (fun e => match e with EvClose body => Some body | _ => None end) evs.

(** The bodies received by a run of events whose first call of
    [http.Get] is the [n]-th of the process. *)
Fixpoint opens (n : nat) (evs : list NetEvent) : list ReadCloser :=
  match evs with
  | [] => []
  | EvGet url :: evs =>
      match http_Get n url with
      | inl resp => http.Body resp :: opens (S n) evs
      | inr _ => opens (S n) evs
      end
  | EvClose _ :: evs => opens n evs
  end.

(** The stars of [repos] added up without wrap-around. *)
Definition starTotal (repos : list GitHubRepo.t) : Z :=
  foldr (fun repo total => GitHubRepo.StargazersCount repo + total) 0 repos.

(** The response [ctx.Error(msg, statusCode)] leaves. *)
Definition errorResponse (statusCode : Z) (msg : string) : fasthttp.Response :=
  fasthttp.mkResponse statusCode "text/plain; charset=utf-8" ∅ (bytes msg).

Definition cacheControl : string := "public, max-age=3600, s-maxage=3600".

End ServerVocabulary.

(** ** Sample inputs *)

(** A [w x h] bitmap whose pixel at [(x, y)] is the opaque colour
    [(x, y, 0)]. *)
Definition gradient (w h : Z) : image.Image :=
  image.mkImage (image.Rect 0 0 w h) (fun x y => rgb x y 0 255).

(** A [1 x 1] bitmap. *)
Definition dot (c : color.Color) : image.Image :=
  image.mkImage (image.Rect 0 0 1 1) (fun _ _ => c).

(** A font library whose fonts are the file contents; empty files do not
    parse and [NewFace] never fails. *)
Definition rawFonts : FontLib :=
  {| Font := list Z;
     Parse := fun data => match data with [] => None | _ => Some data end;
     NewFace_ok := fun _ _ => true |}.

(** A machine where only DejaVu Sans Mono is installed. *)
Definition dejavuOnly : @Platform rawFonts :=
  {| ReadFile := fun path =>
       if String.eqb path "/usr/share/fonts/truetype/dejavu/DejaVuSansMono.ttf"
       then Some [0; 1; 0; 0] else None;
     DrawString := fun d _ => Dst d;
     png_Encode := fun img => inl (image.Pix img) |}.

(** A machine where the first candidate is an empty file and DejaVu Sans
    Mono is installed. *)
Definition emptyInconsolata : @Platform rawFonts :=
  {| ReadFile := fun path =>
       if String.eqb path "/usr/share/fonts/truetype/inconsolata/Inconsolata.ttf"
       then Some []
       else if String.eqb path "/usr/share/fonts/truetype/dejavu/DejaVuSansMono.ttf"
       then Some [0; 1; 0; 0] else None;
     DrawString := fun d _ => Dst d;
     png_Encode := fun img => inl (image.Pix img) |}.

(** A machine with none of the candidate fonts. *)
Definition noFonts : @Platform rawFonts :=
  {| ReadFile := fun _ => None;
     DrawString := fun d _ => Dst d;
     png_Encode := fun img => inl (image.Pix img) |}.

(** The process at start-up: nothing cached, nothing done. *)
Definition world0 {FL : FontLib} : World := mkWorld ∅ O [].

Definition octocat : StatsData :=
  mkStatsData "octocat" (image.mkImage (image.Rect 0 0 32 32) (fun _ _ => rgb 0 0 255 255))
              10 5 3 42.

(** A user whose avatar is a [112 x 112] gradient. *)
Definition mona : StatsData := mkStatsData "mona" (gradient 112 112) 7 2 4 9.

(** A [w x h] bitmap of non-premultiplied pixels, opaque on the even
    columns and fully transparent on the odd ones. *)
Definition stripes (w h : Z) : image.Image :=
  image.mkImage (image.Rect 0 0 w h)
    (fun x _ => color.OfNRGBA 200 100 50 (if Z.even x then 255 else 0)).

Definition octocatUser : GitHubUser.t :=
  GitHubUser.mk "The Octocat" "https://avatars.githubusercontent.com/u/583231"
                10 5 3 "https://api.github.com/users/octocat/repos".

(** A profile without a display name, whose avatar is not a PNG or a JPEG. *)
Definition namelessUser : GitHubUser.t :=
  GitHubUser.mk "" "https://avatars.githubusercontent.com/u/1.gif"
                0 0 0 "https://api.github.com/users/nameless/repos".

(** A network that knows two users; bodies are numbered, and the
    decoders recognise them by their number. *)
Definition github : Network :=
  {| ReadCloser := nat;
     http_Get := fun _ url =>
       if String.eqb url "https://api.github.com/users/octocat"
       then inl (http.mkResponse 200 "200 OK" 1%nat)
       else if String.eqb url "https://api.github.com/users/nameless"
       then inl (http.mkResponse 200 "200 OK" 2%nat)
       else if String.eqb url "https://avatars.githubusercontent.com/u/583231"
       then inl (http.mkResponse 200 "200 OK" 3%nat)
       else if String.eqb url "https://avatars.githubusercontent.com/u/1.gif"
       then inl (http.mkResponse 200 "200 OK" 4%nat)
       else if String.eqb url "https://api.github.com/users/octocat/repos?per_page=100"
       then inl (http.mkResponse 200 "200 OK" 5%nat)
       else inl (http.mkResponse 404 "404 Not Found" 0%nat);
     ioutil_ReadAll := fun body => inl [Z.of_nat body];
     image_Decode := fun body =>
       if (body =? 3)%nat then inl (Avatar octocat) else inr "image: unknown format"%string;
     json_Unmarshal_user := fun data =>
       match data with
       | [1] => inl octocatUser
       | [2] => inl namelessUser
       | _ => inr "unexpected end of JSON input"%string
       end;
     json_Unmarshal_repos := fun data =>
       match data with
       | [5] => inl [GitHubRepo.mk 80; GitHubRepo.mk 3; GitHubRepo.mk 0]
       | _ => inr "unexpected end of JSON input"%string
       end |}.

(** The process at start-up, and a request that has not been answered yet. *)
Definition process0 {FL : FontLib} {NW : Network} : Process := mkProcess world0 [].

Definition request (args : list (string * string)) : fasthttp.RequestCtx :=
  fasthttp.mkRequestCtx args
    (fasthttp.mkResponse fasthttp.StatusOK "text/plain; charset=utf-8" ∅ []).

(** The renderer once the faces of both sizes have been loaded. *)
Definition warmWorld : @World rawFonts :=
  mkWorld (<[72 := @mkFace rawFonts 0%nat [0; 1; 0; 0] (faceOptions 72)]>
             (<[48 := @mkFace rawFonts 1%nat [0; 1; 0; 0] (faceOptions 48)]> ∅))
          2%nat [].


(* ===================================================================== *)
(** * Part III: lemmas and theorems                                        *)
(* ===================================================================== *)

(** ** Rounding in binary64: bounds by powers of two, and the error of
    one division and one product *)

Module Float64Facts.

Import Float64 Float64Bounds.

Lemma digits2_pos_bounds (p : positive) :
  2 ^ (Z.pos (digits2_pos p) - 1) <= Z.pos p < 2 ^ Z.pos (digits2_pos p).
Proof.
  induction p as [p IH | p IH |]; simpl digits2_pos.
  - rewrite Pos2Z.inj_succ.
    replace (Z.succ (Z.pos (digits2_pos p)) - 1) with (Z.succ (Z.pos (digits2_pos p) - 1)) by lia.
    rewrite !Z.pow_succ_r by lia. lia.
  - rewrite Pos2Z.inj_succ.
    replace (Z.succ (Z.pos (digits2_pos p)) - 1) with (Z.succ (Z.pos (digits2_pos p) - 1)) by lia.
    rewrite !Z.pow_succ_r by lia. lia.
  - simpl. lia.
Qed.

Lemma up_of_loc m l : up (shr_record_of_loc m l) = m + loc_bump l.
Proof. destruct l as [|[]]; reflexivity. Qed.

Lemma shr_1_up mrs j :
  0 <= shr_m mrs -> 0 <= j -> up mrs <= 2 ^ (j + 1) ->
  0 <= shr_m (shr_1 mrs) /\ up (shr_1 mrs) <= 2 ^ j.
Proof.
  intros Hm Hj Hup. rewrite Z.pow_add_r, Z.pow_1_r in Hup by lia.
  assert (1 <= 2 ^ j) by (apply (Z.pow_le_mono_r 2 0 j); lia).
  destruct mrs as [m r s]. unfold up, inexact in *. simpl in Hm, Hup.
  destruct m as [|[p|p|]|p]; simpl; try lia;
    destruct r, s; simpl in *; lia.
Qed.

Lemma iter_pos_nat {A} (f : A -> A) (n : positive) (x : A) :
  SpecFloat.iter_pos f n x = Nat.iter (Pos.to_nat n) f x.
Proof.
  revert x. induction n as [n IH | n IH |]; intros x; simpl SpecFloat.iter_pos.
  - rewrite !IH, Pos2Nat.inj_xI. rewrite <- Nat.iter_add, <- Nat.iter_succ_r.
    f_equal. lia.
  - rewrite !IH, Pos2Nat.inj_xO. rewrite <- Nat.iter_add. f_equal. lia.
  - reflexivity.
Qed.

Lemma iter_shr_1_up (n : nat) mrs e k :
  0 <= shr_m mrs -> e + Z.of_nat n <= k -> up mrs <= 2 ^ (k - e) ->
  0 <= shr_m (Nat.iter n shr_1 mrs) /\
  up (Nat.iter n shr_1 mrs) <= 2 ^ (k - (e + Z.of_nat n)).
Proof.
  intros Hm. induction n as [|n IH]; intros He Hup.
  - simpl. replace (e + Z.of_nat 0) with e by lia. auto.
  - simpl Nat.iter. destruct IH as [IH1 IH2]; [lia | assumption |].
    apply shr_1_up; [assumption | lia |].
    replace (k - (e + Z.of_nat (S n)) + 1) with (k - (e + Z.of_nat n)) by lia.
    assumption.
Qed.

Lemma fexp_eq e : fexp prec emax e = Z.max (e - 53) (-1074).
Proof. reflexivity. Qed.

Lemma Zdigits2_le_pow2 m j :
  0 <= j -> 0 < m -> m <= 2 ^ j -> Zdigits2 m - 1 <= j.
Proof.
  intros Hj Hm Hle. destruct m as [|p|p]; try lia. simpl.
  pose proof (digits2_pos_bounds p) as [Hlo _].
  apply (Z.pow_le_mono_r_iff 2); lia.
Qed.

(** One [shr_fexp] keeps a value at or below [2 ^ k] there. *)
Lemma shr_fexp_up m e l k :
  0 <= m -> e <= k -> -1074 <= k -> m + loc_bump l <= 2 ^ (k - e) ->
  let '(mrs', e') := shr_fexp prec emax m e l in
  0 <= shr_m mrs' /\ e' <= k /\ up mrs' <= 2 ^ (k - e').
Proof.
  intros Hm He Hk Hup. unfold shr_fexp, shr.
  assert (Hf : fexp prec emax (Zdigits2 m + e) <= k).
  { rewrite fexp_eq. destruct (Z.eq_dec m 0) as [-> | Hne].
    - simpl. lia.
    - assert (Zdigits2 m - 1 <= k - e).
      { apply Zdigits2_le_pow2; try lia. destruct l; simpl in Hup; lia. }
      lia. }
  destruct (fexp prec emax (Zdigits2 m + e) - e) as [|n|n] eqn:Hn.
  - rewrite up_of_loc. split; [destruct l as [|[]]; exact Hm | auto].
  - rewrite iter_pos_nat.
    destruct (iter_shr_1_up (Pos.to_nat n) (shr_record_of_loc m l) e k) as [H1 H2].
    + destruct l as [|[]]; exact Hm.
    + rewrite positive_nat_Z. lia.
    + rewrite up_of_loc. exact Hup.
    + rewrite positive_nat_Z in H2. split; [exact H1 | split; [lia | exact H2]].
  - rewrite up_of_loc. split; [destruct l as [|[]]; exact Hm | auto].
Qed.

Lemma round_nearest_even_up mrs :
  0 <= shr_m mrs ->
  0 <= round_nearest_even (shr_m mrs) (loc_of_shr_record mrs) <= up mrs.
Proof.
  destruct mrs as [m r s]. unfold up, inexact. simpl. intros Hm.
  destruct r, s; simpl; try lia. destruct (Z.even m); lia.
Qed.

Lemma binary_round_aux_le_pow2 mx ex lx k :
  0 <= mx -> ex <= k -> -1074 <= k <= 971 -> mx + loc_bump lx <= 2 ^ (k - ex) ->
  le_pow2 k (binary_round_aux prec emax false mx ex lx).
Proof.
  intros Hm He Hk Hup. unfold binary_round_aux.
  pose proof (shr_fexp_up mx ex lx k Hm He (proj1 Hk) Hup) as H1.
  destruct (shr_fexp prec emax mx ex lx) as [mrs' e'].
  destruct H1 as (Hm1 & He1 & Hup1).
  pose proof (round_nearest_even_up mrs' Hm1) as [Hr0 Hr1].
  set (m2 := round_nearest_even (shr_m mrs') (loc_of_shr_record mrs')) in *.
  assert (H2 : m2 + loc_bump loc_Exact <= 2 ^ (k - e')) by (simpl; lia).
  pose proof (shr_fexp_up m2 e' loc_Exact k Hr0 He1 (proj1 Hk) H2) as H3.
  destruct (shr_fexp prec emax m2 e' loc_Exact) as [mrs'' e''].
  destruct H3 as (Hm3 & He3 & Hup3).
  assert (Hle : shr_m mrs'' <= up mrs'').
  { unfold up. destruct (inexact mrs''); lia. }
  destruct (shr_m mrs'') as [|m|m] eqn:Hm''; simpl; try lia.
  destruct (Z.leb_spec e'' (emax - prec)) as [_ | Hbad].
  - simpl. split; lia.
  - unfold emax, prec in Hbad. lia.
Qed.

Lemma mul_le_pow2 a b x y :
  le_pow2 a x -> le_pow2 b y -> -1074 <= a + b <= 971 ->
  le_pow2 (a + b) (mul x y).
Proof.
  intros Hx Hy Hk.
  destruct x as [[] | [] | | [] mx ex]; try contradiction;
    destruct y as [[] | [] | | [] my ey]; try contradiction; simpl; trivial.
  destruct Hx as [Hex Hmx], Hy as [Hey Hmy].
  apply binary_round_aux_le_pow2; try lia.
  simpl loc_bump. rewrite Z.add_0_r, Pos2Z.inj_mul.
  replace (a + b - (ex + ey)) with ((a - ex) + (b - ey)) by lia.
  rewrite Z.pow_add_r by lia.
  apply Z.mul_le_mono_nonneg; lia.
Qed.

Lemma new_location_bump n r :
  loc_bump (new_location n r) = if r =? 0 then 0 else 1.
Proof.
  unfold new_location, new_location_even, new_location_odd.
  destruct (Z.even n); destruct (r =? 0); reflexivity.
Qed.

Lemma div_le_pow2 a x y :
  le_pow2 a x -> ge_one y -> 0 <= a <= 971 -> le_pow2 a (div x y).
Proof.
  intros Hx Hy Hk.
  destruct y as [ | | | [] my ey]; try contradiction.
  destruct x as [[] | [] | | [] mx ex]; try contradiction; simpl; trivial.
  destruct Hx as [Hex Hmx].
  unfold div, SFdiv, SFdiv_core_binary.
  set (e' := Z.min _ _).
  assert (He' : e' <= ex - ey) by (unfold e'; lia).
  assert (He'a : e' <= a).
  { unfold e'. rewrite fexp_eq.
    pose proof (digits2_pos_bounds mx) as [Hdx _].
    pose proof (digits2_pos_bounds my) as [_ Hdy].
    assert (Z.pos (digits2_pos mx) - 1 <= a - ex).
    { apply (Z.pow_le_mono_r_iff 2); lia. }
    assert (1 <= Z.pos (digits2_pos my) + ey).
    { destruct Hy as [Hy | Hy].
      - lia.
      - assert (Hlt : 2 ^ (- ey) < 2 ^ Z.pos (digits2_pos my)) by lia.
        apply Z.pow_lt_mono_r_iff in Hlt; lia. }
    simpl Zdigits2. lia. }
  set (s := ex - ey - e').
  assert (Hs : 0 <= s) by (unfold s; lia).
  set (m' := match s with Z.pos _ => Z.shiftl (Z.pos mx) s | 0 => Z.pos mx | Z.neg _ => 0 end).
  assert (Hm' : m' = Z.pos mx * 2 ^ s).
  { unfold m'. destruct s as [|p|p] eqn:Es; try lia.
    - rewrite Z.shiftl_mul_pow2; lia. }
  pose proof (Z_div_mod m' (Z.pos my) ltac:(lia)) as Hdm.
  destruct (Z.div_eucl m' (Z.pos my)) as [q r]. destruct Hdm as [Hdm Hr].
  assert (Hq : 0 <= q) by nia.
  apply binary_round_aux_le_pow2; try lia.
  rewrite new_location_bump.
  (* q * my + r = mx * 2^s <= 2^(a - ex + s) *)
  assert (Hbound : m' <= 2 ^ (a - ex) * 2 ^ s).
  { rewrite Hm'. apply Z.mul_le_mono_nonneg_r; lia. }
  rewrite <- Z.pow_add_r in Hbound by lia.
  replace (a - ex + s) with ((a - e') + (- ey)) in Hbound by (unfold s; lia).
  assert (0 < 2 ^ (a - e')) by (apply Z.pow_pos_nonneg; lia).
  destruct Hy as [Hy | Hy].
  - assert (2 ^ (a - e' + - ey) <= 2 ^ (a - e')).
    { destruct (Z.eq_dec ey 0) as [-> | ?].
      - replace (a - e' + - 0) with (a - e') by lia. lia.
      - destruct (Z_le_gt_dec 0 (a - e' + - ey)).
        + apply Z.pow_le_mono_r; lia.
        + rewrite Z.pow_neg_r by lia. lia. }
    destruct (Z.eqb_spec r 0); nia.
  - assert (ey <= 0 \/ 0 < ey) as [Hey | Hey] by lia.
    + rewrite Z.pow_add_r in Hbound by lia.
      destruct (Z.eqb_spec r 0); nia.
    + assert (2 ^ (a - e' + - ey) <= 2 ^ (a - e')).
      { destruct (Z_le_gt_dec 0 (a - e' + - ey)).
        + apply Z.pow_le_mono_r; lia.
        + rewrite Z.pow_neg_r by lia. lia. }
      destruct (Z.eqb_spec r 0); nia.
Qed.

Lemma to_int_le_pow2 k f :
  le_pow2 k f -> 0 <= k <= 62 -> 0 <= to_int f <= 2 ^ k.
Proof.
  intros Hf Hk.
  assert (Hp : 0 < 2 ^ k) by (apply Z.pow_pos_nonneg; lia).
  assert (Hp' : 2 ^ k <= 2 ^ 62) by (apply Z.pow_le_mono_r; lia).
  destruct f as [[] | [] | | [] m e]; try contradiction; simpl; try lia.
  destruct Hf as [He Hm].
  assert (Hmag : 0 <= (if 0 <=? e then Z.pos m * 2 ^ e else Z.pos m / 2 ^ (- e)) <= 2 ^ k).
  { destruct (Z.leb_spec 0 e).
    - assert (E : 2 ^ k = 2 ^ (k - e) * 2 ^ e).
      { rewrite <- Z.pow_add_r by lia. f_equal. lia. }
      assert (0 < 2 ^ e) by (apply Z.pow_pos_nonneg; lia). nia.
    - assert (0 < 2 ^ (- e)) by (apply Z.pow_pos_nonneg; lia).
      split; [apply Z.div_pos; lia |].
      replace (k - e) with (k + - e) in Hm by lia. rewrite Z.pow_add_r in Hm by lia.
      apply Z.div_le_upper_bound; lia. }
  set (mag := if 0 <=? e then _ else _) in *.
  unfold Int.MinInt, Int.MaxInt.
  assert (2 ^ 62 < 2 ^ 63) by (apply Z.pow_lt_mono_r; lia).
  destruct (Z.leb_spec (- 2 ^ 63) mag); destruct (Z.leb_spec mag (2 ^ 63 - 1)); simpl; lia.
Qed.

Lemma binary_round_aux_canonical s m e :
  fexp prec emax (Z.pos (digits2_pos m) + e) = e -> e <= 971 ->
  binary_round_aux prec emax s (Z.pos m) e loc_Exact = S754_finite s m e.
Proof.
  intros Hc He. unfold binary_round_aux, shr_fexp. simpl Zdigits2.
  rewrite Hc, Z.sub_diag. simpl.
  rewrite Hc, Z.sub_diag. simpl.
  destruct (Z.leb_spec e (emax - prec)) as [_ | Hbad]; [reflexivity |].
  unfold emax, prec in Hbad. lia.
Qed.

Lemma iter_xO_spec (n p : positive) :
  Z.pos (Pos.iter xO p n) = Z.pos p * 2 ^ Z.pos n /\
  digits2_pos (Pos.iter xO p n) = (digits2_pos p + n)%positive.
Proof.
  induction n as [|n IH] using Pos.peano_ind.
  - simpl. split; [lia | lia].
  - rewrite Pos.iter_succ. destruct IH as [IH1 IH2]. split.
    + rewrite Pos2Z.inj_xO, IH1, Pos2Z.inj_succ, Z.pow_succ_r by lia. lia.
    + simpl. rewrite IH2. lia.
Qed.

Lemma shr_1_m mrs : 0 <= shr_m mrs -> shr_m (shr_1 mrs) = shr_m mrs / 2.
Proof.
  intros Hm. rewrite <- Z.div2_div. destruct mrs as [m r s]. simpl in *.
  destruct m as [|[p|p|]|p]; try reflexivity; lia.
Qed.

Lemma iter_shr_1_m (n : nat) mrs :
  0 <= shr_m mrs -> shr_m (Nat.iter n shr_1 mrs) = shr_m mrs / 2 ^ Z.of_nat n.
Proof.
  intros Hm. induction n as [|n IH].
  - simpl. rewrite Z.div_1_r. reflexivity.
  - simpl Nat.iter. rewrite shr_1_m.
    + rewrite IH, Nat2Z.inj_succ, Z.pow_succ_r, Z.div_div by lia.
      f_equal. lia.
    + rewrite IH. apply Z.div_pos; [exact Hm | apply Z.pow_pos_nonneg; lia].
Qed.

Lemma shr_record_of_loc_m m l : shr_m (shr_record_of_loc m l) = m.
Proof. destruct l as [|[]]; reflexivity. Qed.

(** What [shr_fexp] leaves of a mantissa of at least 53 bits. *)
Lemma shr_fexp_normal m e l :
  0 < m -> 53 <= Zdigits2 m -> -1074 <= e + (Zdigits2 m - 53) ->
  let n := Zdigits2 m - 53 in
  exists mrs, shr_fexp prec emax m e l = (mrs, e + n) /\ shr_m mrs = m / 2 ^ n.
Proof.
  intros Hm Hd He n. unfold shr_fexp, shr. rewrite fexp_eq.
  replace (Z.max (Zdigits2 m + e - 53) (-1074) - e) with n by (unfold n; lia).
  destruct n as [|p|p] eqn:Hn; try lia.
  - eexists. split; [rewrite Z.add_0_r; reflexivity |].
    rewrite shr_record_of_loc_m, Z.div_1_r. reflexivity.
  - eexists. split; [reflexivity |].
    rewrite iter_pos_nat, iter_shr_1_m, shr_record_of_loc_m, positive_nat_Z.
    + reflexivity.
    + rewrite shr_record_of_loc_m. lia.
Qed.

Lemma Zdigits2_unique m d : 0 < d -> 2 ^ (d - 1) <= m < 2 ^ d -> Zdigits2 m = d.
Proof.
  intros Hd [Hlo Hhi].
  assert (0 < m) by (pose proof (Z.pow_pos_nonneg 2 (d - 1)); lia).
  destruct m as [|p|p]; try lia. simpl.
  pose proof (digits2_pos_bounds p) as [Hlo' Hhi'].
  assert (H1 : 2 ^ (d - 1) < 2 ^ Z.pos (digits2_pos p)) by lia.
  assert (H2 : 2 ^ (Z.pos (digits2_pos p) - 1) < 2 ^ d) by lia.
  apply Z.pow_lt_mono_r_iff in H1; [| lia | lia].
  apply Z.pow_lt_mono_r_iff in H2; [| lia | lia]. lia.
Qed.

Lemma Zdigits2_bounds m : 0 < m -> 2 ^ (Zdigits2 m - 1) <= m < 2 ^ Zdigits2 m.
Proof. intros Hm. destruct m as [|p|p]; try lia. apply digits2_pos_bounds. Qed.

Lemma round_nearest_even_step m l :
  m <= round_nearest_even m l <= m + 1.
Proof. destruct l as [|[]]; simpl; try lia. destruct (Z.even m); lia. Qed.

(** Rounding a mantissa of at least 53 bits, away from the ends of the
    exponent range: the result is a normal number one unit in the last
    place around the exact value. *)
Lemma binary_round_aux_normal mx ex lx :
  0 < mx -> 53 <= Zdigits2 mx ->
  -1074 <= ex + (Zdigits2 mx - 53) -> ex + (Zdigits2 mx - 53) < 971 ->
  let n := Zdigits2 mx - 53 in
  exists m e,
    binary_round_aux prec emax false mx ex lx = S754_finite false m e /\
    2 ^ 52 <= Z.pos m < 2 ^ 53 /\
    ex + n <= e <= ex + n + 1 /\
    2 ^ 52 <= mx / 2 ^ n /\
    mx / 2 ^ n <= Z.pos m * 2 ^ (e - (ex + n)) <= mx / 2 ^ n + 1.
Proof.
  intros Hm Hd Hlo Hhi n. unfold binary_round_aux.
  destruct (shr_fexp_normal mx ex lx Hm Hd Hlo) as (mrs & -> & Hmrs).
  change (Zdigits2 mx - 53) with n in Hmrs |- *.
  pose proof (Zdigits2_bounds mx Hm) as [Hb1 Hb2].
  assert (Hn : 0 <= n) by (unfold n; lia).
  assert (Hpn : 0 < 2 ^ n) by (apply Z.pow_pos_nonneg; lia).
  assert (Hm1 : 2 ^ 52 <= mx / 2 ^ n < 2 ^ 53).
  { split.
    - apply Z.div_le_lower_bound; [lia |]. rewrite <- Z.pow_add_r by lia.
      replace (n + 52) with (Zdigits2 mx - 1) by (unfold n; lia). exact Hb1.
    - apply Z.div_lt_upper_bound; [lia |]. rewrite <- Z.pow_add_r by lia.
      replace (n + 53) with (Zdigits2 mx) by (unfold n; lia). exact Hb2. }
  rewrite Hmrs.
  pose proof (round_nearest_even_step (mx / 2 ^ n) (loc_of_shr_record mrs)) as HR.
  set (R := round_nearest_even (mx / 2 ^ n) (loc_of_shr_record mrs)) in *.
  destruct (Z.eq_dec R (2 ^ 53)) as [HR53 | HR53].
  - (* the mantissa overflowed into 54 bits: one more shift *)
    assert (Hdig : Zdigits2 R = 54).
    { apply Zdigits2_unique; [lia |]. rewrite HR53.
      split; [apply Z.pow_le_mono_r; lia | apply Z.pow_lt_mono_r; lia]. }
    unfold shr_fexp. rewrite Hdig, fexp_eq.
    replace (Z.max (54 + (ex + n) - 53) (-1074) - (ex + n)) with 1 by lia.
    rewrite HR53. simpl shr. cbn [shr_m].
    destruct (Z.leb_spec (ex + n + 1) (emax - prec)) as [_ | Hbad];
      [| unfold emax, prec in Hbad; lia].
    eexists _, _. split; [reflexivity |].
    split; [simpl; lia |]. split; [lia |]. split; [lia |].
    replace (ex + n + 1 - (ex + n)) with 1 by lia.
    change (Z.pos 4503599627370496 * 2 ^ 1) with (2 ^ 53). lia.
  - assert (Hdig : Zdigits2 R = 53).
    { apply Zdigits2_unique; [lia |]. change (53 - 1) with 52. lia. }
    unfold shr_fexp. rewrite Hdig, fexp_eq.
    replace (Z.max (53 + (ex + n) - 53) (-1074) - (ex + n)) with 0 by lia.
    simpl shr. cbn [shr_m].
    assert (HRpos : 0 < R) by lia.
    destruct R as [|m|m] eqn:ER; try lia.
    destruct (Z.leb_spec (ex + n) (emax - prec)) as [_ | Hbad];
      [| unfold emax, prec in Hbad; lia].
    eexists _, _. split; [reflexivity |].
    split; [lia |]. split; [lia |]. split; [lia |].
    rewrite Z.sub_diag, Z.mul_1_r. lia.
Qed.

(** Below [2 ^ 53] the conversion of a positive [int] is exact and
    normal. *)
Lemma of_int_normal (z : Z) :
  0 < z < 2 ^ 53 ->
  exists m e,
    of_int z = S754_finite false m e /\
    -52 <= e <= 0 /\ Z.pos m = z * 2 ^ (- e) /\ 2 ^ 52 <= Z.pos m < 2 ^ 53.
Proof.
  intros [Hz0 Hz]. destruct z as [|p|p]; try lia.
  unfold of_int, binary_normalize, binary_round, shl_align.
  pose proof (digits2_pos_bounds p) as [Hlo Hhi].
  assert (Hd : Z.pos (digits2_pos p) <= 53).
  { assert (Hlt : 2 ^ (Z.pos (digits2_pos p) - 1) < 2 ^ 53) by lia.
    apply Z.pow_lt_mono_r_iff in Hlt; lia. }
  rewrite Z.add_0_r, fexp_eq, Z.sub_0_r.
  replace (Z.max (Z.pos (digits2_pos p) - 53) (-1074)) with (Z.pos (digits2_pos p) - 53) by lia.
  destruct (Z.pos (digits2_pos p) - 53) as [|d|d] eqn:Ed; try lia.
  - rewrite binary_round_aux_canonical.
    + exists p, 0. split; [reflexivity |]. split; [lia |]. split; [simpl; lia |].
      replace (Z.pos (digits2_pos p)) with 53 in Hlo, Hhi by lia.
      change (53 - 1) with 52 in Hlo. lia.
    + rewrite fexp_eq. lia.
    + lia.
  - destruct (iter_xO_spec d p) as [Hv Hdig].
    rewrite binary_round_aux_canonical.
    + exists (Pos.iter xO p d), (Z.neg d). split; [reflexivity |].
      split; [lia |]. split; [rewrite Hv; reflexivity |].
      pose proof (digits2_pos_bounds (Pos.iter xO p d)) as [Hlo' Hhi'].
      rewrite Hdig, Pos2Z.inj_add in Hlo', Hhi'.
      replace (Z.pos (digits2_pos p) + Z.pos d) with 53 in Hlo', Hhi' by lia.
      change (53 - 1) with 52 in Hlo'. lia.
    + rewrite fexp_eq, Hdig, Pos2Z.inj_add. lia.
    + lia.
Qed.

Lemma of_int_exact (z : Z) :
  0 < z < 2 ^ 53 ->
  exists m e, of_int z = S754_finite false m e /\ e <= 0 /\ Z.pos m = z * 2 ^ (- e).
Proof.
  intros Hz. destruct (of_int_normal z Hz) as (m & e & Hf & He & Hm & _).
  exists m, e. split; [exact Hf |]. split; [lia | exact Hm].
Qed.

Lemma of_int_le_pow2 (z k : Z) :
  0 <= z <= 2 ^ k -> 0 <= k < 53 -> le_pow2 k (of_int z).
Proof.
  intros [Hz0 Hz] Hk.
  destruct (Z.eq_dec z 0) as [-> | Hne]; [exact I |].
  assert (Hlt : 2 ^ k < 2 ^ 53) by (apply Z.pow_lt_mono_r; lia).
  destruct (of_int_exact z) as (m & e & -> & He & Hm); [lia |].
  simpl. split; [lia |]. rewrite Hm.
  replace (k - e) with (k + - e) by lia. rewrite Z.pow_add_r by lia.
  apply Z.mul_le_mono_nonneg_r; [apply Z.pow_nonneg |]; lia.
Qed.

Lemma of_int_ge_one (z : Z) : 1 <= z < 2 ^ 53 -> ge_one (of_int z).
Proof.
  intros Hz. destruct (of_int_exact z) as (m & e & -> & He & Hm); [lia |].
  simpl. right. rewrite Hm.
  assert (0 < 2 ^ (- e)) by (apply Z.pow_pos_nonneg; lia). nia.
Qed.

(** The integer core of one rounded division: [G] is the rounded
    quotient and [N] the exact numerator on a common scale. *)
Lemma div_round_arith (T B N q0 rem R P : Z) :
  0 < T -> 0 < B -> 0 < P ->
  N = q0 * B + rem -> 0 <= rem < B ->
  R * P <= q0 + P -> q0 + 1 <= R * P + P -> T <= R ->
  (T - 1) * (R * P * B) <= T * N /\ T * N < (T + 1) * (R * P * B).
Proof.
  intros HT HB HP HN Hrem Hup Hdown HTR.
  assert (H1 : R * P * B <= N + P * B) by nia.
  assert (H2 : N < R * P * B + P * B) by nia.
  assert (H3 : T * (P * B) <= R * P * B) by nia.
  split; nia.
Qed.

Lemma floor_pow_bounds (q n : Z) :
  0 <= n -> 0 <= q -> (q / 2 ^ n) * 2 ^ n <= q < (q / 2 ^ n) * 2 ^ n + 2 ^ n.
Proof.
  intros Hn Hq. assert (Hp : 0 < 2 ^ n) by (apply Z.pow_pos_nonneg; lia).
  pose proof (Z.div_mod q (2 ^ n) ltac:(lia)) as Hdm.
  pose proof (Z.mod_pos_bound q (2 ^ n) Hp). lia.
Qed.

(** [float64(a) / float64(b)] for positive [int]s below [2 ^ 53]: a
    normal number [s] with [(1 - 2^-52) s b <= a < (1 + 2^-52) s b],
    written on the scale [2 ^ K]. *)
Lemma div_of_int_bounds (a b K : Z) :
  0 < a < 2 ^ 53 -> 0 < b < 2 ^ 53 -> 160 <= K ->
  exists mr er,
    div (of_int a) (of_int b) = S754_finite false mr er /\
    2 ^ 52 <= Z.pos mr < 2 ^ 53 /\
    -105 <= er <= 1 /\
    (T52 - 1) * (Z.pos mr * 2 ^ (er + K) * b) <= T52 * (a * 2 ^ K) /\
    T52 * (a * 2 ^ K) < (T52 + 1) * (Z.pos mr * 2 ^ (er + K) * b).
Proof.
  intros Ha Hb HK.
  destruct (of_int_normal a Ha) as (A & ea & -> & Hea & HA & HAn).
  destruct (of_int_normal b Hb) as (B & eb & -> & Heb & HB & HBn).
  assert (HdA : Z.pos (digits2_pos A) = 53).
  { apply (Zdigits2_unique (Z.pos A)); [lia |]. change (53 - 1) with 52. lia. }
  assert (HdB : Z.pos (digits2_pos B) = 53).
  { apply (Zdigits2_unique (Z.pos B)); [lia |]. change (53 - 1) with 52. lia. }
  unfold div, SFdiv, SFdiv_core_binary. simpl Zdigits2. rewrite HdA, HdB, fexp_eq.
  replace (Z.min (Z.max (53 + ea - (53 + eb) - 53) (-1074)) (ea - eb)) with (ea - eb - 53) by lia.
  replace (ea - eb - (ea - eb - 53)) with 53 by lia.
  cbv iota. rewrite Z.shiftl_mul_pow2 by lia.
  pose proof (Z_div_mod (Z.pos A * 2 ^ 53) (Z.pos B) ltac:(lia)) as Hdm.
  destruct (Z.div_eucl (Z.pos A * 2 ^ 53) (Z.pos B)) as [q0 rem]. destruct Hdm as [Hdm Hrem].
  assert (Hq0 : 2 ^ 52 <= q0 < 2 ^ 54).
  { assert (Hq : q0 = Z.pos A * 2 ^ 53 / Z.pos B).
    { apply (Z.div_unique_pos _ _ q0 rem); lia. }
    rewrite Hq. split.
    - apply Z.div_le_lower_bound; [lia |].
      apply Z.le_trans with (2 ^ 53 * 2 ^ 52); [apply Z.mul_le_mono_nonneg_r; lia |].
      rewrite (Z.mul_comm (2 ^ 53)). apply Z.mul_le_mono_nonneg_r; lia.
    - apply Z.div_lt_upper_bound; [lia |].
      apply Z.lt_le_trans with (2 ^ 53 * 2 ^ 53); [apply Z.mul_lt_mono_pos_r; lia |].
      change (2 ^ 54) with (2 ^ 52 * 4). change (2 ^ 53 * 2 ^ 53) with (2 ^ 52 * 2 ^ 54).
      rewrite (Z.mul_comm (Z.pos B)). change (2 ^ 52 * 4 * Z.pos B) with (2 ^ 52 * 4 * Z.pos B).
      rewrite <- Z.mul_assoc. apply Z.mul_le_mono_nonneg_l; lia. }
  pose proof (Zdigits2_bounds q0 ltac:(lia)) as [Hd1 Hd2].
  assert (Hdq : 53 <= Zdigits2 q0 <= 54).
  { split.
    - assert (Hlt : 2 ^ 52 < 2 ^ Zdigits2 q0) by lia.
      apply Z.pow_lt_mono_r_iff in Hlt; [lia | lia |].
      destruct q0; simpl; lia.
    - assert (Hlt : 2 ^ (Zdigits2 q0 - 1) < 2 ^ 54) by lia.
      apply Z.pow_lt_mono_r_iff in Hlt; lia. }
  destruct (binary_round_aux_normal q0 (ea - eb - 53) (new_location (Z.pos B) rem))
    as (mr & er & Hbra & Hmr & Her & _ & HR); [lia | lia | lia | lia |].
  change (xorb false false) with false. cbv beta iota zeta.
  rewrite Hbra. exists mr, er. split; [reflexivity |]. split; [exact Hmr |].
  split; [lia |].
  set (n := Zdigits2 q0 - 53) in *.
  set (R := Z.pos mr * 2 ^ (er - (ea - eb - 53 + n))) in *.
  pose proof (floor_pow_bounds q0 n ltac:(lia) ltac:(lia)) as Hfl.
  assert (Hpn : 0 < 2 ^ n) by (apply Z.pow_pos_nonneg; lia).
  assert (HTR : T52 <= R) by (unfold T52; lia).
  set (F := q0 / 2 ^ n) in *.
  assert (Hup : R * 2 ^ n <= q0 + 2 ^ n).
  { apply Z.le_trans with ((F + 1) * 2 ^ n); [apply Z.mul_le_mono_nonneg_r; lia | lia]. }
  assert (Hdown : q0 + 1 <= R * 2 ^ n + 2 ^ n).
  { assert (F * 2 ^ n <= R * 2 ^ n) by (apply Z.mul_le_mono_nonneg_r; lia). lia. }
  destruct (div_round_arith T52 (Z.pos B) (Z.pos A * 2 ^ 53) q0 rem R (2 ^ n))
    as [Hlo Hhi]; [unfold T52; lia | lia | lia | lia | lia | exact Hup | exact Hdown | exact HTR |].
  (* back to the scale of [a] and [b] *)
  set (W := 2 ^ (ea - eb - 53 + K)).
  assert (HW : 0 < W) by (apply Z.pow_pos_nonneg; lia).
  set (Y := 2 ^ (- eb)) in *.
  assert (HY : 0 < Y) by (apply Z.pow_pos_nonneg; lia).
  assert (Hs : Z.pos mr * 2 ^ (er + K) = R * 2 ^ n * W).
  { unfold R, W. rewrite <- !Z.mul_assoc, <- !Z.pow_add_r by lia. do 2 f_equal. lia. }
  assert (HN : a * 2 ^ K * Y = Z.pos A * 2 ^ 53 * W).
  { unfold Y, W. rewrite HA. rewrite <- !Z.mul_assoc, <- !Z.pow_add_r by lia.
    do 2 f_equal. lia. }
  rewrite Hs.
  assert (E1 : forall c, c * (R * 2 ^ n * W * b) * Y = c * (R * 2 ^ n * Z.pos B) * W)
    by (intros c; rewrite HB; ring).
  assert (E2 : forall c, c * (a * 2 ^ K) * Y = c * (Z.pos A * 2 ^ 53) * W).
  { intros c. replace (c * (a * 2 ^ K) * Y) with (c * (a * 2 ^ K * Y)) by ring.
    rewrite HN. ring. }
  split.
  - apply (Z.mul_le_mono_pos_r _ _ Y HY). rewrite E1, E2.
    apply Z.mul_le_mono_nonneg_r; [lia | exact Hlo].
  - apply (Z.mul_lt_mono_pos_r Y _ _ HY). rewrite E1, E2.
    apply Z.mul_lt_mono_pos_r; [exact HW | exact Hhi].
Qed.

(** The integer core of one rounded product. *)
Lemma mul_round_arith (T M F R P : Z) :
  0 < T -> 0 < P ->
  F * P <= M < F * P + P -> F <= R <= F + 1 -> T <= F ->
  (T - 1) * M < T * (R * P) /\ T * (R * P) <= (T + 1) * M.
Proof.
  intros HT HP HM HR HTF.
  assert (H1 : R * P <= M + P) by nia.
  assert (H2 : M < R * P + P) by nia.
  assert (H3 : T * P <= M) by nia.
  split; nia.
Qed.

(** [float64(x) * r] for a positive [int] below [2 ^ 53] and a normal
    [r] of moderate exponent: a normal number [t] with
    [(1 - 2^-52) x r < t <= (1 + 2^-52) x r], on the scale [2 ^ K]. *)
Lemma mul_of_int_bounds (x K : Z) (mr : positive) (er : Z) :
  0 < x < 2 ^ 53 -> 2 ^ 52 <= Z.pos mr < 2 ^ 53 -> -105 <= er <= 1 -> 160 <= K ->
  exists mp ep,
    mul (of_int x) (S754_finite false mr er) = S754_finite false mp ep /\
    -105 <= ep <= 55 /\
    (T52 - 1) * (x * (Z.pos mr * 2 ^ (er + K))) < T52 * (Z.pos mp * 2 ^ (ep + K)) /\
    T52 * (Z.pos mp * 2 ^ (ep + K)) <= (T52 + 1) * (x * (Z.pos mr * 2 ^ (er + K))).
Proof.
  intros Hx Hmr Her HK.
  destruct (of_int_normal x Hx) as (X & ex & -> & Hex & HX & HXn).
  unfold mul, SFmul. change (xorb false false) with false.
  rewrite Pos2Z.inj_mul.
  set (M := Z.pos X * Z.pos mr).
  assert (HM : 2 ^ 104 <= M < 2 ^ 106).
  { unfold M. change (2 ^ 104) with (2 ^ 52 * 2 ^ 52). change (2 ^ 106) with (2 ^ 53 * 2 ^ 53).
    split; [apply Z.mul_le_mono_nonneg; lia | apply Z.mul_lt_mono_nonneg; lia]. }
  pose proof (Zdigits2_bounds M ltac:(lia)) as [Hd1 Hd2].
  assert (Hd : 105 <= Zdigits2 M <= 106).
  { split.
    - assert (Hlt : 2 ^ 104 < 2 ^ Zdigits2 M) by lia.
      apply Z.pow_lt_mono_r_iff in Hlt; [lia | lia |].
      destruct M; simpl; lia.
    - assert (Hlt : 2 ^ (Zdigits2 M - 1) < 2 ^ 106) by lia.
      apply Z.pow_lt_mono_r_iff in Hlt; lia. }
  destruct (binary_round_aux_normal M (ex + er) loc_Exact)
    as (mp & ep & Hbra & Hmp & Hep & HF & HR); [lia | lia | lia | lia |].
  rewrite Hbra. exists mp, ep. split; [reflexivity |]. split; [lia |].
  set (n := Zdigits2 M - 53) in *.
  set (R := Z.pos mp * 2 ^ (ep - (ex + er + n))) in *.
  set (F := M / 2 ^ n) in *.
  pose proof (floor_pow_bounds M n ltac:(lia) ltac:(lia)) as Hfl. fold F in Hfl.
  assert (Hpn : 0 < 2 ^ n) by (apply Z.pow_pos_nonneg; lia).
  destruct (mul_round_arith T52 M F R (2 ^ n)) as [Hlo Hhi];
    [unfold T52; lia | lia | lia | lia | unfold T52; lia |].
  set (W := 2 ^ (ex + er + K)).
  assert (HW : 0 < W) by (apply Z.pow_pos_nonneg; lia).
  assert (Ht : Z.pos mp * 2 ^ (ep + K) = R * 2 ^ n * W).
  { unfold R, W. rewrite <- !Z.mul_assoc, <- !Z.pow_add_r by lia. do 2 f_equal. lia. }
  assert (Hs : x * (Z.pos mr * 2 ^ (er + K)) = M * W).
  { unfold M, W. rewrite HX.
    replace (er + K) with (- ex + (ex + er + K)) by lia.
    rewrite Z.pow_add_r by lia. ring. }
  rewrite Ht, Hs. split.
  - replace ((T52 - 1) * (M * W)) with ((T52 - 1) * M * W) by ring.
    replace (T52 * (R * 2 ^ n * W)) with (T52 * (R * 2 ^ n) * W) by ring.
    apply Z.mul_lt_mono_pos_r; [exact HW | exact Hlo].
  - replace ((T52 + 1) * (M * W)) with ((T52 + 1) * M * W) by ring.
    replace (T52 * (R * 2 ^ n * W)) with (T52 * (R * 2 ^ n) * W) by ring.
    apply Z.mul_le_mono_nonneg_r; [lia | exact Hhi].
Qed.

(** Truncation, on the scale [2 ^ K]. *)
Lemma to_int_scaled (m : positive) (e K : Z) :
  0 <= K -> 0 <= e + K -> Z.pos m * 2 ^ (e + K) / 2 ^ K <= Int.MaxInt ->
  to_int (S754_finite false m e) = Z.pos m * 2 ^ (e + K) / 2 ^ K.
Proof.
  intros HK HeK Hmax.
  assert (HpK : 0 < 2 ^ K) by (apply Z.pow_pos_nonneg; lia).
  assert (Hmag : (if 0 <=? e then Z.pos m * 2 ^ e else Z.pos m / 2 ^ (- e))
                 = Z.pos m * 2 ^ (e + K) / 2 ^ K).
  { destruct (Z.leb_spec 0 e).
    - rewrite Z.pow_add_r by lia. rewrite Z.mul_assoc. rewrite Z.div_mul by lia. reflexivity.
    - replace (2 ^ K) with (2 ^ (- e) * 2 ^ (e + K))
        by (rewrite <- Z.pow_add_r by lia; f_equal; lia).
      rewrite Z.div_mul_cancel_r; [reflexivity | | ].
      + pose proof (Z.pow_pos_nonneg 2 (- e)); lia.
      + pose proof (Z.pow_pos_nonneg 2 (e + K)); lia. }
  unfold to_int. rewrite Hmag.
  assert (0 <= Z.pos m * 2 ^ (e + K) / 2 ^ K).
  { apply Z.div_pos; [| lia]. pose proof (Z.pow_nonneg 2 (e + K)); lia. }
  unfold Int.MinInt, Int.MaxInt in *.
  destruct (Z.leb_spec (- 2 ^ 63) (Z.pos m * 2 ^ (e + K) / 2 ^ K));
    destruct (Z.leb_spec (Z.pos m * 2 ^ (e + K) / 2 ^ K) (2 ^ 63 - 1)); simpl; lia.
Qed.

(** Cancelling a positive factor. *)
Lemma mul_le_cancel_l (c u v : Z) : 0 < c -> c * u <= c * v -> u <= v.
Proof. intros Hc H. apply (Z.mul_le_mono_pos_l _ _ c); assumption. Qed.

Lemma mul_lt_cancel_l (c u v : Z) : 0 < c -> c * u < c * v -> u < v.
Proof. intros Hc H. apply (Z.mul_lt_mono_pos_l c); assumption. Qed.

(** Two roundings of relative size [1 / T] cannot move [x * a / b] across
    more than the integer it may sit on, as long as [2 a b <= T]. *)
Lemma sample_arith (T S a b x s t q rem : Z) :
  2 <= T -> 0 < S -> 0 < a -> 0 < b -> 1 <= x < b ->
  x * a = q * b + rem -> 0 <= rem < b -> 2 * (a * b) <= T ->
  0 <= s -> 0 <= t ->
  (T - 1) * (s * b) <= T * (a * S) ->
  T * (a * S) < (T + 1) * (s * b) ->
  (T - 1) * (x * s) < T * t ->
  T * t <= (T + 1) * (x * s) ->
  t < (q + 1) * S /\ (q - 1) * S <= t /\ (1 <= rem -> q * S <= t).
Proof.
  intros HT HS Ha Hb Hx Hq Hrem Hab Hs Ht D1 D2 M1 M2.
  assert (Hq0 : 0 <= q) by nia.
  assert (Hqa : q + 1 <= a) by nia.
  assert (Hqb : (q + 1) * b <= a * b) by (apply Z.mul_le_mono_nonneg_r; lia).
  assert (Hqb' : q * b <= a * b - b) by lia.
  (* upper side *)
  assert (U3 : t * ((T - 1) * b) <= (T + 1) * (x * a) * S).
  { apply (mul_le_cancel_l T); [lia |].
    apply Z.le_trans with ((T + 1) * (x * s) * ((T - 1) * b)).
    - replace (T * (t * ((T - 1) * b))) with (T * t * ((T - 1) * b)) by ring.
      apply Z.mul_le_mono_nonneg_r; [nia | exact M2].
    - replace ((T + 1) * (x * s) * ((T - 1) * b)) with ((T + 1) * x * ((T - 1) * (s * b))) by ring.
      replace (T * ((T + 1) * (x * a) * S)) with ((T + 1) * x * (T * (a * S))) by ring.
      apply Z.mul_le_mono_nonneg_l; [nia | exact D1]. }
  (* lower side *)
  assert (L3 : (T - 1) * (x * a) * S < (T + 1) * b * t).
  { apply (mul_lt_cancel_l T); [lia |].
    apply Z.lt_trans with ((T - 1) * x * ((T + 1) * (s * b))).
    - replace (T * ((T - 1) * (x * a) * S)) with ((T - 1) * x * (T * (a * S))) by ring.
      apply Z.mul_lt_mono_pos_l; [nia | exact D2].
    - replace ((T - 1) * x * ((T + 1) * (s * b))) with ((T + 1) * b * ((T - 1) * (x * s))) by ring.
      replace (T * ((T + 1) * b * t)) with ((T + 1) * b * (T * t)) by ring.
      apply Z.mul_lt_mono_pos_l; [nia | exact M1]. }
  repeat split.
  - destruct (Z_lt_ge_dec t ((q + 1) * S)) as [Hlt | Hge]; [exact Hlt | exfalso].
    assert (H1 : (q + 1) * S * ((T - 1) * b) <= (T + 1) * (x * a) * S).
    { apply Z.le_trans with (t * ((T - 1) * b)); [| exact U3].
      apply Z.mul_le_mono_nonneg_r; [nia | lia]. }
    assert (H2 : (q + 1) * ((T - 1) * b) <= (T + 1) * (x * a)).
    { apply (mul_le_cancel_l S); [lia |].
      replace (S * ((q + 1) * ((T - 1) * b))) with ((q + 1) * S * ((T - 1) * b)) by ring.
      replace (S * ((T + 1) * (x * a))) with ((T + 1) * (x * a) * S) by ring. exact H1. }
    rewrite Hq in H2. set (g := (q + 1) * b) in *.
    assert (H3 : (T + 1) * (q * b + rem) <= (T + 1) * (g - 1)).
    { apply Z.mul_le_mono_nonneg_l; [lia | unfold g; lia]. }
    replace ((q + 1) * ((T - 1) * b)) with (g * (T - 1)) in H2 by (unfold g; ring).
    nia.
  - destruct (Z_le_gt_dec ((q - 1) * S) t) as [Hle | Hgt]; [exact Hle | exfalso].
    assert (H1 : (T + 1) * b * t < (T + 1) * b * ((q - 1) * S)).
    { apply Z.mul_lt_mono_pos_l; [nia | lia]. }
    assert (H2 : (T - 1) * (x * a) < (T + 1) * b * (q - 1)).
    { apply (mul_lt_cancel_l S); [lia |].
      replace (S * ((T - 1) * (x * a))) with ((T - 1) * (x * a) * S) by ring.
      replace (S * ((T + 1) * b * (q - 1))) with ((T + 1) * b * ((q - 1) * S)) by ring. lia. }
    rewrite Hq in H2.
    assert (H3 : (T - 1) * (q * b) <= (T - 1) * (q * b + rem)).
    { apply Z.mul_le_mono_nonneg_l; lia. }
    set (h := q * b) in *.
    replace ((T + 1) * b * (q - 1)) with ((T + 1) * h - (T + 1) * b) in H2 by (unfold h; ring).
    assert (H4 : (T + 1) * b < 2 * h) by lia.
    assert (H5 : (T + 1) * 1 <= (T + 1) * b) by (apply Z.mul_le_mono_nonneg_l; lia).
    lia.
  - intros Hrem1.
    destruct (Z_le_gt_dec (q * S) t) as [Hle | Hgt]; [exact Hle | exfalso].
    assert (H1 : (T + 1) * b * t < (T + 1) * b * (q * S)).
    { apply Z.mul_lt_mono_pos_l; [nia | lia]. }
    assert (H2 : (T - 1) * (x * a) < (T + 1) * b * q).
    { apply (mul_lt_cancel_l S); [lia |].
      replace (S * ((T - 1) * (x * a))) with ((T - 1) * (x * a) * S) by ring.
      replace (S * ((T + 1) * b * q)) with ((T + 1) * b * (q * S)) by ring. lia. }
    rewrite Hq in H2.
    assert (H3 : (T - 1) * (q * b + 1) <= (T - 1) * (q * b + rem)).
    { apply Z.mul_le_mono_nonneg_l; lia. }
    set (h := q * b) in *.
    replace ((T + 1) * b * q) with ((T + 1) * h) in H2 by (unfold h; ring).
    lia.
Qed.


End Float64Facts.

Import Float64Bounds Float64Facts.

(** ** Loops and pixel buffers *)

Lemma for_loop_empty {St : Type} (lo hi : Z) (body : Z -> St -> St) (s : St) :
  hi <= lo -> for_loop lo hi body s = s.
Proof. intros Hle. unfold for_loop. rewrite seqZ_nil by lia. reflexivity. Qed.

Lemma for_loop_snoc {St : Type} (lo hi : Z) (body : Z -> St -> St) (s : St) :
  lo <= hi -> for_loop lo (hi + 1) body s = body hi (for_loop lo hi body s).
Proof.
  intros Hle. unfold for_loop.
  replace (hi + 1 - lo) with ((hi - lo) + 1) by lia.
  rewrite seqZ_app by lia. rewrite foldl_app. simpl.
  replace (lo + (hi - lo)) with hi by lia. reflexivity.
Qed.

(** The invariant rule of the counting loop. *)
Lemma for_loop_inv {St : Type} (P : Z -> St -> Prop) (lo hi : Z)
    (body : Z -> St -> St) (s : St) :
  lo <= hi ->
  P lo s ->
  (forall i t, lo <= i < hi -> P i t -> P (i + 1) (body i t)) ->
  P hi (for_loop lo hi body s).
Proof.
  intros Hle H0 Hstep.
  assert (Hgen : forall n : nat, lo + Z.of_nat n <= hi ->
                   P (lo + Z.of_nat n) (for_loop lo (lo + Z.of_nat n) body s)).
  { induction n as [|n IH]; intros Hn.
    - rewrite Z.add_0_r, for_loop_empty by lia. exact H0.
    - replace (lo + Z.of_nat (S n)) with ((lo + Z.of_nat n) + 1) by lia.
      rewrite for_loop_snoc by lia. apply Hstep; [lia | apply IH; lia]. }
  specialize (Hgen (Z.to_nat (hi - lo))).
  replace (lo + Z.of_nat (Z.to_nat (hi - lo))) with hi in Hgen by lia.
  apply Hgen. lia.
Qed.

Lemma length_set_byte (l : list Z) i v : length (image.set_byte l i v) = length l.
Proof. apply length_insert. Qed.

Lemma get_set_byte_eq (l : list Z) i v :
  0 <= i < Z.of_nat (length l) -> image.get_byte (image.set_byte l i v) i = v.
Proof.
  intros Hi. unfold image.get_byte, image.set_byte.
  rewrite list_lookup_insert_eq by lia. reflexivity.
Qed.

Lemma get_set_byte_ne (l : list Z) i j v :
  0 <= i -> 0 <= j -> i <> j ->
  image.get_byte (image.set_byte l i v) j = image.get_byte l j.
Proof.
  intros Hi Hj Hne. unfold image.get_byte, image.set_byte.
  rewrite list_lookup_insert_ne by lia. reflexivity.
Qed.

Lemma In_spec x y r :
  image.In (image.mkPoint x y) r = true <->
  image.X (image.Min r) <= x < image.X (image.Max r) /\
  image.Y (image.Min r) <= y < image.Y (image.Max r).
Proof.
  unfold image.In. simpl. rewrite !andb_true_iff, !Z.leb_le, !Z.ltb_lt. lia.
Qed.

Lemma PixOffset_range p x y :
  wf p -> image.In (image.mkPoint x y) (image.RGBA_Rect p) = true ->
  0 <= image.PixOffset p x y /\
  image.PixOffset p x y + 4 <= Z.of_nat (length (image.Pix p)).
Proof.
  intros (Hx & Hy & Hs & Hl) Hin. apply In_spec in Hin.
  unfold image.PixOffset. rewrite Hl, Hs. nia.
Qed.

Lemma PixOffset_apart p x y x' y' :
  wf p ->
  image.In (image.mkPoint x y) (image.RGBA_Rect p) = true ->
  image.In (image.mkPoint x' y') (image.RGBA_Rect p) = true ->
  (x, y) <> (x', y') ->
  image.PixOffset p x y + 4 <= image.PixOffset p x' y' \/
  image.PixOffset p x' y' + 4 <= image.PixOffset p x y.
Proof.
  intros (Hx & Hy & Hs & Hl) Hin Hin' Hne.
  apply In_spec in Hin. apply In_spec in Hin'.
  unfold image.PixOffset. rewrite Hs.
  destruct (Z.eq_dec y y') as [-> | Hy'].
  - assert (x <> x') by congruence. lia.
  - nia.
Qed.

Lemma SetRGBA_Rect p x y c : image.RGBA_Rect (image.SetRGBA p x y c) = image.RGBA_Rect p.
Proof. unfold image.SetRGBA. destruct (negb _); reflexivity. Qed.

Lemma SetRGBA_Stride p x y c : image.Stride (image.SetRGBA p x y c) = image.Stride p.
Proof. unfold image.SetRGBA. destruct (negb _); reflexivity. Qed.

Lemma SetRGBA_length p x y c :
  length (image.Pix (image.SetRGBA p x y c)) = length (image.Pix p).
Proof.
  unfold image.SetRGBA. destruct (negb _); [reflexivity |].
  simpl. rewrite !length_set_byte. reflexivity.
Qed.

Lemma SetRGBA_wf p x y c : wf p -> wf (image.SetRGBA p x y c).
Proof.
  unfold wf. rewrite SetRGBA_Rect, SetRGBA_Stride, SetRGBA_length. trivial.
Qed.

Lemma RGBAAt_SetRGBA p x y c x' y' :
  wf p ->
  image.RGBAAt (image.SetRGBA p x y c) x' y' =
    if image.In (image.mkPoint x y) (image.RGBA_Rect p) && (x =? x') && (y =? y')
    then c else image.RGBAAt p x' y'.
Proof.
  intros Hwf. unfold image.RGBAAt. rewrite SetRGBA_Rect.
  destruct (image.In (image.mkPoint x y) (image.RGBA_Rect p)) eqn:Hin; simpl.
  2:{ unfold image.SetRGBA. rewrite Hin. reflexivity. }
  destruct (image.In (image.mkPoint x' y') (image.RGBA_Rect p)) eqn:Hin'; simpl.
  2:{ destruct (Z.eqb_spec x x') as [-> |]; simpl; [| reflexivity].
      destruct (Z.eqb_spec y y') as [-> |]; simpl; [congruence | reflexivity]. }
  pose proof (PixOffset_range p x y Hwf Hin) as [Hlo Hhi].
  assert (Hoff : forall a b, image.PixOffset (image.SetRGBA p x y c) a b = image.PixOffset p a b).
  { intros a b. unfold image.PixOffset. rewrite SetRGBA_Rect, SetRGBA_Stride. reflexivity. }
  rewrite Hoff. unfold image.SetRGBA. rewrite Hin. simpl negb. cbv iota. simpl image.Pix.
  set (i := image.PixOffset p x y) in *.
  destruct (Z.eqb_spec x x') as [<- |Hxne]; [destruct (Z.eqb_spec y y') as [<- |Hyne] |]; simpl.
  - fold i.
    rewrite (get_set_byte_ne _ (i + 3) i), (get_set_byte_ne _ (i + 2) i),
            (get_set_byte_ne _ (i + 1) i), get_set_byte_eq by lia.
    rewrite (get_set_byte_ne _ (i + 3) (i + 1)), (get_set_byte_ne _ (i + 2) (i + 1)),
            get_set_byte_eq by (rewrite ?length_set_byte; lia).
    rewrite (get_set_byte_ne _ (i + 3) (i + 2)), get_set_byte_eq
      by (rewrite ?length_set_byte; lia).
    rewrite get_set_byte_eq by (rewrite ?length_set_byte; lia).
    destruct c; reflexivity.
  - pose proof (PixOffset_range p x y' Hwf Hin') as [Hlo' Hhi'].
    pose proof (PixOffset_apart p x y x y' Hwf Hin Hin' ltac:(congruence)) as Hap.
    fold i in Hap. set (j := image.PixOffset p x y') in *.
    rewrite !get_set_byte_ne by lia. reflexivity.
  - pose proof (PixOffset_range p x' y' Hwf Hin') as [Hlo' Hhi'].
    pose proof (PixOffset_apart p x y x' y' Hwf Hin Hin' ltac:(congruence)) as Hap.
    fold i in Hap. set (j := image.PixOffset p x' y') in *.
    rewrite !get_set_byte_ne by lia. reflexivity.
Qed.

(** Case analysis on every integer comparison of the goal. *)
Ltac cmp_cases :=
  repeat match goal with
         | |- context [?a <=? ?b] => destruct (Z.leb_spec a b)
         | |- context [?a <? ?b] => destruct (Z.ltb_spec a b)
         | |- context [?a =? ?b] => destruct (Z.eqb_spec a b)
         end;
  simpl; rewrite ?andb_true_r, ?andb_false_r; simpl; try reflexivity; try lia.

Lemma fill_row (body : Z -> image.RGBA -> image.RGBA) (g : Z -> color.RGBA)
    (y x0 x1 : Z) (dst : image.RGBA) :
  (forall x d, body x d = image.SetRGBA d x y (g x)) ->
  wf dst ->
  wf (for_loop x0 x1 body dst) /\
  image.RGBA_Rect (for_loop x0 x1 body dst) = image.RGBA_Rect dst /\
  forall x' y',
    image.RGBAAt (for_loop x0 x1 body dst) x' y' =
      if image.In (image.mkPoint x' y') (image.RGBA_Rect dst)
         && (y' =? y) && (x0 <=? x') && (x' <? x1)
      then g x' else image.RGBAAt dst x' y'.
Proof.
  intros Hbody Hwf.
  destruct (Z_le_gt_dec x0 x1) as [Hle | Hgt].
  2:{ rewrite for_loop_empty by lia. split; [exact Hwf | split; [reflexivity |]].
      intros x' y'. destruct (image.In _ _), (y' =? y); simpl; cmp_cases. }
  apply (for_loop_inv
           (fun i d =>
              wf d /\ image.RGBA_Rect d = image.RGBA_Rect dst /\
              forall x' y',
                image.RGBAAt d x' y' =
                  if image.In (image.mkPoint x' y') (image.RGBA_Rect dst)
                     && (y' =? y) && (x0 <=? x') && (x' <? i)
                  then g x' else image.RGBAAt dst x' y')); [exact Hle | |].
  - split; [exact Hwf | split; [reflexivity |]].
    intros x' y'. destruct (image.In _ _), (y' =? y); simpl; cmp_cases.
  - intros i d Hi (Hwfd & Hrect & Hpix). rewrite Hbody.
    split; [apply SetRGBA_wf; exact Hwfd |].
    split; [rewrite SetRGBA_Rect; exact Hrect |].
    intros x' y'. rewrite RGBAAt_SetRGBA by exact Hwfd. rewrite Hrect, Hpix.
    destruct (image.In (image.mkPoint x' y') (image.RGBA_Rect dst)) eqn:Hin'.
    + destruct (Z.eqb_spec i x') as [-> | Hne].
      * destruct (Z.eqb_spec y y') as [-> | Hne'].
        -- rewrite Hin'. simpl. cmp_cases.
        -- rewrite andb_false_r. simpl. cmp_cases.
      * rewrite andb_false_r. simpl. cmp_cases.
    + destruct (Z.eqb_spec i x') as [-> | Hne].
      * destruct (Z.eqb_spec y y') as [-> | Hne'].
        -- rewrite Hin'. reflexivity.
        -- rewrite andb_false_r. reflexivity.
      * rewrite andb_false_r. reflexivity.
Qed.

Lemma fill_rect (body : Z -> Z -> image.RGBA -> image.RGBA) (f : Z -> Z -> color.RGBA)
    (x0 x1 y0 y1 : Z) (dst : image.RGBA) :
  (forall x y d, body x y d = image.SetRGBA d x y (f x y)) ->
  wf dst ->
  let d' := for_loop y0 y1 (fun y d => for_loop x0 x1 (fun x d => body x y d) d) dst in
  wf d' /\
  image.RGBA_Rect d' = image.RGBA_Rect dst /\
  forall x y,
    image.RGBAAt d' x y =
      if image.In (image.mkPoint x y) (image.RGBA_Rect dst)
         && (x0 <=? x) && (x <? x1) && (y0 <=? y) && (y <? y1)
      then f x y else image.RGBAAt dst x y.
Proof.
  intros Hbody Hwf d'. subst d'.
  destruct (Z_le_gt_dec y0 y1) as [Hle | Hgt].
  2:{ rewrite for_loop_empty by lia. split; [exact Hwf | split; [reflexivity |]].
      intros x y. destruct (image.In _ _); simpl; cmp_cases. }
  apply (for_loop_inv
           (fun j d =>
              wf d /\ image.RGBA_Rect d = image.RGBA_Rect dst /\
              forall x y,
                image.RGBAAt d x y =
                  if image.In (image.mkPoint x y) (image.RGBA_Rect dst)
                     && (x0 <=? x) && (x <? x1) && (y0 <=? y) && (y <? j)
                  then f x y else image.RGBAAt dst x y)); [exact Hle | |].
  - split; [exact Hwf | split; [reflexivity |]].
    intros x y. destruct (image.In _ _); simpl; cmp_cases.
  - intros j d Hj (Hwfd & Hrect & Hpix).
    destruct (fill_row (fun x d => body x j d) (fun x => f x j) j x0 x1 d)
      as (Hwf' & Hrect' & Hpix'); [intros; apply Hbody | exact Hwfd |].
    split; [exact Hwf' |]. split; [congruence |].
    intros x y. rewrite Hpix', Hrect, Hpix.
    destruct (image.In (image.mkPoint x y) (image.RGBA_Rect dst)); simpl; [| reflexivity].
    destruct (Z.eqb_spec y j) as [-> | Hne]; simpl; cmp_cases.
Qed.


(** ** [resizeImage] *)

Lemma wrap_small (z : Z) : is_int z -> Int.wrap 64 z = z.
Proof.
  unfold is_int, Int.MinInt, Int.MaxInt, Int.wrap. intros Hz.
  change (64 - 1) with 63. rewrite Z.mod_small; [lia |].
  change (2 ^ 64) with (2 * 2 ^ 63). lia.
Qed.

Lemma int_add_small a b : is_int (a + b) -> Int.add a b = a + b.
Proof. apply wrap_small. Qed.

Lemma int_sub_small a b : is_int (a - b) -> Int.sub a b = a - b.
Proof. apply wrap_small. Qed.

(** Sides of bitmaps and of targets are far below [2 ^ 53]. *)
Lemma Bitmap_sides (src : image.Image) :
  Bitmap src -> 1 <= width src <= 2 ^ 48 /\ 1 <= height src <= 2 ^ 48.
Proof.
  intros (_ & _ & _ & _ & Hw & Hh & Ha). unfold image.maxAlloc in Ha. nia.
Qed.

Lemma Target_sides (W H : Z) : Target W H -> 1 <= W <= 2 ^ 46 /\ 1 <= H <= 2 ^ 46.
Proof.
  intros (HW & HH & Ha). unfold image.maxAlloc in Ha.
  change (2 ^ 48) with (4 * 2 ^ 46) in Ha. nia.
Qed.

(** The product [float64(x) * ratio] stays within three times the
    source length. *)
Lemma sample_upper (T S a b x s t : Z) :
  2 <= T -> 0 < S -> 0 < a -> 0 < b -> 0 <= x <= b -> 0 <= s -> 0 <= t ->
  (T - 1) * (s * b) <= T * (a * S) ->
  T * t <= (T + 1) * (x * s) ->
  t <= 3 * (a * S).
Proof.
  intros HT HS Ha Hb Hx Hs Ht D M.
  assert (E1 : T * t * ((T - 1) * b) <= (T + 1) * (x * s) * ((T - 1) * b))
    by (apply Z.mul_le_mono_nonneg_r; [clear -HT Hb; nia | exact M]).
  assert (E2 : x * ((T - 1) * (s * b)) <= x * (T * (a * S)))
    by (apply Z.mul_le_mono_nonneg_l; [lia | exact D]).
  assert (E3 : x * (T * (a * S)) <= b * (T * (a * S))).
  { apply Z.mul_le_mono_nonneg_r; [| lia]. clear -HT HS Ha. nia. }
  assert (E4 : (T * b) * (t * (T - 1)) <= (T * b) * ((T + 1) * (a * S))).
  { replace ((T * b) * (t * (T - 1))) with (T * t * ((T - 1) * b)) by ring.
    replace ((T * b) * ((T + 1) * (a * S))) with ((T + 1) * (b * (T * (a * S)))) by ring.
    eapply Z.le_trans; [exact E1 |].
    replace ((T + 1) * (x * s) * ((T - 1) * b)) with ((T + 1) * (x * ((T - 1) * (s * b)))) by ring.
    apply Z.mul_le_mono_nonneg_l; [lia |]. lia. }
  apply Z.mul_le_mono_pos_l in E4; [| clear -HT Hb; nia].
  assert (E5 : (T + 1) * (a * S) <= 3 * (T - 1) * (a * S)).
  { apply Z.mul_le_mono_nonneg_r; [clear -HS Ha; nia | lia]. }
  assert (E6 : (T - 1) * t <= (T - 1) * (3 * (a * S))).
  { replace ((T - 1) * (3 * (a * S))) with (3 * (T - 1) * (a * S)) by ring.
    rewrite (Z.mul_comm (T - 1) t). lia. }
  apply Z.mul_le_mono_pos_l in E6; lia.
Qed.

(** The sampled coordinate lies inside the source, for all lengths
    below [2 ^ 53]. *)
Lemma sampleCoord_range (i srcLen len : Z) :
  0 <= i < len -> 1 <= srcLen < 2 ^ 53 -> len < 2 ^ 53 ->
  0 <= sampleCoord i srcLen len <= srcLen - 1.
Proof.
  intros Hi Hs Hl. unfold sampleCoord, clampCoord.
  assert (H53 : 3 * 2 ^ 53 < 2 ^ 63 - 1) by reflexivity.
  assert (Hint : is_int (srcLen - 1)) by (unfold is_int, Int.MinInt, Int.MaxInt; lia).
  destruct (div_of_int_bounds srcLen len 160 ltac:(lia) ltac:(lia) ltac:(lia))
    as (mr & er & Hdiv & Hmr & Her & D1 & _).
  rewrite Hdiv.
  assert (Hto : 0 <= Float64.to_int
                       (Float64.mul (Float64.of_int i) (S754_finite false mr er))
                <= 3 * srcLen).
  { destruct (Z.eq_dec i 0) as [-> | Hi0].
    - change (Float64.to_int (Float64.mul (Float64.of_int 0) (S754_finite false mr er)))
        with 0. lia.
    - destruct (mul_of_int_bounds i 160 mr er ltac:(lia) Hmr Her ltac:(lia))
        as (mp & ep & Hmul & Hep & _ & M2).
      rewrite Hmul.
      set (s := Z.pos mr * 2 ^ (er + 160)) in *.
      set (t := Z.pos mp * 2 ^ (ep + 160)) in *.
      set (S := 2 ^ 160) in *.
      assert (HS : 0 < S) by reflexivity.
      assert (Hs0 : 0 <= s).
      { unfold s. pose proof (Z.pow_nonneg 2 (er + 160)); lia. }
      assert (Ht0 : 0 <= t).
      { unfold t. pose proof (Z.pow_nonneg 2 (ep + 160)); lia. }
      assert (Hup : t <= 3 * (srcLen * S)).
      { apply (sample_upper T52 S srcLen len i s t); try assumption; try lia.
        unfold T52; lia. }
      assert (Hq : 0 <= t / S <= 3 * srcLen).
      { split; [apply Z.div_pos; lia |].
        apply Z.div_le_upper_bound; [exact HS |].
        replace (S * (3 * srcLen)) with (3 * (srcLen * S)) by ring. exact Hup. }
      rewrite (to_int_scaled mp ep 160); [exact Hq | lia | lia |].
      fold t S. unfold Int.MaxInt. lia. }
  destruct (Z.leb_spec srcLen (Float64.to_int
     (Float64.mul (Float64.of_int i) (S754_finite false mr er)))).
  - rewrite int_sub_small by exact Hint. lia.
  - lia.
Qed.

Lemma resizePixel_eq src srcWidth srcHeight xRatio yRatio x y dst :
  resizePixel src srcWidth srcHeight xRatio yRatio x y dst =
  image.SetRGBA dst x y
    (color.quantize
       (image.At src
          (Int.add (image.X (image.Min (image.Bounds src))) (clampCoord xRatio srcWidth x))
          (Int.add (image.Y (image.Min (image.Bounds src))) (clampCoord yRatio srcHeight y)))).
Proof.
  unfold resizePixel, clampCoord, color.quantize.
  destruct (color.rgba _) as [[[r g] b] a]. reflexivity.
Qed.

Lemma to_uint8_byte (v : Z) : byte (Int.to_uint8 v).
Proof.
  unfold byte, Int.to_uint8. change 255 with (Z.ones 8) at 1 2.
  rewrite Z.land_ones by lia. pose proof (Z.mod_pos_bound v (2 ^ 8) ltac:(lia)).
  change (2 ^ 8) with 256 in *. lia.
Qed.

Lemma quantize_RGBA8 (c : color.Color) : RGBA8 (color.quantize c).
Proof.
  unfold color.quantize. destruct (color.rgba c) as [[[r g] b] a].
  repeat split; apply to_uint8_byte.
Qed.

Lemma NewRGBA_Rect (W H : Z) :
  0 <= W <= 2 ^ 46 -> 0 <= H <= 2 ^ 46 -> 4 * W * H <= image.maxAlloc ->
  exists p, image.NewRGBA (image.Rect 0 0 W H) = Some p /\
            wf p /\
            image.RGBA_Rect p = image.mkRectangle (image.mkPoint 0 0) (image.mkPoint W H) /\
            image.Stride p = 4 * W /\
            Z.of_nat (length (image.Pix p)) = 4 * W * H /\
            forall x y, image.RGBAAt p x y = blank.
Proof.
  intros HW HH Ha.
  assert (H46 : 2 ^ 46 < 2 ^ 63 - 1) by reflexivity.
  assert (H48 : image.maxAlloc < 2 ^ 63 - 1) by reflexivity.
  assert (HWH : 0 <= 4 * W * H) by nia.
  unfold image.NewRGBA, image.Rect.
  destruct (Z.ltb_spec W 0); [lia |]. destruct (Z.ltb_spec H 0); [lia |].
  unfold image.Dx, image.Dy. simpl.
  rewrite !int_sub_small by (unfold is_int, Int.MinInt, Int.MaxInt; lia).
  rewrite !Z.sub_0_r.
  destruct (Z.leb_spec 0 W); [| lia]. destruct (Z.leb_spec 0 H); [| lia].
  destruct (Z.leb_spec (4 * W * H) Int.MaxInt) as [_ | Hbad];
    [| unfold Int.MaxInt in Hbad; lia].
  destruct (Z.leb_spec (4 * W * H) image.maxAlloc) as [_ | Hbad]; [| lia].
  simpl. eexists. split; [reflexivity |].
  unfold wf. simpl. rewrite length_replicate, !Z.sub_0_r.
  repeat split; try lia.
  intros x y. unfold image.RGBAAt. destruct (negb _); [reflexivity |].
  cbn [image.Pix]. unfold image.get_byte.
  assert (Hz : forall i, default 0 (replicate (Z.to_nat (4 * W * H)) 0 !! i) = 0).
  { intros i. destruct (replicate _ _ !! i) as [v|] eqn:Hv; [| reflexivity].
    apply lookup_replicate in Hv as [-> _]. reflexivity. }
  rewrite !Hz. reflexivity.
Qed.

Lemma resizeImage_pixels (src : image.Image) (W H : Z) :
  Bitmap src -> Target W H ->
  exists dst,
    resizeImage src W H = Some dst /\
    wf dst /\
    image.RGBA_Rect dst = image.mkRectangle (image.mkPoint 0 0) (image.mkPoint W H) /\
    forall x y, 0 <= x < W -> 0 <= y < H ->
      image.RGBAAt dst x y =
        color.quantize
          (image.At src
             (image.X (image.Min (image.Bounds src)) + sampleCoord x (width src) W)
             (image.Y (image.Min (image.Bounds src)) + sampleCoord y (height src) H)).
Proof.
  intros Hsrc HT.
  destruct (Bitmap_sides src Hsrc) as (Hw & Hh).
  destruct (Target_sides W H HT) as (HW & HH).
  destruct Hsrc as (Hx0 & Hy0 & Hx1 & Hy1 & _).
  assert (H48 : 2 ^ 48 < 2 ^ 53) by reflexivity.
  assert (H46 : 2 ^ 46 < 2 ^ 53) by reflexivity.
  assert (H63 : 2 ^ 48 < 2 ^ 63 - 1) by reflexivity.
  assert (Hwi : is_int (width src)) by (unfold is_int, Int.MinInt, Int.MaxInt; lia).
  assert (Hhi : is_int (height src)) by (unfold is_int, Int.MinInt, Int.MaxInt; lia).
  destruct (NewRGBA_Rect W H) as (p & Hnew & Hwf & Hrect & Hstride & Hlen & _);
    [lia | lia | apply HT |].
  unfold resizeImage. rewrite Hnew. cbn [mbind option_bind].
  rewrite !int_sub_small by assumption. fold (width src) (height src).
  eexists. split; [reflexivity |].
  unfold sampleCoord.
  pose proof (fill_rect
                (fun x y d => resizePixel src (width src) (height src)
                                (Float64.div (Float64.of_int (width src)) (Float64.of_int W))
                                (Float64.div (Float64.of_int (height src)) (Float64.of_int H))
                                x y d)
                (fun x y => color.quantize
                   (image.At src
                      (Int.add (image.X (image.Min (image.Bounds src)))
                         (clampCoord (Float64.div (Float64.of_int (width src)) (Float64.of_int W))
                            (width src) x))
                      (Int.add (image.Y (image.Min (image.Bounds src)))
                         (clampCoord (Float64.div (Float64.of_int (height src)) (Float64.of_int H))
                            (height src) y))))
                0 W 0 H p) as Hfill.
  cbv zeta in Hfill.
  destruct Hfill as (Hwf' & Hrect' & Hpix); [intros; apply resizePixel_eq | exact Hwf |].
  split; [exact Hwf' |]. split; [congruence |].
  intros x y Hx Hy. rewrite Hpix, Hrect.
  assert (Hin : image.In (image.mkPoint x y)
                  (image.mkRectangle (image.mkPoint 0 0) (image.mkPoint W H)) = true).
  { apply In_spec. simpl. lia. }
  rewrite Hin.
  destruct (Z.leb_spec 0 x); [| lia]. destruct (Z.ltb_spec x W); [| lia].
  destruct (Z.leb_spec 0 y); [| lia]. destruct (Z.ltb_spec y H); [| lia].
  simpl.
  pose proof (sampleCoord_range x (width src) W Hx ltac:(lia) ltac:(lia)).
  pose proof (sampleCoord_range y (height src) H Hy ltac:(lia) ltac:(lia)).
  unfold sampleCoord in *.
  unfold width, height, is_int in *.
  rewrite !int_add_small by (unfold is_int; lia). reflexivity.
Qed.

(** Whatever the source, the result is a well-formed [W x H] image of bytes. *)
Lemma resizeImage_wf (src : image.Image) (W H : Z) :
  Target W H ->
  exists dst,
    resizeImage src W H = Some dst /\
    wf dst /\
    image.RGBA_Rect dst = image.mkRectangle (image.mkPoint 0 0) (image.mkPoint W H) /\
    forall x y, RGBA8 (image.RGBAAt dst x y).
Proof.
  intros HT. destruct (Target_sides W H HT) as (HW & HH).
  destruct (NewRGBA_Rect W H) as (p & Hnew & Hwf & Hrect & Hstride & Hlen & Hblank);
    [lia | lia | apply HT |].
  unfold resizeImage. rewrite Hnew. cbn [mbind option_bind].
  eexists. split; [reflexivity |].
  match goal with
  | |- context [for_loop 0 H (fun y dst => for_loop 0 W (fun x dst0 => @?body x y dst0) dst) p] =>
      pose proof (fill_rect body
        (fun x y => color.quantize
           (image.At src
              (Int.add (image.X (image.Min (image.Bounds src)))
                 (clampCoord (Float64.div (Float64.of_int
                     (Int.sub (image.X (image.Max (image.Bounds src)))
                              (image.X (image.Min (image.Bounds src)))))
                     (Float64.of_int W))
                    (Int.sub (image.X (image.Max (image.Bounds src)))
                             (image.X (image.Min (image.Bounds src)))) x))
              (Int.add (image.Y (image.Min (image.Bounds src)))
                 (clampCoord (Float64.div (Float64.of_int
                     (Int.sub (image.Y (image.Max (image.Bounds src)))
                              (image.Y (image.Min (image.Bounds src)))))
                     (Float64.of_int H))
                    (Int.sub (image.Y (image.Max (image.Bounds src)))
                             (image.Y (image.Min (image.Bounds src)))) y))))
        0 W 0 H p) as Hfill
  end.
  cbv zeta beta in Hfill.
  destruct Hfill as (Hwf' & Hrect' & Hpix); [intros; apply resizePixel_eq | exact Hwf |].
  split; [exact Hwf' |]. split; [congruence |].
  intros x y. rewrite Hpix.
  destruct (_ && _); [apply quantize_RGBA8 |].
  rewrite Hblank. unfold RGBA8, byte, blank. simpl. lia.
Qed.

(** The sampled coordinate against the exact quotient: never above
    [floor(x * a / b)], at most one below, and equal to it whenever
    [b] does not divide [x * a]. *)
Lemma sampleCoord_floor (x a b : Z) :
  1 <= a -> 1 <= b -> a * b <= 2 ^ 51 -> 0 <= x < b ->
  x * a / b - 1 <= sampleCoord x a b <= x * a / b /\
  ((x * a) mod b <> 0 -> sampleCoord x a b = x * a / b).
Proof.
  intros Ha Hb Hab Hx.
  assert (H51 : 2 ^ 51 < 2 ^ 53) by reflexivity.
  assert (Ha53 : 0 < a < 2 ^ 53) by nia.
  assert (Hb53 : 0 < b < 2 ^ 53) by nia.
  destruct (div_of_int_bounds a b 160 Ha53 Hb53 ltac:(lia))
    as (mr & er & Hdiv & Hmr & Her & D1 & D2).
  unfold sampleCoord, clampCoord. rewrite Hdiv.
  destruct (Z.eq_dec x 0) as [-> | Hx0].
  - simpl Z.mul. rewrite Z.div_0_l, Z.mod_0_l by lia.
    change (Float64.to_int (Float64.mul (Float64.of_int 0) (S754_finite false mr er))) with 0.
    destruct (Z.leb_spec a 0); [lia |]. split; [lia | intros Hc; congruence].
  - destruct (mul_of_int_bounds x 160 mr er ltac:(lia) Hmr Her ltac:(lia))
      as (mp & ep & Hmul & Hep & M1 & M2).
    rewrite Hmul.
    set (s := Z.pos mr * 2 ^ (er + 160)) in *.
    set (t := Z.pos mp * 2 ^ (ep + 160)) in *.
    set (S := 2 ^ 160) in *.
    assert (HS : 0 < S) by reflexivity.
    pose proof (Z.div_mod (x * a) b ltac:(lia)) as Hdm.
    pose proof (Z.mod_pos_bound (x * a) b ltac:(lia)) as Hrem.
    set (q := x * a / b) in *. set (rem := (x * a) mod b) in *.
    assert (Hs0 : 0 <= s).
    { unfold s. pose proof (Z.pow_nonneg 2 (er + 160)); lia. }
    assert (Ht0 : 0 <= t).
    { unfold t. pose proof (Z.pow_nonneg 2 (ep + 160)); lia. }
    assert (G1 : 2 <= T52) by (unfold T52; lia).
    assert (G2 : 2 * (a * b) <= T52) by (unfold T52; change (2 ^ 52) with (2 * 2 ^ 51); lia).
    assert (G3 : x * a = q * b + rem) by lia.
    destruct (sample_arith T52 S a b x s t q rem) as (Hup & Hlo & Hne);
      [exact G1 | exact HS | lia | lia | lia | exact G3 | exact Hrem
      | exact G2
      | exact Hs0 | exact Ht0 | exact D1 | exact D2 | exact M1 | exact M2 |].
    assert (Hq0 : 0 <= q) by (apply Z.div_pos; [clear -Hx Ha; nia | lia]).
    assert (Hqa : q < a).
    { apply Z.div_lt_upper_bound; [lia |]. clear -Hx Ha Hb. nia. }
    assert (Htq : q - 1 <= t / S <= q).
    { split.
      - apply Z.div_le_lower_bound; [exact HS |]. rewrite Z.mul_comm. exact Hlo.
      - assert (t / S < q + 1); [| lia].
        apply Z.div_lt_upper_bound; [exact HS |]. rewrite Z.mul_comm. exact Hup. }
    assert (Hto : Float64.to_int (S754_finite false mp ep) = t / S).
    { apply to_int_scaled; [lia | lia |]. fold t S.
      unfold Int.MaxInt. assert (2 ^ 53 < 2 ^ 63 - 1) by reflexivity. lia. }
    rewrite Hto.
    destruct (Z.leb_spec a (t / S)); [lia |].
    split; [exact Htq |].
    intros Hrem0. assert (q <= t / S); [| lia].
    apply Z.div_le_lower_bound; [exact HS |]. rewrite Z.mul_comm. apply Hne. lia.
Qed.

Lemma claimedCoord_floor (x a b : Z) :
  1 <= a -> 1 <= b -> 0 <= x < b -> claimedCoord x a b = x * a / b.
Proof.
  intros Ha Hb Hx. unfold claimedCoord.
  assert (0 <= x * a / b) by (apply Z.div_pos; nia).
  assert (x * a / b < a) by (apply Z.div_lt_upper_bound; nia).
  lia.
Qed.

Lemma widen_narrow (v : Z) :
  byte v -> Int.to_uint8 (Z.shiftr (Z.lor v (Z.shiftl v 8)) 8) = v.
Proof.
  intros Hv.
  assert (Hall : forallb (fun v => Int.to_uint8 (Z.shiftr (Z.lor v (Z.shiftl v 8)) 8) =? v)
                   (seqZ 0 256) = true) by (vm_compute; reflexivity).
  rewrite forallb_forall in Hall.
  apply Z.eqb_eq, Hall, list_elem_of_In, elem_of_seqZ. unfold byte in Hv. lia.
Qed.

Lemma quantize_RGBA (c : color.RGBA) : RGBA8 c -> color.quantize (color.OfRGBA c) = c.
Proof.
  intros (Hr & Hg & Hb & Ha). destruct c as [r g b a]. simpl in *.
  unfold color.quantize. simpl. rewrite !widen_narrow by assumption. reflexivity.
Qed.

(** A target whose buffer is more than [make] accepts: the panic of
    [image.NewRGBA]. *)
Lemma resizeImage_too_large (src : image.Image) (W H : Z) :
  1 <= W <= Int.MaxInt -> 1 <= H <= Int.MaxInt ->
  image.maxAlloc < 4 * W * H -> resizeImage src W H = None.
Proof.
  intros HW HH Hbig. unfold resizeImage, image.NewRGBA, image.Rect.
  destruct (Z.ltb_spec W 0); [lia |]. destruct (Z.ltb_spec H 0); [lia |].
  unfold image.Dx, image.Dy. cbn [image.X image.Y image.Max image.Min].
  rewrite (int_sub_small W 0), (int_sub_small H 0)
    by (unfold is_int, Int.MinInt, Int.MaxInt in *; lia).
  rewrite !Z.sub_0_r.
  destruct (Z.leb_spec (4 * W * H) image.maxAlloc); [lia |].
  rewrite andb_false_r. reflexivity.
Qed.

(** C1 (amended).  For every source bitmap and every target width [W]
    and height [H] of at least 1 ([int]s, as the parameters are): when
    the buffer of [4 * W * H] bytes is more than [make] accepts
    ([maxAlloc], [2 ^ 48] bytes), [resizeImage] panics; otherwise it
    returns a bitmap of exactly [W x H] pixels, and its pixel at
    [(x, y)] is the 8-bit quantisation of the source pixel at
    [(sx, sy)], where [sx] is
    [int(float64(x) * (float64(srcW) / float64(W)))] computed in
    binary64 and lowered to [srcW - 1] when it reaches [srcW], and [sy]
    likewise; both lie inside the source.  When [srcW * W <= 2 ^ 51],
    [sx] is [floor(x * srcW / W)] or one less, and it is
    [floor(x * srcW / W)] whenever [W] does not divide [x * srcW];
    likewise for [sy]. *)
Theorem resizeImage_float_sampling (src : image.Image) (W H : Z) :
  Bitmap src -> 1 <= W <= Int.MaxInt -> 1 <= H <= Int.MaxInt ->
  (image.maxAlloc < 4 * W * H -> resizeImage src W H = None) /\
  (4 * W * H <= image.maxAlloc ->
   exists dst,
     resizeImage src W H = Some dst /\
     image.RGBA_Rect dst = image.mkRectangle (image.mkPoint 0 0) (image.mkPoint W H) /\
     image.Stride dst = 4 * W /\
     Z.of_nat (length (image.Pix dst)) = 4 * W * H /\
     forall x y, 0 <= x < W -> 0 <= y < H ->
       let sx := sampleCoord x (width src) W in
       let sy := sampleCoord y (height src) H in
       0 <= sx <= width src - 1 /\
       0 <= sy <= height src - 1 /\
       image.RGBAAt dst x y =
         color.quantize
           (image.At src (image.X (image.Min (image.Bounds src)) + sx)
                         (image.Y (image.Min (image.Bounds src)) + sy)) /\
       (width src * W <= 2 ^ 51 ->
        claimedCoord x (width src) W - 1 <= sx <= claimedCoord x (width src) W /\
        ((x * width src) mod W <> 0 -> sx = claimedCoord x (width src) W)) /\
       (height src * H <= 2 ^ 51 ->
        claimedCoord y (height src) H - 1 <= sy <= claimedCoord y (height src) H /\
        ((y * height src) mod H <> 0 -> sy = claimedCoord y (height src) H))).
Proof.
  intros Hsrc HW HH. split; [apply resizeImage_too_large; assumption |].
  intros Hfit.
  assert (HT : Target W H) by (unfold Target; lia).
  destruct (resizeImage_pixels src W H Hsrc HT) as (dst & Hres & Hwf & Hrect & Hpix).
  exists dst. split; [exact Hres |]. split; [exact Hrect |].
  destruct Hwf as (_ & _ & Hs & Hl). rewrite Hrect in Hs, Hl. simpl in Hs, Hl.
  split; [lia |]. split; [lia |].
  destruct (Bitmap_sides src Hsrc) as (Hw & Hh).
  destruct (Target_sides W H HT) as (HW' & HH').
  assert (H48 : 2 ^ 48 < 2 ^ 53) by reflexivity.
  assert (H46 : 2 ^ 46 < 2 ^ 53) by reflexivity.
  intros x y Hx Hy sx sy.
  split; [apply sampleCoord_range; lia |].
  split; [apply sampleCoord_range; lia |].
  split; [apply Hpix; assumption |].
  split.
  - intros Hsmall. rewrite claimedCoord_floor by lia.
    apply sampleCoord_floor; lia.
  - intros Hsmall. rewrite claimedCoord_floor by lia.
    apply sampleCoord_floor; lia.
Qed.

(** What the 8-bit conversion makes of a [color.NRGBA] pixel that is
    opaque, and of one that is fully transparent. *)
Lemma quantize_NRGBA_opaque (r g b : Z) :
  byte r -> byte g -> byte b ->
  color.quantize (color.OfNRGBA r g b 255) = color.mkRGBA r g b 255.
Proof.
  intros Hr Hg Hb. unfold color.quantize, color.rgba.
  rewrite !Z.div_mul by lia.
  rewrite !widen_narrow by (assumption || (unfold byte; lia)). reflexivity.
Qed.

Lemma quantize_NRGBA_clear (r g b : Z) :
  color.quantize (color.OfNRGBA r g b 0) = blank.
Proof. unfold color.quantize, color.rgba. rewrite !Z.mul_0_r. reflexivity. Qed.

(** C6 (amended).  For every source bitmap and every target width [W]
    and height [H] of at least 1: when the buffer of [4 * W * H] bytes
    is more than [make] accepts, [resizeImage] panics; otherwise every
    pixel of its output is the 8-bit form of one pixel inside the
    source, namely the high byte of each of the alpha-premultiplied
    16-bit channels that the pixel's [RGBA()] reports: no two source
    pixels are ever combined.  Its four bytes are those of the source
    pixel when that is a [color.RGBA], and when it is a [color.NRGBA] of
    alpha 255. *)
Theorem resizeImage_copies_source_pixels (src : image.Image) (W H : Z) :
  Bitmap src -> 1 <= W <= Int.MaxInt -> 1 <= H <= Int.MaxInt ->
  (image.maxAlloc < 4 * W * H -> resizeImage src W H = None) /\
  (4 * W * H <= image.maxAlloc ->
   exists dst,
     resizeImage src W H = Some dst /\
     forall x y, 0 <= x < W -> 0 <= y < H ->
       exists u v,
         image.In (image.mkPoint u v) (image.Bounds src) = true /\
         image.RGBAAt dst x y = color.quantize (image.At src u v) /\
         (forall c, image.At src u v = color.OfRGBA c -> RGBA8 c ->
                    image.RGBAAt dst x y = c) /\
         (forall r g b, image.At src u v = color.OfNRGBA r g b 255 ->
                        byte r -> byte g -> byte b ->
                        image.RGBAAt dst x y = color.mkRGBA r g b 255)).
Proof.
  intros Hsrc HW1 HH1. split; [apply resizeImage_too_large; assumption |].
  intros Hfit.
  assert (HT : Target W H) by (unfold Target; lia).
  destruct (resizeImage_pixels src W H Hsrc HT) as (dst & Hres & _ & _ & Hpix).
  exists dst. split; [exact Hres |].
  intros x y Hx Hy.
  destruct (Bitmap_sides src Hsrc) as (Hw & Hh).
  destruct (Target_sides W H HT) as (HW & HH).
  assert (H48 : 2 ^ 48 < 2 ^ 53) by reflexivity.
  assert (H46 : 2 ^ 46 < 2 ^ 53) by reflexivity.
  pose proof (sampleCoord_range x (width src) W Hx ltac:(lia) ltac:(lia)) as Hsx.
  pose proof (sampleCoord_range y (height src) H Hy ltac:(lia) ltac:(lia)) as Hsy.
  exists (image.X (image.Min (image.Bounds src)) + sampleCoord x (width src) W),
         (image.Y (image.Min (image.Bounds src)) + sampleCoord y (height src) H).
  split; [apply In_spec; unfold width, height in *; lia |].
  split; [apply Hpix; assumption |].
  split.
  - intros c Hc Hbytes. rewrite Hpix, Hc by assumption. apply quantize_RGBA, Hbytes.
  - intros r g b Hc Hr Hg Hb. rewrite Hpix, Hc by assumption.
    apply quantize_NRGBA_opaque; assumption.
Qed.

(** C9 (amended).  For every [1 x 1] source bitmap and every target
    width [W] and height [H] of at least 1: when the buffer of
    [4 * W * H] bytes is more than [make] accepts, [resizeImage]
    panics; otherwise it returns a [W x H] bitmap all of whose pixels
    are the 8-bit form of the single source pixel. *)
Theorem resizeImage_single_pixel_source (src : image.Image) (W H : Z) :
  Bitmap src -> width src = 1 -> height src = 1 ->
  1 <= W <= Int.MaxInt -> 1 <= H <= Int.MaxInt ->
  (image.maxAlloc < 4 * W * H -> resizeImage src W H = None) /\
  (4 * W * H <= image.maxAlloc ->
   exists dst,
     resizeImage src W H = Some dst /\
     image.RGBA_Rect dst = image.mkRectangle (image.mkPoint 0 0) (image.mkPoint W H) /\
     Z.of_nat (length (image.Pix dst)) = 4 * W * H /\
     forall x y, 0 <= x < W -> 0 <= y < H ->
       image.RGBAAt dst x y =
         color.quantize (image.At src (image.X (image.Min (image.Bounds src)))
                                      (image.Y (image.Min (image.Bounds src))))).
Proof.
  intros Hsrc Hw1 Hh1 HW1 HH1. split; [apply resizeImage_too_large; assumption |].
  intros Hfit.
  assert (HT : Target W H) by (unfold Target; lia).
  destruct (resizeImage_pixels src W H Hsrc HT) as (dst & Hres & Hwf & Hrect & Hpix).
  exists dst. split; [exact Hres |]. split; [exact Hrect |].
  split.
  { destruct Hwf as (_ & _ & Hs & Hl). rewrite Hrect in Hs, Hl. simpl in Hs, Hl. lia. }
  intros x y Hx Hy.
  destruct (Target_sides W H HT) as (HW & HH).
  assert (H46 : 2 ^ 46 < 2 ^ 53) by reflexivity.
  pose proof (sampleCoord_range x (width src) W Hx ltac:(lia) ltac:(lia)) as Hsx.
  pose proof (sampleCoord_range y (height src) H Hy ltac:(lia) ltac:(lia)) as Hsy.
  rewrite Hpix by assumption.
  replace (sampleCoord x (width src) W) with 0 by lia.
  replace (sampleCoord y (height src) H) with 0 by lia.
  rewrite !Z.add_0_r. reflexivity.
Qed.

(** ** Rounding in binary64: the exact cases *)

Module Float64Exact.

Import Float64 Float64Bounds.

(** Shifting out zero bits loses nothing. *)
Lemma iter_shr_1_exact (n : nat) (c : Z) :
  0 <= c ->
  Nat.iter n shr_1 {| shr_m := c * 2 ^ Z.of_nat n; shr_r := false; shr_s := false |} =
  {| shr_m := c; shr_r := false; shr_s := false |}.
Proof.
  revert c. induction n as [|n IH]; intros c Hc.
  - simpl. rewrite Z.mul_1_r. reflexivity.
  - rewrite Nat2Z.inj_succ, Z.pow_succ_r by lia.
    replace (c * (2 * 2 ^ Z.of_nat n)) with (2 * c * 2 ^ Z.of_nat n) by ring.
    change (Nat.iter (S n) shr_1 ?x) with (shr_1 (Nat.iter n shr_1 x)).
    rewrite IH by lia.
    destruct c as [|p|p]; try lia; reflexivity.
Qed.

Lemma shr_fexp_exact (M n e : Z) :
  2 ^ 52 <= M < 2 ^ 53 -> 0 <= n -> -1074 <= e + n ->
  shr_fexp prec emax (M * 2 ^ n) e loc_Exact =
    ({| shr_m := M; shr_r := false; shr_s := false |}, e + n).
Proof.
  intros HM Hn He.
  assert (Hp : 0 < 2 ^ n) by (apply Z.pow_pos_nonneg; lia).
  assert (Hd : Zdigits2 (M * 2 ^ n) = 53 + n).
  { apply Zdigits2_unique; [lia |].
    replace (53 + n - 1) with (52 + n) by lia. rewrite !Z.pow_add_r by lia.
    split; [apply Z.mul_le_mono_nonneg_r; lia | apply Z.mul_lt_mono_pos_r; lia]. }
  unfold shr_fexp, shr. rewrite fexp_eq, Hd.
  replace (Z.max (53 + n + e - 53) (-1074) - e) with n by lia.
  destruct n as [|p|p]; try lia.
  - rewrite Z.mul_1_r, Z.add_0_r. reflexivity.
  - rewrite iter_pos_nat. f_equal.
    rewrite <- (positive_nat_Z p) at 1.
    apply (iter_shr_1_exact (Pos.to_nat p) M). lia.
Qed.

(** Rounding a value that has a 53-bit mantissa returns that mantissa. *)
Lemma binary_round_aux_exact (M n e : Z) :
  2 ^ 52 <= M < 2 ^ 53 -> 0 <= n -> -1074 <= e + n <= 971 ->
  binary_round_aux prec emax false (M * 2 ^ n) e loc_Exact =
    S754_finite false (Z.to_pos M) (e + n).
Proof.
  intros HM Hn He. unfold binary_round_aux.
  rewrite shr_fexp_exact by lia. cbn [shr_m loc_of_shr_record shr_r shr_s round_nearest_even].
  replace M with (M * 2 ^ 0) at 1 by (rewrite Z.mul_1_r; reflexivity).
  rewrite shr_fexp_exact by lia. cbn [shr_m]. rewrite Z.add_0_r.
  destruct M as [|m|m]; try lia.
  destruct (Z.leb_spec (e + n) (emax - prec)) as [_ | Hbad]; [reflexivity |].
  unfold emax, prec in Hbad. lia.
Qed.

(** Two ways of writing one number with powers of two. *)
Lemma scale_exact (q K j t L : Z) :
  0 <= j -> 0 <= t -> 0 < L -> L <= q -> K < 2 * L ->
  q * 2 ^ t = K * 2 ^ j -> t <= j /\ q = K * 2 ^ (j - t).
Proof.
  intros Hj Ht HL Hq HK E.
  assert (Hpt : 0 < 2 ^ t) by (apply Z.pow_pos_nonneg; lia).
  destruct (Z.le_gt_cases t j) as [Hle | Hgt].
  - split; [exact Hle |].
    replace j with (j - t + t) in E at 1 by lia.
    rewrite Z.pow_add_r, Z.mul_assoc in E by lia.
    apply Z.mul_cancel_r in E; lia.
  - exfalso.
    assert (Hpj : 0 < 2 ^ j) by (apply Z.pow_pos_nonneg; lia).
    replace t with (t - j + j) in E by lia.
    rewrite Z.pow_add_r, Z.mul_assoc in E by lia.
    apply Z.mul_cancel_r in E; [| lia].
    assert (H2 : 2 ^ 1 <= 2 ^ (t - j)) by (apply Z.pow_le_mono_r; lia).
    change (2 ^ 1) with 2 in H2.
    assert (2 * q <= q * 2 ^ (t - j)) by (rewrite (Z.mul_comm 2); apply Z.mul_le_mono_nonneg_l; lia).
    lia.
Qed.

(** The quotient of two [int]s is exact when the division is: for
    [a = k * b] below [2 ^ 53], [float64(a) / float64(b)] is [float64(k)]. *)
Lemma div_of_int_exact (k b : Z) :
  0 < k -> 0 < b -> k * b < 2 ^ 53 ->
  div (of_int (k * b)) (of_int b) = of_int k.
Proof.
  intros Hk Hb Hkb.
  assert (Hk53 : 0 < k < 2 ^ 53) by nia.
  assert (Hb53 : 0 < b < 2 ^ 53) by nia.
  assert (Ha53 : 0 < k * b < 2 ^ 53) by nia.
  destruct (of_int_normal (k * b) Ha53) as (A & ea & -> & Hea & HA & HAn).
  destruct (of_int_normal b Hb53) as (B & eb & -> & Heb & HB & HBn).
  destruct (of_int_normal k Hk53) as (K & ek & -> & Hek & HK & HKn).
  assert (HdA : Z.pos (digits2_pos A) = 53).
  { apply (Zdigits2_unique (Z.pos A)); [lia |]. change (53 - 1) with 52. lia. }
  assert (HdB : Z.pos (digits2_pos B) = 53).
  { apply (Zdigits2_unique (Z.pos B)); [lia |]. change (53 - 1) with 52. lia. }
  unfold div, SFdiv, SFdiv_core_binary. simpl Zdigits2. rewrite HdA, HdB, fexp_eq.
  replace (Z.min (Z.max (53 + ea - (53 + eb) - 53) (-1074)) (ea - eb)) with (ea - eb - 53) by lia.
  replace (ea - eb - (ea - eb - 53)) with 53 by lia.
  cbv iota. rewrite Z.shiftl_mul_pow2 by lia.
  set (j := 53 - ea + eb).
  assert (Hj : 0 <= j) by (unfold j; lia).
  assert (Hnum : Z.pos A * 2 ^ 53 = k * 2 ^ j * Z.pos B + 0).
  { rewrite HA, HB, Z.add_0_r. unfold j.
    replace (k * b * 2 ^ (- ea) * 2 ^ 53) with (k * b * (2 ^ (- ea) * 2 ^ 53)) by ring.
    replace (k * 2 ^ (53 - ea + eb) * (b * 2 ^ (- eb)))
      with (k * b * (2 ^ (53 - ea + eb) * 2 ^ (- eb))) by ring.
    rewrite <- !Z.pow_add_r by lia. do 2 f_equal. lia. }
  pose proof (Z_div_mod (Z.pos A * 2 ^ 53) (Z.pos B) ltac:(lia)) as Hdm.
  destruct (Z.div_eucl (Z.pos A * 2 ^ 53) (Z.pos B)) as [q0 rem]. destruct Hdm as [Hdm Hrem].
  assert (Hpj : 0 < 2 ^ j) by (apply Z.pow_pos_nonneg; lia).
  assert (Hq : q0 = k * 2 ^ j /\ rem = 0).
  { assert (Hq1 : q0 = Z.pos A * 2 ^ 53 / Z.pos B) by (apply (Z.div_unique_pos _ _ q0 rem); lia).
    assert (Hq2 : k * 2 ^ j = Z.pos A * 2 ^ 53 / Z.pos B).
    { apply (Z.div_unique_pos _ _ (k * 2 ^ j) 0); [lia |]. rewrite Hnum. ring. }
    split; [congruence |].
    rewrite Hq1, <- Hq2 in Hdm. rewrite Hdm in Hnum. lia. }
  destruct Hq as [-> ->].
  assert (Hlow : 2 ^ 52 <= k * 2 ^ j).
  { assert (Hc : 2 ^ 52 * Z.pos B <= k * 2 ^ j * Z.pos B).
    { rewrite <- (Z.add_0_r (k * 2 ^ j * Z.pos B)), <- Hnum.
      apply Z.le_trans with (2 ^ 52 * 2 ^ 53); [apply Z.mul_le_mono_nonneg_l; lia |].
      apply Z.mul_le_mono_nonneg_r; lia. }
    apply Z.mul_le_mono_pos_r in Hc; lia. }
  destruct (scale_exact (k * 2 ^ j) (Z.pos K) j (- ek) (2 ^ 52)) as [Ht Hq];
    [lia | lia | lia | exact Hlow | lia | rewrite HK; ring |].
  change (xorb false false) with false. cbv beta iota zeta.
  replace (new_location (Z.pos B) 0) with loc_Exact.
  2:{ unfold new_location, new_location_even, new_location_odd.
      destruct (Z.even (Z.pos B)); reflexivity. }
  rewrite Hq.
  rewrite binary_round_aux_exact by (unfold j; lia).
  simpl Z.to_pos. f_equal. unfold j. lia.
Qed.

(** The product of two [int]s is exact while it stays below [2 ^ 53]. *)
Lemma mul_of_int_exact (x k : Z) :
  0 < x -> 0 < k -> x * k < 2 ^ 53 ->
  mul (of_int x) (of_int k) = of_int (x * k).
Proof.
  intros Hx Hk Hxk.
  assert (Hk53 : 0 < k < 2 ^ 53) by nia.
  assert (Hx53 : 0 < x < 2 ^ 53) by nia.
  assert (Hp53 : 0 < x * k < 2 ^ 53) by nia.
  destruct (of_int_normal x Hx53) as (X & ex & -> & Hex & HX & HXn).
  destruct (of_int_normal k Hk53) as (K & ek & -> & Hek & HK & HKn).
  destruct (of_int_normal (x * k) Hp53) as (P & ep & -> & Hep & HP & HPn).
  unfold mul, SFmul. change (xorb false false) with false.
  rewrite Pos2Z.inj_mul.
  assert (Hlow : 2 ^ 52 <= Z.pos X * Z.pos K).
  { apply Z.le_trans with (2 ^ 52 * 1); [reflexivity |].
    apply Z.mul_le_mono_nonneg; lia. }
  destruct (scale_exact (Z.pos X * Z.pos K) (Z.pos P) (- ex - ek) (- ep) (2 ^ 52)) as [Ht Hq];
    [lia | lia | lia | exact Hlow | lia | |].
  { rewrite HX, HK, HP.
    replace (- ex - ek) with (- ex + - ek) by lia. rewrite Z.pow_add_r by lia. ring. }
  rewrite Hq, binary_round_aux_exact by lia.
  simpl Z.to_pos. f_equal. lia.
Qed.

(** Below [2 ^ 53] the conversion to [float64] and back is the identity. *)
Lemma to_int_of_int (z : Z) : 0 <= z < 2 ^ 53 -> to_int (of_int z) = z.
Proof.
  intros Hz. destruct (Z.eq_dec z 0) as [-> | Hne]; [reflexivity |].
  destruct (of_int_exact z ltac:(lia)) as (m & e & -> & He & Hm).
  assert (Hp : 0 < 2 ^ (- e)) by (apply Z.pow_pos_nonneg; lia).
  unfold to_int. rewrite Hm.
  assert (Hmag : (if 0 <=? e then z * 2 ^ (- e) * 2 ^ e else z * 2 ^ (- e) / 2 ^ (- e)) = z).
  { destruct (Z.leb_spec 0 e).
    - replace e with 0 by lia. simpl. lia.
    - apply Z.div_mul. lia. }
  rewrite Hmag.
  assert (H53 : 2 ^ 53 <= Int.MaxInt) by (unfold Int.MaxInt; lia).
  unfold Int.MinInt at 1.
  destruct (Z.leb_spec (- 2 ^ 63) z); [| lia].
  destruct (Z.leb_spec z Int.MaxInt); [reflexivity | lia].
Qed.

(** When the target length divides the source length the sampled
    coordinate is exact. *)
Lemma sampleCoord_exact (x k b : Z) :
  1 <= k -> 1 <= b -> k * b < 2 ^ 53 -> 0 <= x < b ->
  sampleCoord x (k * b) b = x * k.
Proof.
  intros Hk Hb Hkb Hx. unfold sampleCoord, clampCoord.
  rewrite div_of_int_exact by lia.
  assert (Hs : to_int (Float64.mul (of_int x) (of_int k)) = x * k).
  { destruct (Z.eq_dec x 0) as [-> | Hne].
    - destruct (of_int_exact k ltac:(nia)) as (m & e & -> & _). reflexivity.
    - rewrite mul_of_int_exact by nia. apply to_int_of_int. nia. }
  rewrite Hs. destruct (Z.leb_spec (k * b) (x * k)); [nia | reflexivity].
Qed.

End Float64Exact.

Import Float64Exact.

(** ** [resizeImage]: exact ratios, order, enlarging, degenerate targets *)

Lemma sampleCoord_le_floor_lt (x a b Q : Z) :
  1 <= a -> 1 <= b -> a * b <= 2 ^ 51 -> 0 <= x < b ->
  x * a < Q * b -> sampleCoord x a b <= Q - 1.
Proof.
  intros Ha Hb Hab Hx Hlt.
  destruct (sampleCoord_floor x a b Ha Hb Hab Hx) as [[_ Hup] _].
  assert (x * a / b < Q) by (apply Z.div_lt_upper_bound; lia). lia.
Qed.

(** X1.  Along one axis the sampled source coordinate never decreases with
    the destination coordinate, while [srcLen * len <= 2 ^ 51]: the
    resampling never swaps two columns or two rows. *)
Theorem sampleCoord_monotone (x x' a b : Z) :
  1 <= a -> 1 <= b -> a * b <= 2 ^ 51 -> 0 <= x -> x <= x' -> x' < b ->
  sampleCoord x a b <= sampleCoord x' a b.
Proof.
  intros Ha Hb Hab Hx Hxx Hx'.
  destruct (Z.eq_dec x x') as [-> | Hne]; [lia |].
  destruct (sampleCoord_floor x a b Ha Hb Hab ltac:(lia)) as [[_ Hup] _].
  destruct (sampleCoord_floor x' a b Ha Hb Hab ltac:(lia)) as [[Hlo' _] Hex'].
  destruct (Z.eq_dec ((x' * a) mod b) 0) as [Hz | Hnz].
  - pose proof (Z.div_mod (x' * a) b ltac:(lia)) as Hdm. rewrite Hz, Z.add_0_r in Hdm.
    assert (Hlt : x * a < (x' * a / b) * b) by nia.
    pose proof (sampleCoord_le_floor_lt x a b _ Ha Hb Hab ltac:(lia) Hlt). lia.
  - rewrite (Hex' Hnz).
    assert (x * a / b <= x' * a / b) by (apply Z.div_le_mono; nia). lia.
Qed.

(** Enlarging: every source coordinate is sampled. *)
Lemma sampleCoord_onto (j a b : Z) :
  1 <= a -> a <= b -> a * b <= 2 ^ 51 -> 0 <= j < a ->
  exists x, 0 <= x < b /\ sampleCoord x a b = j.
Proof.
  intros Ha Hab Hbound Hj.
  destruct (Z.eq_dec a b) as [<- | Hne].
  - exists j. split; [lia |].
    replace a with (1 * a) at 1 by lia.
    rewrite sampleCoord_exact; [lia | lia | lia | | lia].
    apply Z.le_lt_trans with (2 ^ 51); [lia | reflexivity].
  - set (x := ((j + 1) * b - 1) / a).
    pose proof (Z.div_mod ((j + 1) * b - 1) a ltac:(lia)) as Hdm.
    pose proof (Z.mod_pos_bound ((j + 1) * b - 1) a ltac:(lia)) as Hrem.
    fold x in Hdm.
    assert (Hx0 : 0 <= x) by (apply Z.div_pos; nia).
    assert (Hlo : j * b < x * a) by nia.
    assert (Hhi : x * a < (j + 1) * b) by nia.
    assert (Hxb : x < b) by nia.
    exists x. split; [lia |].
    destruct (sampleCoord_floor x a b ltac:(lia) ltac:(lia) Hbound ltac:(lia)) as [_ Hex].
    assert (Hq : x * a / b = j).
    { symmetry. apply (Z.div_unique_pos _ _ j (x * a - j * b)); lia. }
    rewrite Hex; [exact Hq |].
    intros Hz.
    pose proof (Z.div_mod (x * a) b ltac:(lia)) as Hdm'. rewrite Hz, Hq in Hdm'. lia.
Qed.

(** X2.  When the target width divides the source width and the target height
    divides the source height (a same-size copy is the case
    [kx = ky = 1]), the [float64] arithmetic of [resizeImage], on a
    target whose buffer [make] accepts,
    is exact: the pixel at [(x, y)] is the quantised source pixel at
    [(x * kx, y * ky)]. *)
Theorem resizeImage_integer_ratio (src : image.Image) (W H kx ky : Z) :
  Bitmap src -> Target W H ->
  width src = kx * W -> height src = ky * H ->
  exists dst,
    resizeImage src W H = Some dst /\
    image.RGBA_Rect dst = image.mkRectangle (image.mkPoint 0 0) (image.mkPoint W H) /\
    forall x y, 0 <= x < W -> 0 <= y < H ->
      image.RGBAAt dst x y =
        color.quantize
          (image.At src (image.X (image.Min (image.Bounds src)) + x * kx)
                        (image.Y (image.Min (image.Bounds src)) + y * ky)).
Proof.
  intros Hsrc HT Hkx Hky.
  destruct (resizeImage_pixels src W H Hsrc HT) as (dst & Hres & _ & Hrect & Hpix).
  exists dst. split; [exact Hres |]. split; [exact Hrect |].
  intros x y Hx Hy. rewrite (Hpix x y Hx Hy).
  destruct (Bitmap_sides src Hsrc) as (Hw & Hh).
  destruct (Target_sides W H HT) as (HW & HH).
  assert (H48 : 2 ^ 48 < 2 ^ 53) by reflexivity.
  rewrite Hkx, Hky in *.
  rewrite !sampleCoord_exact; try lia; try nia. reflexivity.
Qed.

(** X3.  Enlarging drops nothing: when the target, whose buffer [make]
    accepts, is at least as wide and as high as the source (and
    [srcW * W], [srcH * H] are at most [2 ^ 51]), every pixel of the
    source is the one sampled for at least one pixel of the output. *)
Theorem resizeImage_enlarging_keeps_every_pixel (src : image.Image) (W H : Z) :
  Bitmap src -> Target W H ->
  width src <= W -> height src <= H ->
  width src * W <= 2 ^ 51 -> height src * H <= 2 ^ 51 ->
  exists dst,
    resizeImage src W H = Some dst /\
    forall u v, 0 <= u < width src -> 0 <= v < height src ->
      exists x y, 0 <= x < W /\ 0 <= y < H /\
        image.RGBAAt dst x y =
          color.quantize
            (image.At src (image.X (image.Min (image.Bounds src)) + u)
                          (image.Y (image.Min (image.Bounds src)) + v)).
Proof.
  intros Hsrc HT Hw Hh Hbw Hbh.
  destruct (resizeImage_pixels src W H Hsrc HT) as (dst & Hres & _ & _ & Hpix).
  exists dst. split; [exact Hres |].
  intros u v Hu Hv.
  destruct (sampleCoord_onto u (width src) W ltac:(lia) Hw Hbw Hu) as (x & Hx & Ex).
  destruct (sampleCoord_onto v (height src) H ltac:(lia) Hh Hbh Hv) as (y & Hy & Ey).
  exists x, y. split; [exact Hx |]. split; [exact Hy |].
  rewrite (Hpix x y Hx Hy), Ex, Ey. reflexivity.
Qed.




(** X5.  On a target whose buffer [make] accepts, a sampled source
    pixel that is a [color.NRGBA] with alpha 255 keeps its three colour
    bytes in the output, and one with alpha 0 becomes transparent black,
    whatever its colour bytes. *)
Theorem resizeImage_nrgba_pixels (src : image.Image) (W H : Z) :
  Bitmap src -> Target W H ->
  exists dst,
    resizeImage src W H = Some dst /\
    forall x y r g b, 0 <= x < W -> 0 <= y < H ->
      let c := image.At src
                 (image.X (image.Min (image.Bounds src)) + sampleCoord x (width src) W)
                 (image.Y (image.Min (image.Bounds src)) + sampleCoord y (height src) H) in
      (byte r -> byte g -> byte b -> c = color.OfNRGBA r g b 255 ->
       image.RGBAAt dst x y = color.mkRGBA r g b 255) /\
      (c = color.OfNRGBA r g b 0 -> image.RGBAAt dst x y = blank).
Proof.
  intros Hsrc HT.
  destruct (resizeImage_pixels src W H Hsrc HT) as (dst & Hres & _ & _ & Hpix).
  exists dst. split; [exact Hres |].
  intros x y r g b Hx Hy c. subst c. rewrite (Hpix x y Hx Hy). split.
  - intros Hr Hg Hb ->. apply quantize_NRGBA_opaque; assumption.
  - intros ->. apply quantize_NRGBA_clear.
Qed.


(** ** Themes *)

(** C7.  Theme selection is a total function: a name selects its own
    theme exactly when it is one of the keys, compared byte for byte,
    and every other name, the empty one included, selects what "light"
    selects. *)
Theorem selectTheme_total_with_light_fallback :
  (forall name : string,
      selectTheme name =
        if String.eqb name "dark" then theme_dark
        else if String.eqb name "a" then theme_a
        else theme_light) /\
  selectTheme "" = selectTheme "light" /\
  selectTheme "nonexistent" = selectTheme "light" /\
  selectTheme "Dark" = selectTheme "light" /\
  selectTheme "LIGHT" = selectTheme "light" /\
  selectTheme "dark" <> selectTheme "light".
Proof.
  assert (Hgen : forall name : string,
      selectTheme name =
        if String.eqb name "dark" then theme_dark
        else if String.eqb name "a" then theme_a
        else theme_light).
  { intros name. unfold selectTheme, themes.
    destruct (String.eqb_spec name "dark") as [-> | Hd]; [reflexivity |].
    destruct (String.eqb_spec name "a") as [-> | Ha]; [reflexivity |].
    destruct (decide (name = "light")) as [-> | Hl]; [reflexivity |].
    rewrite !lookup_insert_ne, lookup_empty by congruence. reflexivity. }
  split; [exact Hgen |]. rewrite !Hgen. simpl.
  repeat split; try reflexivity. discriminate.
Qed.


(** ** [draw.Draw] *)

(** [draw.Draw] overwrites the clipped rectangle and nothing else. *)
Lemma Draw_pixels (dst : image.RGBA) (r : image.Rectangle) (src : image.Image)
    (sp : image.Point) :
  wf dst ->
  let clip := image.Intersect (image.Intersect r (image.RGBA_Rect dst))
                (image.RAdd (image.Bounds src) (image.PSub (image.Min r) sp)) in
  wf (draw.Draw dst r src sp) /\
  image.RGBA_Rect (draw.Draw dst r src sp) = image.RGBA_Rect dst /\
  forall x y,
    image.RGBAAt (draw.Draw dst r src sp) x y =
      if image.In (image.mkPoint x y) (image.RGBA_Rect dst)
         && (image.X (image.Min clip) <=? x) && (x <? image.X (image.Max clip))
         && (image.Y (image.Min clip) <=? y) && (y <? image.Y (image.Max clip))
      then color.quantize
             (image.At src (Int.add (Int.sub x (image.X (image.Min r))) (image.X sp))
                           (Int.add (Int.sub y (image.Y (image.Min r))) (image.Y sp)))
      else image.RGBAAt dst x y.
Proof.
  intros Hwf clip. unfold draw.Draw. fold clip.
  apply (fill_rect
           (fun x y d => image.SetRGBA d x y
              (color.quantize
                 (image.At src (Int.add (Int.sub x (image.X (image.Min r))) (image.X sp))
                               (Int.add (Int.sub y (image.Y (image.Min r))) (image.Y sp)))))
           (fun x y => color.quantize
                 (image.At src (Int.add (Int.sub x (image.X (image.Min r))) (image.X sp))
                               (Int.add (Int.sub y (image.Y (image.Min r))) (image.Y sp))))).
  - reflexivity.
  - exact Hwf.
Qed.

Lemma small_is_int (z : Z) : -2 ^ 31 <= z <= 2 ^ 31 -> is_int z.
Proof.
  unfold is_int, Int.MinInt, Int.MaxInt.
  assert (2 ^ 31 < 2 ^ 63) by (apply Z.pow_lt_mono_r; lia). lia.
Qed.


(** ** [getFontFace], [addLabel] and the card *)

Section PipelineFacts.

Context {FL : FontLib} {PF : Platform}.

(** One round of the loop over the candidate paths. *)
Lemma tryFontPaths_cons size path rest w :
  tryFontPaths size (path :: rest) w =
    match candidate size path with
    | Some f =>
        Some (Some (mkFace (next_addr w) f (faceOptions size)),
              mkWorld (<[size := mkFace (next_addr w) f (faceOptions size)]> (fontCache w))
                      (S (next_addr w)) (trace w ++ [EvReadFile path]))
    | None => tryFontPaths size rest (addEvents w [EvReadFile path])
    end.
Proof.
  unfold candidate, loadFont, addEvents.
  cbn [tryFontPaths]. unfold bind at 1. unfold readFile, bind, emit, ret.
  destruct (ReadFile path) as [data|]; [| reflexivity].
  destruct (Parse data) as [font|]; [| reflexivity].
  unfold newFace. change (opentype.mkFaceOptions _ _) with (faceOptions size).
  cbn [fontCache next_addr trace].
  destruct (NewFace_ok font (faceOptions size)); reflexivity.
Qed.

Lemma tryFontPaths_nil size w :
  tryFontPaths size [] w = Some (None, addEvents w [EvLog notFoundMsg]).
Proof. reflexivity. Qed.

Lemma addEvents_app w evs evs' :
  addEvents (addEvents w evs) evs' = addEvents w (evs ++ evs').
Proof. unfold addEvents. simpl. rewrite <- app_assoc. reflexivity. Qed.

Lemma tryFontPaths_found size paths k f w :
  firstUsable size paths = Some (k, f) ->
  tryFontPaths size paths w =
    Some (Some (mkFace (next_addr w) f (faceOptions size)),
          mkWorld (<[size := mkFace (next_addr w) f (faceOptions size)]> (fontCache w))
                  (S (next_addr w))
                  (trace w ++ (EvReadFile <$> take (S k) paths))).
Proof.
  revert k f w. induction paths as [|path rest IH]; intros k f w Hf; [discriminate |].
  rewrite tryFontPaths_cons. cbn [firstUsable] in Hf.
  destruct (candidate size path) as [f0|].
  - injection Hf as <- <-. reflexivity.
  - destruct (firstUsable size rest) as [[k' f']|]; [| discriminate].
    injection Hf as <- <-. rewrite (IH k' f' _ eq_refl).
    unfold addEvents. cbn [fontCache next_addr trace].
    rewrite <- app_assoc. reflexivity.
Qed.

Lemma tryFontPaths_none size paths w :
  firstUsable size paths = None ->
  tryFontPaths size paths w =
    Some (None, addEvents w ((EvReadFile <$> paths) ++ [EvLog notFoundMsg])).
Proof.
  revert w. induction paths as [|path rest IH]; intros w Hf.
  - reflexivity.
  - rewrite tryFontPaths_cons. cbn [firstUsable] in Hf.
    destruct (candidate size path) as [f0|]; [discriminate |].
    destruct (firstUsable size rest) as [[k' f']|]; [discriminate |].
    rewrite IH by reflexivity. rewrite addEvents_app. reflexivity.
Qed.

Lemma getFontFace_hit size face w :
  fontCache w !! size = Some face -> getFontFace size w = Some (Some face, w).
Proof. intros Hc. unfold getFontFace, bind, cacheLookup. rewrite Hc. reflexivity. Qed.

Lemma getFontFace_miss size w :
  fontCache w !! size = None -> getFontFace size w = tryFontPaths size fontPaths w.
Proof. intros Hc. unfold getFontFace, bind, cacheLookup. rewrite Hc. reflexivity. Qed.

Lemma reads_addEvents w evs :
  reads (addEvents w evs) =
  reads w ++ omap (fun e => match e with EvReadFile p => Some p | _ => None end) evs.
Proof. unfold reads, addEvents. simpl. apply omap_app. Qed.

Lemma omap_reads_paths (paths : list string) :
  omap (fun e => match e with EvReadFile p => Some p | _ => None end)
       (EvReadFile <$> paths) = paths.
Proof. induction paths as [|p ps IH]; simpl; [reflexivity | f_equal; exact IH]. Qed.

Lemma firstUsable_first size paths k path f :
  paths !! k = Some path ->
  candidate size path = Some f ->
  (forall j p, (j < k)%nat -> paths !! j = Some p -> candidate size p = None) ->
  firstUsable size paths = Some (k, f).
Proof.
  revert k. induction paths as [|p0 rest IH]; intros k Hk Hc Hbefore; [discriminate |].
  destruct k as [|k]; simpl in Hk.
  - injection Hk as ->. simpl. rewrite Hc. reflexivity.
  - simpl. rewrite (Hbefore O p0) by (simpl; auto with lia).
    rewrite (IH k Hk Hc); [reflexivity |].
    intros j p Hj Hp. apply (Hbefore (S j) p); [lia | exact Hp].
Qed.

Lemma firstUsable_none size paths :
  (forall p, p ∈ paths -> candidate size p = None) -> firstUsable size paths = None.
Proof.
  induction paths as [|p0 rest IH]; intros Hall; [reflexivity |].
  simpl. rewrite (Hall p0) by (left).
  rewrite IH; [reflexivity |]. intros p Hp. apply Hall. right. exact Hp.
Qed.

Lemma firstUsable_lt size paths k f :
  firstUsable size paths = Some (k, f) -> (k < length paths)%nat.
Proof.
  revert k. induction paths as [|p0 rest IH]; intros k Hf; [discriminate |].
  simpl in Hf. destruct (candidate size p0); [injection Hf as <- <-; simpl; lia |].
  destruct (firstUsable size rest) as [[k' f']|]; [| discriminate].
  injection Hf as <- <-. specialize (IH k' eq_refl). simpl. lia.
Qed.

Lemma candidate_total_NewFace size path :
  (forall f o, NewFace_ok f o = true) -> candidate size path = loadFont path.
Proof.
  intros Hok. unfold candidate. destruct (loadFont path) as [f|]; [| reflexivity].
  rewrite Hok. reflexivity.
Qed.

Lemma tryFontPaths_found_reads size paths k font w :
  firstUsable size paths = Some (k, font) ->
  exists w',
    tryFontPaths size paths w =
      Some (Some (mkFace (next_addr w) font (faceOptions size)), w') /\
    fontCache w' = <[size := mkFace (next_addr w) font (faceOptions size)]> (fontCache w) /\
    next_addr w' = S (next_addr w) /\
    reads w' = reads w ++ take (S k) paths.
Proof.
  intros Hfu. rewrite (tryFontPaths_found _ _ _ _ _ Hfu).
  eexists. split; [reflexivity |]. split; [reflexivity |]. split; [reflexivity |].
  change (mkWorld ?c ?n (trace w ++ ?evs)) with (addEvents (mkWorld c n (trace w)) evs).
  rewrite reads_addEvents, omap_reads_paths. reflexivity.
Qed.

Lemma tryFontPaths_none_reads size paths w :
  firstUsable size paths = None ->
  exists w',
    tryFontPaths size paths w = Some (None, w') /\
    fontCache w' = fontCache w /\
    next_addr w' = next_addr w /\
    reads w' = reads w ++ paths.
Proof.
  intros Hfu. rewrite (tryFontPaths_none _ _ _ Hfu).
  eexists. split; [reflexivity |]. split; [reflexivity |]. split; [reflexivity |].
  rewrite reads_addEvents, omap_app, omap_reads_paths. cbn [omap].
  rewrite app_nil_r. reflexivity.
Qed.

(** C5.  With [opentype.NewFace] never failing (as in the library), a
    cache miss for [size] makes [getFontFace] read the candidate paths in
    order up to the first one that is readable and parses; it returns a
    face of that font at [size] points and 72 DPI and stores it under
    [size].  When no candidate is readable and parses, it returns the nil
    face, without a panic, having read every candidate. *)
Theorem getFontFace_miss_first_loadable (size : Z) (w : World) :
  (forall f o, NewFace_ok f o = true) ->
  fontCache w !! size = None ->
  (forall k path font,
      fontPaths !! k = Some path ->
      loadFont path = Some font ->
      (forall j p, (j < k)%nat -> fontPaths !! j = Some p -> loadFont p = None) ->
      exists face w',
        getFontFace size w = Some (Some face, w') /\
        face_font face = font /\
        face_opts face = opentype.mkFaceOptions (Float64.of_int size) (Float64.of_int 72) /\
        fontCache w' = <[size := face]> (fontCache w) /\
        reads w' = reads w ++ take (S k) fontPaths) /\
  ((forall p, p ∈ fontPaths -> loadFont p = None) ->
   exists w',
     getFontFace size w = Some (None, w') /\
     fontCache w' = fontCache w /\
     reads w' = reads w ++ fontPaths).
Proof.
  intros Hok Hmiss. rewrite (getFontFace_miss _ _ Hmiss). split.
  - intros k path font Hk Hload Hbefore.
    destruct (tryFontPaths_found_reads size fontPaths k font w)
      as (w' & Hrun & Hcache & _ & Hreads).
    + apply (firstUsable_first size fontPaths k path font Hk).
      * rewrite candidate_total_NewFace by exact Hok. exact Hload.
      * intros j p Hj Hp. rewrite candidate_total_NewFace by exact Hok. eauto.
    + eexists _, w'. split; [exact Hrun |]. cbn [face_font face_opts]. auto.
  - intros Hnone.
    destruct (tryFontPaths_none_reads size fontPaths w) as (w' & Hrun & Hcache & _ & Hreads).
    + apply firstUsable_none. intros p Hp.
      rewrite candidate_total_NewFace by exact Hok. auto.
    + exists w'. auto.
Qed.

(** C4 (amended).  After a resolution of [size] that returned a face, a
    second resolution returns that very face and changes nothing: it
    reads no file and allocates no face.  The first resolution reads
    nothing when the size was cached already; otherwise it reads each
    candidate path up to and including the first usable one, that is
    [k + 1] files when [k] candidates fail first. *)
Theorem getFontFace_second_is_cached (size : Z) (w w1 : World) (face : Face) :
  getFontFace size w = Some (Some face, w1) ->
  getFontFace size w1 = Some (Some face, w1) /\
  fontCache w1 !! size = Some face /\
  ((fontCache w !! size = Some face /\ w1 = w) \/
   (fontCache w !! size = None /\
    exists k font,
      firstUsable size fontPaths = Some (k, font) /\
      face = mkFace (next_addr w) font (faceOptions size) /\
      reads w1 = reads w ++ take (S k) fontPaths /\
      length (reads w1) = (length (reads w) + S k)%nat)).
Proof.
  intros Hfirst.
  assert (Hcached : fontCache w1 !! size = Some face /\
            ((fontCache w !! size = Some face /\ w1 = w) \/
             (fontCache w !! size = None /\
              exists k font,
                firstUsable size fontPaths = Some (k, font) /\
                face = mkFace (next_addr w) font (faceOptions size) /\
                reads w1 = reads w ++ take (S k) fontPaths /\
                length (reads w1) = (length (reads w) + S k)%nat))).
  { assert (Hcase : (exists c, fontCache w !! size = Some c) \/ fontCache w !! size = None)
      by (destruct (fontCache w !! size); eauto).
    destruct Hcase as [[cached Hc] | Hc].
    - rewrite (getFontFace_hit _ _ _ Hc) in Hfirst.
      injection Hfirst as -> ->. split; [exact Hc | left; split; [exact Hc | reflexivity]].
    - rewrite (getFontFace_miss _ _ Hc) in Hfirst.
      destruct (firstUsable size fontPaths) as [[k font]|] eqn:Hfu.
      + destruct (tryFontPaths_found_reads size fontPaths k font w Hfu)
          as (w' & Hrun & Hcache & _ & Hreads).
        rewrite Hrun in Hfirst. injection Hfirst as <- <-.
        split; [rewrite Hcache; apply lookup_insert_eq |].
        right. split; [exact Hc |]. exists k, font.
        split; [reflexivity |]. split; [reflexivity |]. split; [exact Hreads |].
        rewrite Hreads, length_app, length_take.
        pose proof (firstUsable_lt _ _ _ _ Hfu). lia.
      + rewrite (tryFontPaths_none _ _ _ Hfu) in Hfirst. discriminate. }
  destruct Hcached as [Hc Hhow]. split; [apply getFontFace_hit; exact Hc |].
  split; assumption.
Qed.

(** C10.  When [size] is not cached and no candidate path yields a face,
    every one of [n] successive resolutions returns the nil face, the
    cache and the allocations stay as they were, and each resolution
    reads every candidate path again, in order. *)
Theorem getFontFace_failure_not_cached (size : Z) (n : nat) (w : World) :
  fontCache w !! size = None ->
  (forall p, p ∈ fontPaths -> candidate size p = None) ->
  exists w',
    resolveTimes n size w = Some (replicate n None, w') /\
    fontCache w' = fontCache w /\
    next_addr w' = next_addr w /\
    reads w' = reads w ++ concat (replicate n fontPaths).
Proof.
  intros Hmiss Hnone. revert w Hmiss.
  induction n as [|n IH]; intros w Hmiss.
  - exists w. simpl. rewrite app_nil_r. auto.
  - cbn [resolveTimes]. unfold bind at 1.
    rewrite (getFontFace_miss _ _ Hmiss).
    destruct (tryFontPaths_none_reads size fontPaths w)
      as (w1 & Hrun1 & Hcache1 & Haddr1 & Hreads1);
      [apply firstUsable_none; exact Hnone |].
    rewrite Hrun1.
    destruct (IH w1) as (w' & Hrun & Hcache & Haddr & Hreads); [congruence |].
    exists w'. unfold bind at 1. rewrite Hrun. unfold ret.
    split; [reflexivity |]. split; [congruence |]. split; [congruence |].
    rewrite Hreads, Hreads1. cbn [replicate concat]. rewrite <- app_assoc. reflexivity.
Qed.

(** ** [getFontFace] in two goroutines *)

Lemma run_cons (i : nat) (schedule : list nat) (gs : list Goroutine) (w : World) :
  run (i :: schedule) gs w =
    match gs !! i with
    | Some g => bind (step g) (fun g' => run schedule (<[i := g']> gs)) w
    | None => run schedule gs w
    end.
Proof. cbn [run]. destruct (gs !! i); reflexivity. Qed.

Lemma step_lookup_miss size w :
  fontCache w !! size = None -> step (AtLookup size) w = Some (AtLoop size, w).
Proof. intros Hc. cbn [step]. unfold bind, cacheLookup, ret. rewrite Hc. reflexivity. Qed.

Lemma step_lookup_hit size face w :
  fontCache w !! size = Some face -> step (AtLookup size) w = Some (Returned (Some face), w).
Proof. intros Hc. cbn [step]. unfold bind, cacheLookup, ret. rewrite Hc. reflexivity. Qed.

Lemma step_loop size w r w' :
  tryFontPaths size fontPaths w = Some (r, w') -> step (AtLoop size) w = Some (Returned r, w').
Proof. intros Ht. cbn [step]. unfold bind. rewrite Ht. reflexivity. Qed.

(** The two stretches of one goroutine, run back to back, are
    [getFontFace]. *)
Lemma step_twice size w :
  bind (step (AtLookup size)) step w =
  bind (getFontFace size) (fun face => ret (Returned face)) w.
Proof.
  destruct (fontCache w !! size) as [face|] eqn:Hc.
  - unfold bind at 1. rewrite (step_lookup_hit _ _ _ Hc).
    unfold bind. rewrite (getFontFace_hit _ _ _ Hc). reflexivity.
  - unfold bind at 1. rewrite (step_lookup_miss _ _ Hc).
    cbn [step]. unfold bind. rewrite (getFontFace_miss _ _ Hc). reflexivity.
Qed.

(** C2.  The lazy initialisation of [fontCache] is not race-safe.  Two
    goroutines resolve a size that is not cached and that a candidate
    path yields.  When the second looks the size up before the first has
    stored its face (schedule 0, 1, 0, 1), both miss, both read the
    candidate files and both build a face: the two callers hold two
    distinct face objects, the second store replaces the first, so that
    the face the first caller holds is not the cached one, and every
    file is read twice.  Run one after the other (schedule 0, 0, 1, 1),
    the same two goroutines share one face and read the files once.
    (In the process the two stores are, besides, unsynchronised writes
    to one map, which the Go runtime may stop with a fatal error; the
    steps here are atomic and do not show it.) *)
Theorem getFontFace_concurrent_miss (size : Z) (w : World) (k : nat) (font : Font) :
  fontCache w !! size = None ->
  firstUsable size fontPaths = Some (k, font) ->
  let a := mkFace (next_addr w) font (faceOptions size) in
  let b := mkFace (S (next_addr w)) font (faceOptions size) in
  (exists w',
     run [0; 1; 0; 1]%nat [AtLookup size; AtLookup size] w =
       Some ([Returned (Some a); Returned (Some b)], w') /\
     fontCache w' = <[size := b]> (fontCache w) /\
     fontCache w' !! size <> Some a /\
     next_addr w' = S (S (next_addr w)) /\
     reads w' = reads w ++ take (S k) fontPaths ++ take (S k) fontPaths) /\
  a <> b /\
  (exists w',
     run [0; 0; 1; 1]%nat [AtLookup size; AtLookup size] w =
       Some ([Returned (Some a); Returned (Some a)], w') /\
     fontCache w' = <[size := a]> (fontCache w) /\
     next_addr w' = S (next_addr w) /\
     reads w' = reads w ++ take (S k) fontPaths).
Proof.
  intros Hc Hfu a b.
  destruct (tryFontPaths_found_reads size fontPaths k font w Hfu)
    as (w1 & Ht1 & Hc1 & Hn1 & Hr1).
  destruct (tryFontPaths_found_reads size fontPaths k font w1 Hfu)
    as (w2 & Ht2 & Hc2 & Hn2 & Hr2).
  rewrite Hn1 in Ht2, Hc2. fold a in Ht1, Hc1. fold b in Ht2, Hc2.
  assert (Hab : a <> b).
  { intros Heq. injection Heq as Haddr. lia. }
  split; [| split; [exact Hab |]].
  - exists w2.
    assert (Hcache : fontCache w2 = <[size := b]> (fontCache w)).
    { rewrite Hc2, Hc1. apply insert_insert_eq. }
    split.
    + rewrite run_cons.
      change ([AtLookup size; AtLookup size] !! 0%nat) with (Some (AtLookup size)).
      unfold bind at 1. rewrite (step_lookup_miss _ _ Hc).
      rewrite run_cons.
      change (<[0%nat := AtLoop size]> [AtLookup size; AtLookup size] !! 1%nat)
        with (Some (AtLookup size)).
      unfold bind at 1. rewrite (step_lookup_miss _ _ Hc).
      rewrite run_cons.
      change (<[1%nat := AtLoop size]> (<[0%nat := AtLoop size]> [AtLookup size; AtLookup size])
              !! 0%nat) with (Some (AtLoop size)).
      unfold bind at 1. rewrite (step_loop _ _ _ _ Ht1).
      rewrite run_cons.
      change (<[0%nat := Returned (Some a)]>
                (<[1%nat := AtLoop size]>
                   (<[0%nat := AtLoop size]> [AtLookup size; AtLookup size])) !! 1%nat)
        with (Some (AtLoop size)).
      unfold bind at 1. rewrite (step_loop _ _ _ _ Ht2).
      reflexivity.
    + split; [exact Hcache |]. split.
      * rewrite Hcache, lookup_insert_eq. intros Heq. apply Hab. congruence.
      * split; [rewrite Hn2, Hn1; reflexivity |].
        rewrite Hr2, Hr1, <- app_assoc. reflexivity.
  - exists w1. split.
    + rewrite run_cons.
      change ([AtLookup size; AtLookup size] !! 0%nat) with (Some (AtLookup size)).
      unfold bind at 1. rewrite (step_lookup_miss _ _ Hc).
      rewrite run_cons.
      change (<[0%nat := AtLoop size]> [AtLookup size; AtLookup size] !! 0%nat)
        with (Some (AtLoop size)).
      unfold bind at 1. rewrite (step_loop _ _ _ _ Ht1).
      rewrite run_cons.
      change (<[0%nat := Returned (Some a)]>
                (<[0%nat := AtLoop size]> [AtLookup size; AtLookup size]) !! 1%nat)
        with (Some (AtLookup size)).
      unfold bind at 1.
      rewrite (step_lookup_hit size a w1) by (rewrite Hc1; apply lookup_insert_eq).
      rewrite run_cons.
      change (<[1%nat := Returned (Some a)]>
                (<[0%nat := Returned (Some a)]>
                   (<[0%nat := AtLoop size]> [AtLookup size; AtLookup size])) !! 1%nat)
        with (Some (Returned (Some a))).
      reflexivity.
    + split; [exact Hc1 |]. split; [exact Hn1 | exact Hr1].
Qed.

(** The canvas before any text: background, then the avatar on top. *)
Lemma drawBase_pixels (stats : StatsData) (theme : Theme) (w : World) :
  exists base avatar,
    drawBase stats theme w = Some (base, w) /\
    resizeImage (Avatar stats) 160 160 = Some avatar /\
    wf base /\
    image.RGBA_Rect base = canvasRect /\
    forall x y, 0 <= x < 1200 -> 0 <= y < 800 ->
      image.RGBAAt base x y =
        if inAvatar x y then image.RGBAAt avatar (x - 53) (y - 53)
        else color.quantize (BGColor theme).
Proof.
  destruct (NewRGBA_Rect 1200 800) as (img & Hnew & Hwf & Hrect & _ & _ & _);
    [lia | lia | unfold image.maxAlloc; lia |].
  destruct (resizeImage_wf (Avatar stats) 160 160) as (avatar & Hres & Hawf & Harect & Hbytes);
    [unfold Target, image.maxAlloc; lia |].
  fold canvasRect in Hrect.
  unfold drawBase. unfold bind at 1. rewrite Hnew. cbn [lift ret].
  unfold bind at 1. rewrite Hres. cbn [lift ret].
  eexists _, avatar. split; [reflexivity |]. split; [reflexivity |].
  set (bg := draw.Draw img (image.RGBA_Rect img) (image.Uniform (BGColor theme))
               (image.mkPoint 0 0)).
  destruct (Draw_pixels img (image.RGBA_Rect img) (image.Uniform (BGColor theme))
              (image.mkPoint 0 0) Hwf) as (Hbgwf & Hbgrect & Hbgpix).
  fold bg in Hbgwf, Hbgrect, Hbgpix.
  rewrite Hrect in Hbgrect, Hbgpix.
  change (image.Intersect (image.Intersect canvasRect canvasRect)
            (image.RAdd (image.Bounds (image.Uniform (BGColor theme)))
               (image.PSub (image.Min canvasRect) (image.mkPoint 0 0))))
    with canvasRect in Hbgpix.
  change (Int.add 53 160) with 213.
  destruct (Draw_pixels bg (image.Rect 53 53 213 213) (image.of_RGBA avatar)
              (image.mkPoint 0 0) Hbgwf) as (Hwf' & Hrect' & Hpix').
  rewrite Hbgrect in Hrect', Hpix'.
  cbn [image.of_RGBA image.Bounds] in Hpix'. rewrite Harect in Hpix'.
  change (image.Intersect (image.Intersect (image.Rect 53 53 213 213) canvasRect)
            (image.RAdd (image.mkRectangle (image.mkPoint 0 0) (image.mkPoint 160 160))
               (image.PSub (image.Min (image.Rect 53 53 213 213)) (image.mkPoint 0 0))))
    with (image.mkRectangle (image.mkPoint 53 53) (image.mkPoint 213 213)) in Hpix'.
  split; [exact Hwf' |]. split; [exact Hrect' |].
  intros x y Hx Hy. rewrite Hpix'. cbn [image.X image.Y image.Min image.Max image.At].
  assert (Hin : image.In (image.mkPoint x y) canvasRect = true).
  { apply In_spec. simpl. lia. }
  rewrite Hin. unfold inAvatar. cbn [andb].
  destruct ((53 <=? x) && (x <? 213) && (53 <=? y) && (y <? 213)) eqn:Hav.
  - change (image.X (image.Min (image.Rect 53 53 213 213))) with 53.
    change (image.Y (image.Min (image.Rect 53 53 213 213))) with 53.
    change (image.X (image.mkPoint 0 0)) with 0.
    change (image.Y (image.mkPoint 0 0)) with 0.
    rewrite !(int_sub_small _ 53) by (apply small_is_int; lia).
    rewrite !int_add_small by (apply small_is_int; lia).
    rewrite !Z.add_0_r. apply quantize_RGBA, Hbytes.
  - rewrite Hbgpix, Hin. cbn [image.X image.Y image.Min image.Max canvasRect].
    destruct (Z.leb_spec 0 x); [| lia]. destruct (Z.ltb_spec x 1200); [| lia].
    destruct (Z.leb_spec 0 y); [| lia]. destruct (Z.ltb_spec y 800); [| lia].
    reflexivity.
Qed.

Lemma draws_addEvents w evs :
  draws (addEvents w evs) =
  draws w ++ omap (fun e => match e with EvDrawString d s => Some (d, s) | _ => None end) evs.
Proof. unfold draws, addEvents. simpl. apply omap_app. Qed.

Lemma omap_draws_paths (paths : list string) :
  omap (fun e => match e with EvDrawString d s => Some (d, s) | _ => None end)
       (EvReadFile <$> paths) = [].
Proof. induction paths as [|p ps IH]; simpl; [reflexivity | exact IH]. Qed.

Lemma addLabel_skip img x y label clr size w w1 :
  getFontFace size w = Some (None, w1) ->
  addLabel img x y label clr size w = Some (img, addEvents w1 [EvLog (skipMsg label)]).
Proof. intros Hg. unfold addLabel, bind at 1. rewrite Hg. reflexivity. Qed.

Lemma addLabel_draw img x y label clr size w w1 face :
  getFontFace size w = Some (Some face, w1) ->
  addLabel img x y label clr size w =
    Some (DrawString (labelDrawer img x y clr face) label,
          addEvents w1 [EvDrawString (labelDrawer img x y clr face) label]).
Proof. intros Hg. unfold addLabel, bind at 1. rewrite Hg. reflexivity. Qed.

(** A resolution never panics, draws nothing and leaves the other sizes
    of the cache alone. *)
Lemma getFontFace_total size w :
  exists r w',
    getFontFace size w = Some (r, w') /\
    draws w' = draws w /\
    forall s', s' <> size -> fontCache w' !! s' = fontCache w !! s'.
Proof.
  destruct (fontCache w !! size) as [face|] eqn:Hc.
  - exists (Some face), w. rewrite (getFontFace_hit _ _ _ Hc). auto.
  - rewrite (getFontFace_miss _ _ Hc).
    destruct (firstUsable size fontPaths) as [[k font]|] eqn:Hfu.
    + rewrite (tryFontPaths_found _ _ _ _ _ Hfu). eexists _, _.
      split; [reflexivity |]. split.
      * change (mkWorld ?c ?n (trace w ++ ?evs))
          with (addEvents (mkWorld c n (trace w)) evs).
        rewrite draws_addEvents, omap_draws_paths, app_nil_r. reflexivity.
      * intros s' Hne. cbn [fontCache]. apply lookup_insert_ne. congruence.
    + rewrite (tryFontPaths_none _ _ _ Hfu). eexists _, _.
      split; [reflexivity |]. split; [| reflexivity].
      rewrite draws_addEvents, omap_app, omap_draws_paths. cbn [omap app].
      apply app_nil_r.
Qed.

Lemma getFontFace_not_found size w :
  fontCache w !! size = None ->
  (forall p, p ∈ fontPaths -> candidate size p = None) ->
  exists w',
    getFontFace size w = Some (None, w') /\
    fontCache w' = fontCache w /\ draws w' = draws w.
Proof.
  intros Hc Hnone. rewrite (getFontFace_miss _ _ Hc).
  rewrite tryFontPaths_none by (apply firstUsable_none; exact Hnone).
  eexists. split; [reflexivity |]. split; [reflexivity |].
  rewrite draws_addEvents, omap_app, omap_draws_paths. cbn [omap app].
  apply app_nil_r.
Qed.

(** A label whose size has no font is dropped: the canvas is returned
    as it was. *)
Lemma addLabel_not_found img x y label clr size w :
  fontCache w !! size = None ->
  (forall p, p ∈ fontPaths -> candidate size p = None) ->
  exists w',
    addLabel img x y label clr size w = Some (img, w') /\
    fontCache w' = fontCache w /\ draws w' = draws w.
Proof.
  intros Hc Hnone.
  destruct (getFontFace_not_found size w Hc Hnone) as (w1 & Hg & Hcache & Hdraws).
  rewrite (addLabel_skip _ _ _ _ _ _ _ _ Hg). eexists. split; [reflexivity |].
  split; [exact Hcache |]. rewrite draws_addEvents. simpl. rewrite app_nil_r. exact Hdraws.
Qed.

Lemma getFontFace_found size w :
  is_Some (fontCache w !! size) \/ is_Some (firstUsable size fontPaths) ->
  exists face w',
    getFontFace size w = Some (Some face, w') /\
    fontCache w' !! size = Some face /\
    draws w' = draws w.
Proof.
  intros Hres.
  assert (Hcase : (exists c, fontCache w !! size = Some c) \/ fontCache w !! size = None)
    by (destruct (fontCache w !! size); eauto).
  destruct Hcase as [[face Hc] | Hc].
  - exists face, w. rewrite (getFontFace_hit _ _ _ Hc). auto.
  - destruct Hres as [[c Hc'] | [[k font] Hfu]]; [congruence |].
    rewrite (getFontFace_miss _ _ Hc), (tryFontPaths_found _ _ _ _ _ Hfu).
    eexists _, _. split; [reflexivity |]. split; [apply lookup_insert_eq |].
    change (mkWorld ?c ?n (trace w ++ ?evs))
      with (addEvents (mkWorld c n (trace w)) evs).
    rewrite draws_addEvents, omap_draws_paths, app_nil_r. reflexivity.
Qed.

(** An [addLabel] never panics; it draws at most once and leaves the
    other sizes of the cache alone. *)
Lemma addLabel_total img x y label clr size w :
  exists img' w' pre,
    addLabel img x y label clr size w = Some (img', w') /\
    draws w' = draws w ++ pre /\ (length pre <= 1)%nat /\
    forall s', s' <> size -> fontCache w' !! s' = fontCache w !! s'.
Proof.
  destruct (getFontFace_total size w) as ([face|] & w1 & Hg & Hd & Hc).
  - rewrite (addLabel_draw _ _ _ _ _ _ _ _ _ Hg). eexists _, _, _.
    split; [reflexivity |]. rewrite draws_addEvents, Hd. cbn [omap].
    split; [reflexivity |]. split; [simpl; lia | exact Hc].
  - rewrite (addLabel_skip _ _ _ _ _ _ _ _ Hg). eexists _, _, [].
    split; [reflexivity |]. rewrite draws_addEvents, Hd. cbn [omap].
    split; [reflexivity |]. split; [simpl; lia | exact Hc].
Qed.

Lemma addLabel_hit img x y label clr size w face :
  fontCache w !! size = Some face ->
  addLabel img x y label clr size w =
    Some (DrawString (labelDrawer img x y clr face) label,
          addEvents w [EvDrawString (labelDrawer img x y clr face) label]).
Proof. intros Hc. apply addLabel_draw, getFontFace_hit, Hc. Qed.

(** ** What a resolution does to the cache *)

Lemma logs_addEvents w evs :
  logs (addEvents w evs) =
  logs w ++ omap (fun e => match e with EvLog m => Some m | _ => None end) evs.
Proof. unfold logs, addEvents. simpl. apply omap_app. Qed.

Lemma omap_logs_paths (paths : list string) :
  omap (fun e => match e with EvLog m => Some m | _ => None end)
       (EvReadFile <$> paths) = [].
Proof. induction paths as [|p ps IH]; [reflexivity | exact IH]. Qed.

(** A resolution only ever adds the entry of its own size to the cache. *)
Lemma getFontFace_cache size w r w' :
  getFontFace size w = Some (r, w') ->
  fontCache w ⊆ fontCache w' /\
  (forall k, k <> size -> fontCache w' !! k = fontCache w !! k) /\
  (r <> None -> fontCache w' !! size = r) /\
  (resolves size w -> r <> None).
Proof.
  intros Hg.
  assert (Hcase : (exists c, fontCache w !! size = Some c) \/ fontCache w !! size = None)
    by (destruct (fontCache w !! size); eauto).
  destruct Hcase as [[face Hc] | Hc].
  - rewrite (getFontFace_hit _ _ _ Hc) in Hg. injection Hg as <- <-.
    split; [reflexivity |]. split; [reflexivity |]. split; [intros _; exact Hc |].
    intros _; discriminate.
  - rewrite (getFontFace_miss _ _ Hc) in Hg.
    destruct (firstUsable size fontPaths) as [[k f]|] eqn:Hfu.
    + rewrite (tryFontPaths_found _ _ _ _ _ Hfu) in Hg. injection Hg as <- <-.
      cbn [fontCache].
      split; [apply insert_subseteq; exact Hc |].
      split; [intros k' Hk; apply lookup_insert_ne; congruence |].
      split; [intros _; apply lookup_insert_eq | intros _; discriminate].
    + rewrite (tryFontPaths_none _ _ _ Hfu) in Hg. injection Hg as <- <-.
      split; [reflexivity |]. split; [reflexivity |]. split; [congruence |].
      intros [[c Hc'] | [c Hc']]; congruence.
Qed.

Lemma addLabel_cache img x y label clr size w img' w' :
  addLabel img x y label clr size w = Some (img', w') ->
  fontCache w ⊆ fontCache w' /\
  (forall k, k <> size -> fontCache w' !! k = fontCache w !! k) /\
  (resolves size w -> is_Some (fontCache w' !! size)).
Proof.
  intros Ha.
  destruct (getFontFace_total size w) as (r & w1 & Hg & _).
  destruct (getFontFace_cache _ _ _ _ Hg) as (Hsub & Hframe & Hin & Hres).
  destruct r as [face|].
  - rewrite (addLabel_draw _ _ _ _ _ _ _ _ _ Hg) in Ha. injection Ha as <- <-.
    cbn [fontCache addEvents]. split; [exact Hsub |]. split; [exact Hframe |].
    intros _. rewrite Hin by discriminate. eauto.
  - rewrite (addLabel_skip _ _ _ _ _ _ _ _ Hg) in Ha. injection Ha as <- <-.
    cbn [fontCache addEvents]. split; [exact Hsub |]. split; [exact Hframe |].
    intros Hr. exfalso. apply (Hres Hr). reflexivity.
Qed.

(** ** The card, with and without fonts *)

(** A size that does not resolve is neither cached nor loadable. *)
Lemma unresolved_inv size w :
  ~ resolves size w ->
  fontCache w !! size = None /\ firstUsable size fontPaths = None.
Proof.
  intros Hn. split.
  - destruct (fontCache w !! size) as [c|] eqn:Hc; [| reflexivity].
    exfalso. apply Hn. left. rewrite Hc. eauto.
  - destruct (firstUsable size fontPaths) as [c|] eqn:Hf; [| reflexivity].
    exfalso. apply Hn. right. rewrite Hf. eauto.
Qed.

Lemma resolves_dec size w : resolves size w \/ ~ resolves size w.
Proof.
  unfold resolves.
  destruct (fontCache w !! size) as [c|]; [left; left; eauto |].
  destruct (firstUsable size fontPaths) as [c|]; [left; right; eauto |].
  right. intros [[c Hc] | [c Hc]]; discriminate Hc.
Qed.

Lemma addLabel_unresolved img x y label clr size w :
  ~ resolves size w ->
  exists w',
    addLabel img x y label clr size w = Some (img, w') /\
    fontCache w' = fontCache w /\ draws w' = draws w.
Proof.
  intros Hn. destruct (unresolved_inv _ _ Hn) as (Hc & Hf).
  assert (Hg : getFontFace size w =
               Some (None, addEvents w ((EvReadFile <$> fontPaths) ++ [EvLog notFoundMsg]))).
  { rewrite (getFontFace_miss _ _ Hc). apply tryFontPaths_none, Hf. }
  rewrite (addLabel_skip _ _ _ _ _ _ _ _ Hg). eexists. split; [reflexivity |].
  split; [reflexivity |].
  rewrite !draws_addEvents, omap_app, omap_draws_paths. cbn [omap app].
  rewrite !app_nil_r. reflexivity.
Qed.

(** A resolution keeps every cached face under the size it was made
    for, and a face it returns has the size asked for. *)
Lemma getFontFace_sized size w r w' :
  getFontFace size w = Some (r, w') -> cacheSized w ->
  cacheSized w' /\ forall face, r = Some face -> face_opts face = faceOptions size.
Proof.
  intros Hg Hs.
  assert (Hcase : (exists c, fontCache w !! size = Some c) \/ fontCache w !! size = None)
    by (destruct (fontCache w !! size); eauto).
  destruct Hcase as [[face Hc] | Hc].
  - rewrite (getFontFace_hit _ _ _ Hc) in Hg. injection Hg as <- <-.
    split; [exact Hs |]. intros f Hf. injection Hf as <-. exact (Hs _ _ Hc).
  - rewrite (getFontFace_miss _ _ Hc) in Hg.
    destruct (firstUsable size fontPaths) as [[k f]|] eqn:Hfu.
    + rewrite (tryFontPaths_found _ _ _ _ _ Hfu) in Hg. injection Hg as <- <-.
      split; [| intros f' Hf'; injection Hf' as <-; reflexivity].
      intros s' f' Hl. cbn [fontCache] in Hl.
      destruct (Z.eq_dec s' size) as [-> | Hne].
      * rewrite lookup_insert_eq in Hl. injection Hl as <-. reflexivity.
      * rewrite lookup_insert_ne in Hl by congruence. exact (Hs _ _ Hl).
    + rewrite (tryFontPaths_none _ _ _ Hfu) in Hg. injection Hg as <- <-.
      split; [exact Hs | intros f' Hf'; discriminate Hf'].
Qed.

Lemma addLabel_sized img x y label clr size w img' w' :
  addLabel img x y label clr size w = Some (img', w') -> cacheSized w -> cacheSized w'.
Proof.
  intros Ha Hs.
  destruct (getFontFace_total size w) as (r & w1 & Hg & _).
  destruct (getFontFace_sized _ _ _ _ Hg Hs) as (Hs1 & _).
  destruct r as [face|].
  - rewrite (addLabel_draw _ _ _ _ _ _ _ _ _ Hg) in Ha. injection Ha as <- <-. exact Hs1.
  - rewrite (addLabel_skip _ _ _ _ _ _ _ _ Hg) in Ha. injection Ha as <- <-. exact Hs1.
Qed.

(** A label whose size resolves is drawn once, with the face that is
    cached for the size when the call returns. *)
Lemma addLabel_resolved img x y label clr size w :
  resolves size w ->
  exists face w',
    addLabel img x y label clr size w =
      Some (DrawString (labelDrawer img x y clr face) label, w') /\
    fontCache w' !! size = Some face /\
    (forall s', s' <> size -> fontCache w' !! s' = fontCache w !! s') /\
    (cacheSized w -> face_opts face = faceOptions size) /\
    draws w' = draws w ++ [(labelDrawer img x y clr face, label)].
Proof.
  intros Hres.
  destruct (getFontFace_found size w Hres) as (face & w1 & Hg & Hc & Hd).
  destruct (getFontFace_cache _ _ _ _ Hg) as (_ & Hframe & _).
  rewrite (addLabel_draw _ _ _ _ _ _ _ _ _ Hg). eexists _, _.
  split; [reflexivity |]. split; [exact Hc |]. split; [exact Hframe |].
  split.
  - intros Hs. exact (proj2 (getFontFace_sized _ _ _ _ Hg Hs) face eq_refl).
  - rewrite draws_addEvents, Hd. reflexivity.
Qed.

(** The canvas before any text, pixel by pixel: the theme's background,
    and in the avatar's square the pixels [resizeImage] samples from the
    avatar. *)
Lemma drawBase_samples (stats : StatsData) (theme : Theme) (w : World) :
  Bitmap (Avatar stats) ->
  exists base,
    drawBase stats theme w = Some (base, w) /\
    image.RGBA_Rect base = canvasRect /\
    Z.of_nat (length (image.Pix base)) = 4 * 1200 * 800 /\
    forall x y, 0 <= x < 1200 -> 0 <= y < 800 ->
      image.RGBAAt base x y =
        if inAvatar x y
        then color.quantize
               (image.At (Avatar stats)
                  (image.X (image.Min (image.Bounds (Avatar stats)))
                   + sampleCoord (x - 53) (width (Avatar stats)) 160)
                  (image.Y (image.Min (image.Bounds (Avatar stats)))
                   + sampleCoord (y - 53) (height (Avatar stats)) 160))
        else color.quantize (BGColor theme).
Proof.
  intros Hsrc.
  destruct (drawBase_pixels stats theme w)
    as (base & avatar & Hbase & Hres & Hwf & Hrect & Hpix).
  destruct (resizeImage_pixels (Avatar stats) 160 160 Hsrc)
    as (dst & Hres' & _ & _ & Hav); [unfold Target, image.maxAlloc; lia |].
  rewrite Hres in Hres'. injection Hres' as <-.
  exists base. split; [exact Hbase |]. split; [exact Hrect |]. split.
  { destruct Hwf as (_ & _ & Hs & Hl). rewrite Hrect in Hs, Hl. simpl in Hs, Hl. lia. }
  intros x y Hx Hy. rewrite (Hpix x y Hx Hy).
  destruct (inAvatar x y) eqn:Hin; [| reflexivity].
  unfold inAvatar in Hin.
  apply andb_prop in Hin as [Hin Hy2]. apply andb_prop in Hin as [Hin Hy1].
  apply andb_prop in Hin as [Hx1 Hx2].
  apply Hav; lia.
Qed.

(** The four metric labels, drawn one after the other once 48 resolves. *)
Lemma stat_labels_resolved (stats : StatsData) (theme : Theme) (c1 : image.RGBA) (w1 : World) :
  resolves 48 w1 ->
  exists f48 w',
    let stat := StatsColor theme in
    let s1 := Sprintf_d "Followers: " (Followers stats) in
    let s2 := Sprintf_d "Following: " (Following stats) in
    let s3 := Sprintf_d "Public Repos: " (PublicRepos stats) in
    let s4 := Sprintf_d "Total Stars: " (TotalStars stats) in
    let d1 := labelDrawer c1 53 293 stat f48 in
    let d2 := labelDrawer (DrawString d1 s1) 640 293 stat f48 in
    let d3 := labelDrawer (DrawString d2 s2) 53 (Int.add 293 67) stat f48 in
    let d4 := labelDrawer (DrawString d3 s3) 640 (Int.add 293 67) stat f48 in
    bind (addLabel c1 53 293 s1 stat 48) (fun img =>
    bind (addLabel img 640 293 s2 stat 48) (fun img =>
    bind (addLabel img 53 (Int.add 293 67) s3 stat 48) (fun img =>
    bind (addLabel img 640 (Int.add 293 67) s4 stat 48) (fun img => ret img)))) w1
      = Some (DrawString d4 s4, w') /\
    fontCache w' !! 48 = Some f48 /\
    (cacheSized w1 -> face_opts f48 = faceOptions 48) /\
    draws w' = draws w1 ++ [(d1, s1); (d2, s2); (d3, s3); (d4, s4)].
Proof.
  intros Hres. cbv zeta.
  destruct (addLabel_resolved c1 53 293 (Sprintf_d "Followers: " (Followers stats))
              (StatsColor theme) 48 w1 Hres) as (f48 & e1 & Hl1 & Hc1 & _ & Hs1 & Hd1).
  exists f48.
  unfold bind at 1. rewrite Hl1.
  unfold bind at 1. rewrite (addLabel_hit _ _ _ _ _ _ e1 f48) by exact Hc1.
  set (e2 := addEvents e1 _).
  unfold bind at 1. rewrite (addLabel_hit _ _ _ _ _ _ e2 f48) by exact Hc1.
  set (e3 := addEvents e2 _).
  unfold bind at 1. rewrite (addLabel_hit _ _ _ _ _ _ e3 f48) by exact Hc1.
  eexists. split; [reflexivity |]. split; [exact Hc1 |]. split; [exact Hs1 |].
  subst e3 e2. rewrite !addEvents_app, draws_addEvents, Hd1. cbn [omap app].
  rewrite <- app_assoc. reflexivity.
Qed.

(** The four metric labels, all dropped when 48 does not resolve. *)
Lemma stat_labels_unresolved (stats : StatsData) (theme : Theme) (c1 : image.RGBA) (w1 : World) :
  ~ resolves 48 w1 ->
  exists w',
    let stat := StatsColor theme in
    bind (addLabel c1 53 293 (Sprintf_d "Followers: " (Followers stats)) stat 48) (fun img =>
    bind (addLabel img 640 293 (Sprintf_d "Following: " (Following stats)) stat 48) (fun img =>
    bind (addLabel img 53 (Int.add 293 67)
            (Sprintf_d "Public Repos: " (PublicRepos stats)) stat 48) (fun img =>
    bind (addLabel img 640 (Int.add 293 67)
            (Sprintf_d "Total Stars: " (TotalStars stats)) stat 48) (fun img => ret img)))) w1
      = Some (c1, w') /\
    fontCache w' = fontCache w1 /\
    draws w' = draws w1.
Proof.
  intros Hn. cbv zeta.
  assert (Hkeep : forall w2, fontCache w2 = fontCache w1 -> ~ resolves 48 w2).
  { intros w2 Hc. unfold resolves. rewrite Hc. exact Hn. }
  destruct (addLabel_unresolved c1 53 293 (Sprintf_d "Followers: " (Followers stats))
              (StatsColor theme) 48 w1 Hn) as (w2 & Hl2 & Hc2 & Hd2).
  unfold bind at 1. rewrite Hl2.
  destruct (addLabel_unresolved c1 640 293 (Sprintf_d "Following: " (Following stats))
              (StatsColor theme) 48 w2 (Hkeep _ Hc2)) as (w3 & Hl3 & Hc3 & Hd3).
  unfold bind at 1. rewrite Hl3.
  destruct (addLabel_unresolved c1 53 (Int.add 293 67)
              (Sprintf_d "Public Repos: " (PublicRepos stats))
              (StatsColor theme) 48 w3 (Hkeep w3 ltac:(congruence))) as (w4 & Hl4 & Hc4 & Hd4).
  unfold bind at 1. rewrite Hl4.
  destruct (addLabel_unresolved c1 640 (Int.add 293 67)
              (Sprintf_d "Total Stars: " (TotalStars stats))
              (StatsColor theme) 48 w4 (Hkeep w4 ltac:(congruence))) as (w5 & Hl5 & Hc5 & Hd5).
  unfold bind at 1. rewrite Hl5.
  exists w5. split; [reflexivity |]. split; congruence.
Qed.

(** The render as [drawBase], the title and the four metric labels. *)
Lemma drawCard_unfold (stats : StatsData) (theme : Theme) (w : World) (base c1 : image.RGBA)
    (w1 : World) :
  drawBase stats theme w = Some (base, w) ->
  addLabel base 266 147 (Name stats) (TitleColor theme) 72 w = Some (c1, w1) ->
  drawCard stats theme w =
    bind (addLabel c1 53 293 (Sprintf_d "Followers: " (Followers stats))
            (StatsColor theme) 48) (fun img =>
    bind (addLabel img 640 293 (Sprintf_d "Following: " (Following stats))
            (StatsColor theme) 48) (fun img =>
    bind (addLabel img 53 (Int.add 293 67)
            (Sprintf_d "Public Repos: " (PublicRepos stats)) (StatsColor theme) 48) (fun img =>
    bind (addLabel img 640 (Int.add 293 67)
            (Sprintf_d "Total Stars: " (TotalStars stats)) (StatsColor theme) 48)
         (fun img => ret img)))) w1.
Proof.
  intros Hbase Hl. unfold drawCard. unfold bind at 1. rewrite Hbase.
  change (Int.add (Int.add 53 160) 53) with 266.
  unfold bind at 1. rewrite Hl. reflexivity.
Qed.

(** With neither size resolving, the render is the canvas before the
    text, and nothing is drawn. *)
Lemma drawCard_unresolved (stats : StatsData) (theme : Theme) (w : World) :
  ~ resolves 72 w -> ~ resolves 48 w ->
  exists base w',
    drawBase stats theme w = Some (base, w) /\
    drawCard stats theme w = Some (base, w') /\
    fontCache w' = fontCache w /\
    draws w' = draws w.
Proof.
  intros Hn72 Hn48.
  destruct (drawBase_pixels stats theme w) as (base & avatar & Hbase & _).
  destruct (addLabel_unresolved base 266 147 (Name stats) (TitleColor theme) 72 w Hn72)
    as (w1 & Hl & Hc1 & Hd1).
  destruct (stat_labels_unresolved stats theme base w1) as (w' & Hrun & Hc & Hd).
  { unfold resolves. rewrite Hc1. exact Hn48. }
  cbv zeta in Hrun. exists base, w'. split; [exact Hbase |].
  split; [rewrite (drawCard_unfold stats theme w base base w1 Hbase Hl); exact Hrun |].
  split; congruence.
Qed.

(** C3.  For every avatar bitmap and every theme: a label whose size
    does not resolve (it is not cached and no candidate path yields a
    face) is dropped, [addLabel] returning the canvas as it was, drawing
    nothing and not panicking; and the render never panics.  Its canvas
    before the text is [1200 x 800], with the pixel that [resizeImage]
    samples from the avatar at every point of the avatar's square and
    the theme's background at every other point.  The title is drawn
    onto it when 72 resolves and left out when it does not; the four
    metric labels are then drawn, in order, when 48 resolves and all
    left out when it does not; with neither size the canvas is the one
    before the text.  What [createStatsImage] returns is whatever the
    PNG encoder makes of that canvas. *)
Theorem createStatsImage_without_fonts (stats : StatsData) (theme : Theme) (w : World) :
  Bitmap (Avatar stats) ->
  (forall img x y label clr size,
      ~ resolves size w ->
      exists w1,
        addLabel img x y label clr size w = Some (img, w1) /\
        fontCache w1 = fontCache w /\
        draws w1 = draws w) /\
  exists base titled canvas w1 w',
    drawBase stats theme w = Some (base, w) /\
    image.RGBA_Rect base = canvasRect /\
    Z.of_nat (length (image.Pix base)) = 4 * 1200 * 800 /\
    (forall x y, 0 <= x < 1200 -> 0 <= y < 800 ->
       image.RGBAAt base x y =
         if inAvatar x y
         then color.quantize
                (image.At (Avatar stats)
                   (image.X (image.Min (image.Bounds (Avatar stats)))
                    + sampleCoord (x - 53) (width (Avatar stats)) 160)
                   (image.Y (image.Min (image.Bounds (Avatar stats)))
                    + sampleCoord (y - 53) (height (Avatar stats)) 160))
         else color.quantize (BGColor theme)) /\
    addLabel base 266 147 (Name stats) (TitleColor theme) 72 w = Some (titled, w1) /\
    drawCard stats theme w = Some (canvas, w') /\
    createStatsImage stats theme w = Some (png_Encode canvas, w') /\
    (~ resolves 72 w -> titled = base /\ draws w1 = draws w) /\
    (resolves 72 w ->
     exists f72,
       titled = DrawString (labelDrawer base 266 147 (TitleColor theme) f72) (Name stats) /\
       draws w1 = draws w ++ [(labelDrawer base 266 147 (TitleColor theme) f72, Name stats)]) /\
    (~ resolves 48 w -> canvas = titled /\ draws w' = draws w1) /\
    (resolves 48 w ->
     exists f48,
       let stat := StatsColor theme in
       let s1 := "Followers: " +:+ pretty (Followers stats) in
       let s2 := "Following: " +:+ pretty (Following stats) in
       let s3 := "Public Repos: " +:+ pretty (PublicRepos stats) in
       let s4 := "Total Stars: " +:+ pretty (TotalStars stats) in
       let d1 := labelDrawer titled 53 293 stat f48 in
       let d2 := labelDrawer (DrawString d1 s1) 640 293 stat f48 in
       let d3 := labelDrawer (DrawString d2 s2) 53 360 stat f48 in
       let d4 := labelDrawer (DrawString d3 s3) 640 360 stat f48 in
       canvas = DrawString d4 s4 /\
       draws w' = draws w1 ++ [(d1, s1); (d2, s2); (d3, s3); (d4, s4)]).
Proof.
  intros Hsrc.
  split; [intros img x y label clr size; apply addLabel_unresolved |].
  destruct (drawBase_samples stats theme w Hsrc) as (base & Hbase & Hrect & Hlen & Hpix).
  assert (Htitle : exists titled w1,
            addLabel base 266 147 (Name stats) (TitleColor theme) 72 w = Some (titled, w1) /\
            fontCache w1 !! 48 = fontCache w !! 48 /\
            (~ resolves 72 w -> titled = base /\ draws w1 = draws w) /\
            (resolves 72 w ->
             exists f72,
               titled = DrawString (labelDrawer base 266 147 (TitleColor theme) f72)
                          (Name stats) /\
               draws w1 = draws w
                 ++ [(labelDrawer base 266 147 (TitleColor theme) f72, Name stats)])).
  { destruct (resolves_dec 72 w) as [Hr | Hn].
    - destruct (addLabel_resolved base 266 147 (Name stats) (TitleColor theme) 72 w Hr)
        as (f72 & w1 & Hl & _ & Hframe & _ & Hd).
      eexists _, w1. split; [exact Hl |]. split; [apply Hframe; lia |].
      split; [intros Hn; contradiction |]. intros _. exists f72. split; [reflexivity | exact Hd].
    - destruct (addLabel_unresolved base 266 147 (Name stats) (TitleColor theme) 72 w Hn)
        as (w1 & Hl & Hc & Hd).
      exists base, w1. split; [exact Hl |]. split; [rewrite Hc; reflexivity |].
      split; [intros _; split; [reflexivity | exact Hd] |]. intros Hr; contradiction. }
  destruct Htitle as (titled & w1 & Hl & H48 & Hno72 & Hyes72).
  assert (Hsame : resolves 48 w1 <-> resolves 48 w) by (unfold resolves; rewrite H48; tauto).
  assert (Hstats : exists canvas w',
            drawCard stats theme w = Some (canvas, w') /\
            (~ resolves 48 w -> canvas = titled /\ draws w' = draws w1) /\
            (resolves 48 w ->
             exists f48,
               let stat := StatsColor theme in
               let s1 := "Followers: " +:+ pretty (Followers stats) in
               let s2 := "Following: " +:+ pretty (Following stats) in
               let s3 := "Public Repos: " +:+ pretty (PublicRepos stats) in
               let s4 := "Total Stars: " +:+ pretty (TotalStars stats) in
               let d1 := labelDrawer titled 53 293 stat f48 in
               let d2 := labelDrawer (DrawString d1 s1) 640 293 stat f48 in
               let d3 := labelDrawer (DrawString d2 s2) 53 360 stat f48 in
               let d4 := labelDrawer (DrawString d3 s3) 640 360 stat f48 in
               canvas = DrawString d4 s4 /\
               draws w' = draws w1 ++ [(d1, s1); (d2, s2); (d3, s3); (d4, s4)])).
  { rewrite (drawCard_unfold stats theme w base titled w1 Hbase Hl).
    destruct (resolves_dec 48 w) as [Hr | Hn].
    - destruct (stat_labels_resolved stats theme titled w1 (proj2 Hsame Hr))
        as (f48 & w' & Hrun & _ & _ & Hd).
      cbv zeta in Hrun, Hd. eexists _, w'. split; [exact Hrun |].
      split; [intros Hn; contradiction |]. intros _. exists f48. cbv zeta.
      split; [reflexivity | exact Hd].
    - destruct (stat_labels_unresolved stats theme titled w1) as (w' & Hrun & _ & Hd).
      { intros Hr. apply Hn, Hsame, Hr. }
      cbv zeta in Hrun. exists titled, w'. split; [exact Hrun |].
      split; [intros _; split; [reflexivity | exact Hd] |]. intros Hr; contradiction. }
  destruct Hstats as (canvas & w' & Hcard & Hno48 & Hyes48).
  exists base, titled, canvas, w1, w'.
  split; [exact Hbase |]. split; [exact Hrect |]. split; [exact Hlen |].
  split; [exact Hpix |]. split; [exact Hl |]. split; [exact Hcard |].
  split; [unfold createStatsImage, bind; rewrite Hcard; reflexivity |].
  split; [exact Hno72 |]. split; [exact Hyes72 |]. split; [exact Hno48 | exact Hyes48].
Qed.

(** C8 (amended).  Whenever a 48pt face resolves (it is cached, or a
    candidate path yields one), the last four [DrawString] calls of the
    render are the four metric labels, in the theme's [StatsColor] and
    with the face cached for 48 (a face of 48 points at 72 DPI when every
    cached face has the size of its key), at the dots [(53, 293)],
    [(640, 293)], [(53, 293 + 67)] and [(640, 293 + 67)] (in 26.6 fixed
    point), each drawn onto the canvas the previous call left. *)
Theorem drawCard_stat_labels (stats : StatsData) (theme : Theme) (w : World) :
  resolves 48 w -> draws_stat_labels stats theme w.
Proof.
  intros Hres.
  destruct (drawBase_pixels stats theme w) as (base & avatar & Hbase & _).
  destruct (addLabel_total base 266 147 (Name stats)
              (TitleColor theme) 72 w) as (c0 & w1 & pre & Hl0 & Hd0 & Hpre & Hc0).
  assert (Hres1 : resolves 48 w1).
  { unfold resolves. rewrite (Hc0 48) by lia. exact Hres. }
  destruct (stat_labels_resolved stats theme c0 w1 Hres1) as (f48 & w' & Hrun & Hc & Hs & Hd).
  cbv zeta in Hrun, Hd.
  exists f48, c0, w', pre. cbv zeta.
  split; [rewrite (drawCard_unfold stats theme w base c0 w1 Hbase Hl0); exact Hrun |].
  split; [exact Hc |].
  split; [intros Hsz; apply Hs; exact (addLabel_sized _ _ _ _ _ _ _ _ _ Hl0 Hsz) |].
  split; [| exact Hpre].
  rewrite Hd, Hd0, <- app_assoc. reflexivity.
Qed.

(** ** The card and the font cache over several renders *)

(** The five labels of the card, one after the other. *)
Lemma drawCard_steps (stats : StatsData) (theme : Theme) (w : World) :
  exists base c1 w1 c2 w2 c3 w3 c4 w4 c5 w5,
    drawBase stats theme w = Some (base, w) /\
    addLabel base (Int.add (Int.add 53 160) 53) 147 (Name stats) (TitleColor theme) 72 w
      = Some (c1, w1) /\
    addLabel c1 53 293 (Sprintf_d "Followers: " (Followers stats)) (StatsColor theme) 48 w1
      = Some (c2, w2) /\
    addLabel c2 640 293 (Sprintf_d "Following: " (Following stats)) (StatsColor theme) 48 w2
      = Some (c3, w3) /\
    addLabel c3 53 (Int.add 293 67) (Sprintf_d "Public Repos: " (PublicRepos stats))
      (StatsColor theme) 48 w3 = Some (c4, w4) /\
    addLabel c4 640 (Int.add 293 67) (Sprintf_d "Total Stars: " (TotalStars stats))
      (StatsColor theme) 48 w4 = Some (c5, w5) /\
    drawCard stats theme w = Some (c5, w5) /\
    createStatsImage stats theme w = Some (png_Encode c5, w5).
Proof.
  destruct (drawBase_pixels stats theme w) as (base & avatar & Hbase & _).
  destruct (addLabel_total base (Int.add (Int.add 53 160) 53) 147 (Name stats)
              (TitleColor theme) 72 w) as (c1 & w1 & ? & H1 & _).
  destruct (addLabel_total c1 53 293 (Sprintf_d "Followers: " (Followers stats))
              (StatsColor theme) 48 w1) as (c2 & w2 & ? & H2 & _).
  destruct (addLabel_total c2 640 293 (Sprintf_d "Following: " (Following stats))
              (StatsColor theme) 48 w2) as (c3 & w3 & ? & H3 & _).
  destruct (addLabel_total c3 53 (Int.add 293 67)
              (Sprintf_d "Public Repos: " (PublicRepos stats))
              (StatsColor theme) 48 w3) as (c4 & w4 & ? & H4 & _).
  destruct (addLabel_total c4 640 (Int.add 293 67)
              (Sprintf_d "Total Stars: " (TotalStars stats))
              (StatsColor theme) 48 w4) as (c5 & w5 & ? & H5 & _).
  assert (Hcard : drawCard stats theme w = Some (c5, w5)).
  { unfold drawCard. unfold bind at 1. rewrite Hbase.
    unfold bind at 1. rewrite H1. unfold bind at 1. rewrite H2.
    unfold bind at 1. rewrite H3. unfold bind at 1. rewrite H4.
    unfold bind at 1. rewrite H5. reflexivity. }
  exists base, c1, w1, c2, w2, c3, w3, c4, w4, c5, w5.
  repeat (split; [assumption |]).
  unfold createStatsImage, bind. rewrite Hcard. reflexivity.
Qed.

(** The card never panics, and its effect on the cache is to add, at
    most, the sizes 72 and 48. *)
Lemma createStatsImage_cache (stats : StatsData) (theme : Theme) (w : World) :
  exists r w',
    createStatsImage stats theme w = Some (r, w') /\
    fontCache w ⊆ fontCache w' /\
    (forall k, k <> 72 -> k <> 48 -> fontCache w' !! k = fontCache w !! k) /\
    (resolves 72 w -> is_Some (fontCache w' !! 72)) /\
    (resolves 48 w -> is_Some (fontCache w' !! 48)).
Proof.
  destruct (drawCard_steps stats theme w)
    as (base & c1 & w1 & c2 & w2 & c3 & w3 & c4 & w4 & c5 & w5
        & _ & H1 & H2 & H3 & H4 & H5 & _ & Hc).
  apply addLabel_cache in H1 as (S1 & F1 & R1).
  apply addLabel_cache in H2 as (S2 & F2 & R2).
  apply addLabel_cache in H3 as (S3 & F3 & _).
  apply addLabel_cache in H4 as (S4 & F4 & _).
  apply addLabel_cache in H5 as (S5 & F5 & _).
  exists (png_Encode c5), w5. split; [exact Hc |].
  assert (Hsub : fontCache w ⊆ fontCache w5) by (repeat (etrans; [eassumption |]); reflexivity).
  assert (Hmono : forall a b : World, fontCache a ⊆ fontCache b -> forall k,
            is_Some (fontCache a !! k) -> is_Some (fontCache b !! k)).
  { intros a b Hab k [c Hk]. exists c. eapply lookup_weaken; eassumption. }
  split; [exact Hsub |]. split.
  { intros k H72 H48. rewrite F5, F4, F3, F2, F1 by assumption. reflexivity. }
  split.
  - intros Hr. apply (Hmono w1); [| exact (R1 Hr)].
    repeat (etrans; [eassumption |]); reflexivity.
  - intros Hr. apply (Hmono w2).
    + repeat (etrans; [eassumption |]); reflexivity.
    + apply R2. destruct Hr as [Hc48 | Hfu]; [left | right; exact Hfu].
      apply (Hmono w); assumption.
Qed.

(** X6.  [createStatsImage] never panics, whatever the statistics, the
    avatar and the state of the process; every entry of [fontCache]
    stays as it was (none is replaced or removed), and the only keys it
    may add are 72 and 48. *)
Theorem createStatsImage_cache_growth (stats : StatsData) (theme : Theme) (w : World) :
  exists r w',
    createStatsImage stats theme w = Some (r, w') /\
    fontCache w ⊆ fontCache w' /\
    forall k, k <> 72 -> k <> 48 -> fontCache w' !! k = fontCache w !! k.
Proof.
  destruct (createStatsImage_cache stats theme w) as (r & w' & Hc & Hsub & Hframe & _).
  exists r, w'. auto.
Qed.

(** With both sizes cached a render touches neither the file system
    nor the cache. *)
Lemma createStatsImage_cached (stats : StatsData) (theme : Theme) (w : World) :
  is_Some (fontCache w !! 72) -> is_Some (fontCache w !! 48) ->
  exists r w',
    createStatsImage stats theme w = Some (r, w') /\
    fontCache w' = fontCache w /\
    next_addr w' = next_addr w /\
    reads w' = reads w /\
    logs w' = logs w /\
    length (draws w') = (length (draws w) + 5)%nat.
Proof.
  intros [f72 H72] [f48 H48].
  assert (Hc : forall evs, fontCache (addEvents w evs) !! 48 = Some f48) by (intros; exact H48).
  destruct (drawBase_pixels stats theme w) as (base & avatar & Hbase & _).
  eexists _, _. split.
  { unfold createStatsImage, drawCard.
    unfold bind at 1. unfold bind at 1. rewrite Hbase.
    unfold bind at 1. rewrite (addLabel_hit _ _ _ _ _ _ w f72 H72).
    unfold bind at 1. rewrite (addLabel_hit _ _ _ _ _ _ _ f48 (Hc _)).
    unfold bind at 1. rewrite addEvents_app, (addLabel_hit _ _ _ _ _ _ _ f48 (Hc _)).
    unfold bind at 1. rewrite addEvents_app, (addLabel_hit _ _ _ _ _ _ _ f48 (Hc _)).
    unfold bind at 1. rewrite addEvents_app, (addLabel_hit _ _ _ _ _ _ _ f48 (Hc _)).
    rewrite addEvents_app. reflexivity. }
  split; [reflexivity |]. split; [reflexivity |].
  rewrite reads_addEvents, logs_addEvents, draws_addEvents. cbn [omap app].
  rewrite !app_nil_r, length_app. repeat split; reflexivity.
Qed.

(** X7.  When the sizes 72 and 48 both resolve (cached, or loadable from a
    candidate path), a first render leaves both cached, so that a render
    that follows it, of any statistics and theme, reads no file, logs
    nothing, allocates no face and leaves the cache as it is. *)
Theorem createStatsImage_second_render_reads_nothing
    (stats1 stats2 : StatsData) (theme1 theme2 : Theme) (w : World) :
  resolves 72 w -> resolves 48 w ->
  exists r1 w1 r2 w2,
    createStatsImage stats1 theme1 w = Some (r1, w1) /\
    createStatsImage stats2 theme2 w1 = Some (r2, w2) /\
    reads w2 = reads w1 /\
    logs w2 = logs w1 /\
    fontCache w2 = fontCache w1 /\
    next_addr w2 = next_addr w1.
Proof.
  intros H72 H48.
  destruct (createStatsImage_cache stats1 theme1 w) as (r1 & w1 & Hfirst & _ & _ & C72 & C48).
  destruct (createStatsImage_cached stats2 theme2 w1 (C72 H72) (C48 H48))
    as (r2 & w2 & Hsecond & Hcache & Haddr & Hreads & Hlogs & _).
  exists r1, w1, r2, w2. auto 10.
Qed.

Lemma addLabel_not_found_eq img x y label clr size w :
  fontCache w !! size = None ->
  (forall p, p ∈ fontPaths -> candidate size p = None) ->
  addLabel img x y label clr size w =
    Some (img, addEvents w ((EvReadFile <$> fontPaths)
                            ++ [EvLog notFoundMsg; EvLog (skipMsg label)])).
Proof.
  intros Hc Hno.
  assert (Hg : getFontFace size w =
               Some (None, addEvents w ((EvReadFile <$> fontPaths) ++ [EvLog notFoundMsg]))).
  { rewrite (getFontFace_miss _ _ Hc). apply tryFontPaths_none, firstUsable_none, Hno. }
  rewrite (addLabel_skip _ _ _ _ _ _ _ _ Hg), addEvents_app, <- app_assoc. reflexivity.
Qed.

(** X8.  When neither 72 nor 48 is cached and no candidate path yields a
    face, one render hands all seven candidate paths to
    [ioutil.ReadFile] five times over (once per label), logs two
    warnings per label, and leaves the cache as it was, so that the next
    render does the same again. *)
Theorem createStatsImage_without_fonts_rescans (stats : StatsData) (theme : Theme) (w : World) :
  fontCache w !! 72 = None ->
  fontCache w !! 48 = None ->
  (forall p, p ∈ fontPaths -> candidate 72 p = None) ->
  (forall p, p ∈ fontPaths -> candidate 48 p = None) ->
  exists r w',
    createStatsImage stats theme w = Some (r, w') /\
    fontCache w' = fontCache w /\
    reads w' = reads w ++ concat (replicate 5 fontPaths) /\
    logs w' = logs w ++
      [ notFoundMsg; skipMsg (Name stats);
        notFoundMsg; skipMsg ("Followers: " +:+ pretty (Followers stats));
        notFoundMsg; skipMsg ("Following: " +:+ pretty (Following stats));
        notFoundMsg; skipMsg ("Public Repos: " +:+ pretty (PublicRepos stats));
        notFoundMsg; skipMsg ("Total Stars: " +:+ pretty (TotalStars stats)) ].
Proof.
  intros H72 H48 Hno72 Hno48.
  assert (Hc : forall evs, fontCache (addEvents w evs) !! 48 = None) by (intros; exact H48).
  destruct (drawBase_pixels stats theme w) as (base & avatar & Hbase & _).
  eexists _, _. split.
  { unfold createStatsImage, drawCard.
    unfold bind at 1. unfold bind at 1. rewrite Hbase.
    unfold bind at 1. rewrite (addLabel_not_found_eq _ _ _ _ _ _ w H72 Hno72).
    unfold bind at 1. rewrite (addLabel_not_found_eq _ _ _ _ _ _ _ (Hc _) Hno48).
    unfold bind at 1. rewrite addEvents_app, (addLabel_not_found_eq _ _ _ _ _ _ _ (Hc _) Hno48).
    unfold bind at 1. rewrite addEvents_app, (addLabel_not_found_eq _ _ _ _ _ _ _ (Hc _) Hno48).
    unfold bind at 1. rewrite addEvents_app, (addLabel_not_found_eq _ _ _ _ _ _ _ (Hc _) Hno48).
    rewrite addEvents_app. reflexivity. }
  split; [reflexivity |].
  rewrite reads_addEvents, logs_addEvents.
  rewrite !omap_app, !omap_reads_paths, !omap_logs_paths. cbn [omap app replicate concat].
  rewrite ?app_nil_r, <- ?app_assoc. split; reflexivity.
Qed.


End PipelineFacts.

(** ** The GitHub client and [requestHandler] *)

Lemma wrap_add_l (a b : Z) : Int.wrap 64 (Int.wrap 64 a + b) = Int.wrap 64 (a + b).
Proof.
  unfold Int.wrap. f_equal.
  replace ((a + 2 ^ (64 - 1)) mod 2 ^ 64 - 2 ^ (64 - 1) + b + 2 ^ (64 - 1))
    with ((a + 2 ^ (64 - 1)) mod 2 ^ 64 + b) by lia.
  rewrite Z.add_mod_idemp_l by lia. f_equal. lia.
Qed.

(** The loop of [getTotalStars]: the exact total, wrapped once. *)
Lemma sumStars_wrap (repos : list GitHubRepo.t) :
  sumStars repos = Int.wrap 64 (starTotal repos).
Proof.
  unfold sumStars.
  assert (Hgen : forall acc,
            foldl (fun t r => Int.add t (GitHubRepo.StargazersCount r)) (Int.wrap 64 acc) repos
            = Int.wrap 64 (acc + starTotal repos)).
  { induction repos as [|r rs IH]; intros acc.
    - simpl. rewrite Z.add_0_r. reflexivity.
    - cbn [foldl starTotal foldr]. unfold Int.add at 2. rewrite wrap_add_l, IH.
      f_equal. fold (starTotal rs). lia. }
  apply (Hgen 0).
Qed.

Lemma starTotal_nonneg (repos : list GitHubRepo.t) :
  Forall (fun r => 0 <= GitHubRepo.StargazersCount r) repos -> 0 <= starTotal repos.
Proof.
  induction 1 as [|r rs Hr _ IH]; [reflexivity |]. cbn [starTotal foldr].
  fold (starTotal rs). lia.
Qed.

Section ServerFacts.

Context {FL : FontLib} {PF : Platform} {NW : Network}.

Lemma closes_app (evs evs' : list NetEvent) : closes (evs ++ evs') = closes evs ++ closes evs'.
Proof. apply omap_app. Qed.

Lemma gets_app (evs evs' : list NetEvent) : gets (evs ++ evs') = gets evs ++ gets evs'.
Proof. apply omap_app. Qed.

(** [getUserData], [getAvatar] and [getTotalStars] make one request,
    close the body they received, and leave the renderer alone. *)
Lemma getUserData_eq (username : string) (p : Process) :
  getUserData username p =
    match http_Get (length (requests p)) (userURL username) with
    | inr err => Some (inr err, mkProcess (world p) (net p ++ [EvGet (userURL username)]))
    | inl resp =>
        Some (if negb (http.StatusCode resp =? http.StatusOK)
              then inr ("GitHub API returned status: " +:+ http.Status resp)
              else match ioutil_ReadAll (http.Body resp) with
                   | inr err => inr err
                   | inl body => json_Unmarshal_user body
                   end,
              mkProcess (world p)
                (net p ++ [EvGet (userURL username); EvClose (http.Body resp)]))
    end.
Proof.
  unfold getUserData, bindP, httpGet, closeBody, retP, userURL.
  destruct (http_Get _ _) as [resp | err]; [| reflexivity].
  cbn [world net]. rewrite <- app_assoc. cbn [app].
  destruct (negb _); [reflexivity |].
  destruct (ioutil_ReadAll _); [| reflexivity].
  destruct (json_Unmarshal_user _); reflexivity.
Qed.

Lemma getAvatar_eq (url : string) (p : Process) :
  getAvatar url p =
    match http_Get (length (requests p)) url with
    | inr err => Some (inr err, mkProcess (world p) (net p ++ [EvGet url]))
    | inl resp =>
        Some (if negb (http.StatusCode resp =? http.StatusOK)
              then inr ("avatar URL returned status: " +:+ http.Status resp)
              else image_Decode (http.Body resp),
              mkProcess (world p) (net p ++ [EvGet url; EvClose (http.Body resp)]))
    end.
Proof.
  unfold getAvatar, bindP, httpGet, closeBody, retP.
  destruct (http_Get _ _) as [resp | err]; [| reflexivity].
  cbn [world net]. rewrite <- app_assoc. cbn [app].
  destruct (negb _); [reflexivity |].
  destruct (image_Decode _); reflexivity.
Qed.

Lemma getTotalStars_eq (reposURL : string) (p : Process) :
  getTotalStars reposURL p =
    match http_Get (length (requests p)) (reposPage reposURL) with
    | inr err => Some (inr err, mkProcess (world p) (net p ++ [EvGet (reposPage reposURL)]))
    | inl resp =>
        Some (if negb (http.StatusCode resp =? http.StatusOK)
              then inr ("repos API returned status: " +:+ http.Status resp)
              else match ioutil_ReadAll (http.Body resp) with
                   | inr err => inr err
                   | inl body =>
                       match json_Unmarshal_repos body with
                       | inr err => inr err
                       | inl repos => inl (sumStars repos)
                       end
                   end,
              mkProcess (world p)
                (net p ++ [EvGet (reposPage reposURL); EvClose (http.Body resp)]))
    end.
Proof.
  unfold getTotalStars, bindP, httpGet, closeBody, retP, reposPage.
  destruct (http_Get _ _) as [resp | err]; [| reflexivity].
  cbn [world net]. rewrite <- app_assoc. cbn [app].
  destruct (negb _); [reflexivity |].
  destruct (ioutil_ReadAll _); [| reflexivity].
  destruct (json_Unmarshal_repos _); reflexivity.
Qed.

(** The shape of one exchange, whatever it returns. *)
Lemma exchange_shape {A : Type} (f : Proc A) (url : string) (p : Process)
    (ok : http.Response ReadCloser -> A) (ko : string -> A) :
  f p = match http_Get (length (requests p)) url with
        | inr err => Some (ko err, mkProcess (world p) (net p ++ [EvGet url]))
        | inl resp => Some (ok resp, mkProcess (world p)
                                      (net p ++ [EvGet url; EvClose (http.Body resp)]))
        end ->
  exists r evs,
    f p = Some (r, mkProcess (world p) (net p ++ evs)) /\
    gets evs = [url] /\
    forall rest, opens (length (requests p)) (evs ++ rest)
                 = closes evs ++ opens (S (length (requests p))) rest.
Proof.
  intros ->. destruct (http_Get (length (requests p)) url) as [resp | err] eqn:Hget.
  - eexists _, _. split; [reflexivity |]. split; [reflexivity |].
    intros rest. cbn [app opens closes omap]. rewrite Hget. reflexivity.
  - eexists _, _. split; [reflexivity |]. split; [reflexivity |].
    intros rest. cbn [app opens closes omap]. rewrite Hget. reflexivity.
Qed.

Lemma getUserData_shape (username : string) (p : Process) :
  exists r evs,
    getUserData username p = Some (r, mkProcess (world p) (net p ++ evs)) /\
    gets evs = [userURL username] /\
    forall rest, opens (length (requests p)) (evs ++ rest)
                 = closes evs ++ opens (S (length (requests p))) rest.
Proof.
  eapply exchange_shape. rewrite getUserData_eq.
  destruct (http_Get _ _); [reflexivity |].
  instantiate (1 := fun err => inr err). reflexivity.
Qed.

Lemma getAvatar_shape (url : string) (p : Process) :
  exists r evs,
    getAvatar url p = Some (r, mkProcess (world p) (net p ++ evs)) /\
    gets evs = [url] /\
    forall rest, opens (length (requests p)) (evs ++ rest)
                 = closes evs ++ opens (S (length (requests p))) rest.
Proof.
  eapply exchange_shape. rewrite getAvatar_eq.
  destruct (http_Get _ _); [reflexivity |].
  instantiate (1 := fun err => inr err). reflexivity.
Qed.

Lemma getTotalStars_shape (reposURL : string) (p : Process) :
  exists r evs,
    getTotalStars reposURL p = Some (r, mkProcess (world p) (net p ++ evs)) /\
    gets evs = [reposPage reposURL] /\
    forall rest, opens (length (requests p)) (evs ++ rest)
                 = closes evs ++ opens (S (length (requests p))) rest.
Proof.
  eapply exchange_shape. rewrite getTotalStars_eq.
  destruct (http_Get _ _); [reflexivity |].
  instantiate (1 := fun err => inr err). reflexivity.
Qed.

Lemma requests_step (p : Process) (w : World) (evs : list NetEvent) (url : string) :
  gets evs = [url] ->
  length (requests (mkProcess w (net p ++ evs))) = S (length (requests p)).
Proof.
  intros Hg. unfold requests. cbn [net]. rewrite omap_app. fold (gets evs).
  rewrite Hg, length_app. simpl. lia.
Qed.

(** [fetchStatsData]: at most three exchanges, the first for the user,
    and at most one log line. *)
Lemma fetchStatsData_shape (username : string) (p : Process) :
  exists r evs w',
    fetchStatsData username p = Some (r, mkProcess w' (net p ++ evs)) /\
    (exists rest, gets evs = userURL username :: rest /\ (length rest <= 2)%nat) /\
    closes evs = opens (length (requests p)) evs /\
    (w' = world p \/ exists msg, w' = addEvents (world p) [EvLog msg]) /\
    (forall err, r = inr err -> w' = world p).
Proof.
  unfold fetchStatsData.
  destruct (getUserData_shape username p) as (r1 & e1 & H1 & G1 & O1).
  unfold bindP at 1. rewrite H1.
  set (p1 := mkProcess (world p) (net p ++ e1)) in *.
  assert (L1 : length (requests p1) = S (length (requests p))) by (eapply requests_step; eassumption).
  destruct r1 as [user | err].
  2:{ exists (inr ("could not get user data: " +:+ err)), e1, (world p).
      split; [reflexivity |]. split; [exists []; rewrite G1; split; [reflexivity | simpl; lia] |].
      split; [| split; [left; reflexivity | reflexivity]].
      rewrite <- (app_nil_r e1) at 2. rewrite O1. cbn [opens]. rewrite app_nil_r. reflexivity. }
  destruct (getAvatar_shape (GitHubUser.AvatarURL user) p1) as (r2 & e2 & H2 & G2 & O2).
  unfold bindP at 1. rewrite H2.
  change (world p1) with (world p) in *. change (net p1) with (net p ++ e1) in *.
  set (p2 := mkProcess (world p) ((net p ++ e1) ++ e2)) in *.
  assert (L2 : length (requests p2) = S (length (requests p1))).
  { apply (requests_step p1 (world p) e2 _ G2). }
  destruct r2 as [avatar | err].
  2:{ exists (inr ("could not get avatar: " +:+ err)), (e1 ++ e2), (world p).
      split; [unfold retP, p2; rewrite <- app_assoc; reflexivity |].
      split; [exists [GitHubUser.AvatarURL user]; rewrite gets_app, G1, G2;
              split; [reflexivity | simpl; lia] |].
      split; [| split; [left; reflexivity | reflexivity]].
      rewrite O1, closes_app. f_equal.
      rewrite <- L1. rewrite <- (app_nil_r e2) at 2. rewrite O2. cbn [opens].
      rewrite app_nil_r. reflexivity. }
  destruct (getTotalStars_shape (GitHubUser.ReposURL user) p2) as (r3 & e3 & H3 & G3 & O3).
  unfold bindP at 1. rewrite H3.
  change (world p2) with (world p) in *. change (net p2) with ((net p ++ e1) ++ e2) in *.
  assert (Hnet : forall w, mkProcess w (((net p ++ e1) ++ e2) ++ e3)
                           = mkProcess w (net p ++ (e1 ++ e2 ++ e3))).
  { intros w. f_equal. rewrite <- !app_assoc. reflexivity. }
  assert (Hgets : exists rest, gets (e1 ++ e2 ++ e3) = userURL username :: rest
                               /\ (length rest <= 2)%nat).
  { exists [GitHubUser.AvatarURL user; reposPage (GitHubUser.ReposURL user)].
    rewrite !gets_app, G1, G2, G3. split; [reflexivity | simpl; lia]. }
  assert (Hbal : closes (e1 ++ e2 ++ e3) = opens (length (requests p)) (e1 ++ e2 ++ e3)).
  { rewrite O1, !closes_app. f_equal. rewrite <- L1, O2. f_equal.
    rewrite <- L2. rewrite <- (app_nil_r e3) at 2. rewrite O3. cbn [opens].
    rewrite app_nil_r. reflexivity. }
  destruct r3 as [stars | err].
  - eexists _, (e1 ++ e2 ++ e3), (world p).
    split; [unfold bindP, retP; rewrite Hnet; reflexivity |].
    split; [exact Hgets |]. split; [exact Hbal |]. split; [left; reflexivity | discriminate].
  - eexists _, (e1 ++ e2 ++ e3), _.
    split; [unfold bindP, retP, liftM, logPrintf, emit; cbn [world net]; rewrite Hnet; reflexivity |].
    split; [exact Hgets |]. split; [exact Hbal |].
    split; [right; eexists; reflexivity | discriminate].
Qed.

(** [requestHandler] never panics; what it does on the network. *)
Lemma requestHandler_shape (ctx : fasthttp.RequestCtx) (p : Process) :
  exists ctx' p' evs,
    requestHandler ctx p = Some (ctx', p') /\
    net p' = net p ++ evs /\
    closes evs = opens (length (requests p)) evs /\
    (length (gets evs) <= 3)%nat /\
    (fasthttp.Peek (fasthttp.QueryArgs ctx) "id" = "" -> evs = [] /\ p' = p) /\
    (fasthttp.Peek (fasthttp.QueryArgs ctx) "id" <> "" ->
     exists rest, gets evs = userURL (fasthttp.Peek (fasthttp.QueryArgs ctx) "id") :: rest) /\
    ((exists code msg,
        ctx' = fasthttp.mkRequestCtx (fasthttp.QueryArgs ctx) (errorResponse code msg) /\
        ((code = 400 /\ fasthttp.Peek (fasthttp.QueryArgs ctx) "id" = "") \/
         ((code = 404 \/ code = 500) /\ fasthttp.Peek (fasthttp.QueryArgs ctx) "id" <> ""))) \/
     (exists png,
        fasthttp.Peek (fasthttp.QueryArgs ctx) "id" <> "" /\
        ctx' = fasthttp.mkRequestCtx (fasthttp.QueryArgs ctx)
                 (fasthttp.mkResponse
                    (fasthttp.StatusCode (fasthttp.CtxResponse ctx)) "image/png"
                    (<["Cache-Control" := cacheControl]>
                       (fasthttp.Header (fasthttp.CtxResponse ctx)))
                    (fasthttp.Body (fasthttp.CtxResponse ctx) ++ png)))).
Proof.
  unfold requestHandler.
  destruct (fasthttp.Peek (fasthttp.QueryArgs ctx) "id") as [|c id'] eqn:Hid.
  - exists (fasthttp.Error ctx "Missing 'id' query parameter" fasthttp.StatusBadRequest), p, [].
    cbn [String.length Nat.eqb]. split; [reflexivity |].
    split; [rewrite app_nil_r; reflexivity |]. split; [reflexivity |].
    split; [simpl; lia |]. split; [auto |]. split; [congruence |].
    left. eexists _, _. split; [reflexivity | left; split; reflexivity].
  - cbn [String.length Nat.eqb]. set (id := String c id') in *.
    destruct (fetchStatsData_shape id p) as (r & evs & w' & Hf & (rest & Hg & Hlen) & Hbal & _ & _).
    unfold bindP at 1. rewrite Hf.
    assert (Hcount : (length (gets evs) <= 3)%nat) by (rewrite Hg; simpl; lia).
    destruct r as [stats | err].
    + destruct (createStatsImage_cache stats
                  (selectTheme (fasthttp.Peek (fasthttp.QueryArgs ctx) "theme")) w')
        as (png & w'' & Hc & _).
      unfold bindP, liftM. cbn [world net]. rewrite Hc.
      destruct png as [buf | err]; eexists _, _, evs; (split; [reflexivity |]);
        cbn [net]; (split; [reflexivity |]); (split; [exact Hbal |]);
        (split; [exact Hcount |]); (split; [discriminate |]);
        (split; [intros _; exists rest; exact Hg |]).
      * right. exists buf. split; [discriminate | reflexivity].
      * left. eexists _, _. split; [reflexivity |]. right. split; [right; reflexivity | discriminate].
    + eexists _, _, evs. split; [reflexivity |]. cbn [net]. split; [reflexivity |].
      split; [exact Hbal |]. split; [exact Hcount |].
      split; [discriminate |]. split; [intros _; exists rest; exact Hg |].
      left. eexists _, _. split; [reflexivity |]. right. split; [left; reflexivity | discriminate].
Qed.

(** X9.  When the request for [reposURL + "?per_page=100"] is answered
    with status 200 and a body that decodes to [repos], [getTotalStars]
    makes that one request, closes its body and returns the sum of the
    [StargazersCount]s reduced to a 64-bit [int]; the sum itself when no
    count is negative and it fits an [int]. *)
Theorem getTotalStars_sums_stars (reposURL : string) (p : Process)
    (resp : http.Response ReadCloser) (body : list Z) (repos : list GitHubRepo.t) :
  http_Get (length (requests p)) (reposPage reposURL) = inl resp ->
  http.StatusCode resp = http.StatusOK ->
  ioutil_ReadAll (http.Body resp) = inl body ->
  json_Unmarshal_repos body = inl repos ->
  getTotalStars reposURL p =
    Some (inl (Int.wrap 64 (starTotal repos)),
          mkProcess (world p)
            (net p ++ [EvGet (reposPage reposURL); EvClose (http.Body resp)])) /\
  (Forall (fun r => 0 <= GitHubRepo.StargazersCount r) repos ->
   starTotal repos <= Int.MaxInt ->
   Int.wrap 64 (starTotal repos) = starTotal repos).
Proof.
  intros Hget Hst Hread Hjson. split.
  - rewrite getTotalStars_eq. rewrite Hget, Hst, Hread, Hjson.
    rewrite sumStars_wrap. reflexivity.
  - intros Hpos Hmax. apply wrap_small. pose proof (starTotal_nonneg repos Hpos).
    unfold is_int, Int.MinInt. lia.
Qed.

(** X10.  On a context whose response still has status 200, the handler
    answers 400 exactly when the query has no [id] argument or an empty
    one, and exactly then it does not call [http.Get] (a call counts
    whether or not the client gets as far as sending a request).  That
    answer is the body "Missing 'id' query parameter" as plain text with
    no header, and the process is left exactly as it was: no file is
    read, nothing is logged or cached. *)
Theorem requestHandler_missing_id (ctx : fasthttp.RequestCtx) (p : Process) :
  fasthttp.StatusCode (fasthttp.CtxResponse ctx) = fasthttp.StatusOK ->
  exists ctx' p',
    requestHandler ctx p = Some (ctx', p') /\
    (fasthttp.Peek (fasthttp.QueryArgs ctx) "id" = "" ->
     ctx' = fasthttp.mkRequestCtx (fasthttp.QueryArgs ctx)
              (errorResponse 400 "Missing 'id' query parameter") /\
     p' = p) /\
    (fasthttp.StatusCode (fasthttp.CtxResponse ctx') = 400 <->
     fasthttp.Peek (fasthttp.QueryArgs ctx) "id" = "") /\
    (gets (net p') = gets (net p) <-> fasthttp.Peek (fasthttp.QueryArgs ctx) "id" = "").
Proof.
  intros Hfresh.
  destruct (requestHandler_shape ctx p)
    as (ctx' & p' & evs & Hr & Hn & _ & _ & Hmissing & Hfirst & Hclass).
  exists ctx', p'. split; [exact Hr |]. split.
  { intros Hid. destruct (Hmissing Hid) as [_ ->]. split; [| reflexivity].
    unfold requestHandler in Hr. rewrite Hid in Hr. injection Hr as <-. reflexivity. }
  split.
  - split.
    + intros Hcode.
      destruct Hclass as [(code & msg & -> & [[_ Hid] | [Hc Hid]]) | (png & Hid & ->)];
        [exact Hid | cbn in Hcode; lia |].
      cbn in Hcode. rewrite Hfresh in Hcode. discriminate Hcode.
    + intros Hid.
      destruct Hclass as [(code & msg & -> & [[-> _] | [_ Hne]]) | (png & Hne & _)];
        [reflexivity | contradiction | contradiction].
  - split.
    + intros Hreq.
      destruct (fasthttp.Peek (fasthttp.QueryArgs ctx) "id") as [|c s'] eqn:Hid; [reflexivity |].
      destruct (Hfirst ltac:(discriminate)) as (rest & Hg).
      unfold gets in Hreq. rewrite Hn, omap_app in Hreq. fold (gets evs) in Hreq.
      rewrite Hg in Hreq. apply (f_equal length) in Hreq.
      rewrite length_app in Hreq. simpl in Hreq. lia.
    + intros Hid. destruct (Hmissing Hid) as [_ ->]. reflexivity.
Qed.

Lemma nonempty_length (s : string) : s <> "" -> (String.length s =? 0)%nat = false.
Proof. destruct s; [congruence | reflexivity]. Qed.

Lemma status_not_ok (code : Z) : code <> http.StatusOK -> negb (code =? http.StatusOK) = true.
Proof. intros Hne. destruct (Z.eqb_spec code http.StatusOK); [contradiction | reflexivity]. Qed.

(** X11.  When the GitHub API answers the user lookup with a status other
    than 200, the handler answers 404 with the body "Failed to get
    GitHub stats for <id>: could not get user data: GitHub API returned
    status: <status>"; it has sent that one request and closed its body,
    and has rendered nothing. *)
Theorem requestHandler_unknown_user (ctx : fasthttp.RequestCtx) (p : Process) (id : string)
    (resp : http.Response ReadCloser) :
  fasthttp.Peek (fasthttp.QueryArgs ctx) "id" = id -> id <> "" ->
  http_Get (length (requests p)) (userURL id) = inl resp ->
  http.StatusCode resp <> http.StatusOK ->
  requestHandler ctx p =
    Some (fasthttp.mkRequestCtx (fasthttp.QueryArgs ctx)
            (errorResponse 404
               ("Failed to get GitHub stats for " +:+ id
                +:+ ": could not get user data: GitHub API returned status: "
                +:+ http.Status resp)),
          mkProcess (world p)
            (net p ++ [EvGet (userURL id);
                       EvClose (http.Body resp)])).
Proof.
  intros Hid Hne Hget Hst. unfold requestHandler. rewrite Hid, (nonempty_length _ Hne).
  unfold fetchStatsData. unfold bindP at 1. unfold bindP at 1.
  rewrite getUserData_eq. rewrite Hget, (status_not_ok _ Hst).
  reflexivity.
Qed.

(** X12.  When the user lookup succeeds and the avatar is downloaded but
    [image.Decode] rejects it, the handler answers 404 with the body
    "Failed to get GitHub stats for <id>: could not get avatar: <error>";
    both bodies are closed, the repositories are never requested and
    nothing is rendered. *)
Theorem requestHandler_undecodable_avatar (ctx : fasthttp.RequestCtx) (p : Process)
    (id : string) (resp1 resp2 : http.Response ReadCloser) (body1 : list Z)
    (user : GitHubUser.t) (err : string) :
  fasthttp.Peek (fasthttp.QueryArgs ctx) "id" = id -> id <> "" ->
  http_Get (length (requests p)) (userURL id) = inl resp1 ->
  http.StatusCode resp1 = http.StatusOK ->
  ioutil_ReadAll (http.Body resp1) = inl body1 ->
  json_Unmarshal_user body1 = inl user ->
  http_Get (S (length (requests p))) (GitHubUser.AvatarURL user) = inl resp2 ->
  http.StatusCode resp2 = http.StatusOK ->
  image_Decode (http.Body resp2) = inr err ->
  requestHandler ctx p =
    Some (fasthttp.mkRequestCtx (fasthttp.QueryArgs ctx)
            (errorResponse 404
               ("Failed to get GitHub stats for " +:+ id
                +:+ ": could not get avatar: " +:+ err)),
          mkProcess (world p)
            (net p ++ [EvGet (userURL id); EvClose (http.Body resp1);
                       EvGet (GitHubUser.AvatarURL user); EvClose (http.Body resp2)])).
Proof.
  intros Hid Hne Hget1 Hst1 Hread Hjson Hget2 Hst2 Hdec.
  unfold requestHandler. rewrite Hid, (nonempty_length _ Hne).
  unfold fetchStatsData. unfold bindP at 1. unfold bindP at 1.
  rewrite getUserData_eq, Hget1, Hst1, Hread, Hjson. cbn [negb Z.eqb].
  change (negb (http.StatusOK =? http.StatusOK)) with false. cbv iota.
  unfold bindP at 1. rewrite getAvatar_eq.
  rewrite (requests_step p (world p) [EvGet (userURL id); EvClose (http.Body resp1)] (userURL id) eq_refl).
  cbn [world net]. rewrite Hget2, Hst2, Hdec.
  change (negb (http.StatusOK =? http.StatusOK)) with false. cbv iota.
  unfold retP. rewrite <- app_assoc. reflexivity.
Qed.

(** X13.  When the user lookup and the avatar download succeed, the handler
    renders the card of the decoded profile with the theme that
    [selectTheme] gives for the [theme] argument: the name is the
    profile's, or the [id] when the profile has none; the star total is
    what [getTotalStars] returned, or 0, after one logged warning, when
    it failed.  The PNG is appended to the body of the response, which
    keeps its status and gets the content type "image/png" and the
    header "Cache-Control: public, max-age=3600, s-maxage=3600"; an
    error of the encoder gives a 500 with the body "Failed to create
    image: <error>". *)
Theorem requestHandler_renders_card (ctx : fasthttp.RequestCtx) (p p3 : Process)
    (id : string) (resp1 resp2 : http.Response ReadCloser) (body1 : list Z)
    (user : GitHubUser.t) (avatar : image.Image) (stars : Z + string) :
  let p2 := mkProcess (world p)
              (net p ++ [EvGet (userURL id); EvClose (http.Body resp1);
                         EvGet (GitHubUser.AvatarURL user); EvClose (http.Body resp2)]) in
  let stats := mkStatsData
                 (if String.eqb (GitHubUser.Name user) "" then id else GitHubUser.Name user)
                 avatar (GitHubUser.Followers user) (GitHubUser.Following user)
                 (GitHubUser.PublicRepos user)
                 (match stars with inl total => total | inr _ => 0 end) in
  let w1 := match stars with
            | inl _ => world p
            | inr err => addEvents (world p)
                           [EvLog ("Warning: could not get stars for " +:+ id
                                   +:+ ": " +:+ err)]
            end in
  let r0 := fasthttp.CtxResponse ctx in
  fasthttp.Peek (fasthttp.QueryArgs ctx) "id" = id -> id <> "" ->
  http_Get (length (requests p)) (userURL id) = inl resp1 ->
  http.StatusCode resp1 = http.StatusOK ->
  ioutil_ReadAll (http.Body resp1) = inl body1 ->
  json_Unmarshal_user body1 = inl user ->
  http_Get (S (length (requests p))) (GitHubUser.AvatarURL user) = inl resp2 ->
  http.StatusCode resp2 = http.StatusOK ->
  image_Decode (http.Body resp2) = inl avatar ->
  getTotalStars (GitHubUser.ReposURL user) p2 = Some (stars, p3) ->
  exists r w',
    createStatsImage stats (selectTheme (fasthttp.Peek (fasthttp.QueryArgs ctx) "theme")) w1
      = Some (r, w') /\
    requestHandler ctx p =
      Some (fasthttp.mkRequestCtx (fasthttp.QueryArgs ctx)
              match r with
              | inl png =>
                  fasthttp.mkResponse (fasthttp.StatusCode r0) "image/png"
                    (<["Cache-Control" := "public, max-age=3600, s-maxage=3600"]>
                       (fasthttp.Header r0))
                    (fasthttp.Body r0 ++ png)
              | inr err => errorResponse 500 ("Failed to create image: " +:+ err)
              end,
            mkProcess w' (net p3)).
Proof.
  intros p2 stats w1 r0 Hid Hne Hget1 Hst1 Hread Hjson Hget2 Hst2 Hdec Hstars.
  destruct (createStatsImage_cache stats
              (selectTheme (fasthttp.Peek (fasthttp.QueryArgs ctx) "theme")) w1)
    as (r & w' & Hc & _).
  exists r, w'. split; [exact Hc |].
  assert (Hw3 : world p3 = world p).
  { destruct (getTotalStars_shape (GitHubUser.ReposURL user) p2) as (r3 & e3 & H3 & _).
    rewrite Hstars in H3. injection H3 as _ ->. reflexivity. }
  unfold requestHandler. rewrite Hid, (nonempty_length _ Hne).
  unfold fetchStatsData. unfold bindP at 1. unfold bindP at 1.
  rewrite getUserData_eq, Hget1, Hst1, Hread, Hjson.
  change (negb (http.StatusOK =? http.StatusOK)) with false. cbv iota.
  unfold bindP at 1. rewrite getAvatar_eq.
  rewrite (requests_step p (world p) [EvGet (userURL id); EvClose (http.Body resp1)] (userURL id) eq_refl).
  cbn [world net]. rewrite Hget2, Hst2, Hdec.
  change (negb (http.StatusOK =? http.StatusOK)) with false. cbv iota.
  rewrite <- app_assoc. cbn [app]. fold p2.
  unfold bindP at 1. rewrite Hstars.
  destruct stars as [total | err].
  - unfold bindP at 1. unfold retP at 1. unfold retP at 1.
    unfold bindP, liftM. rewrite Hw3. fold stats. change (world p) with w1. rewrite Hc.
    destruct r; reflexivity.
  - unfold bindP at 1. unfold bindP at 1. unfold liftM at 1, logPrintf, emit.
    rewrite Hw3. unfold retP at 1. unfold retP at 1.
    unfold bindP, liftM. cbn [world net]. fold stats.
    change (mkWorld (fontCache (world p)) (next_addr (world p)) (trace (world p) ++ _)) with w1.
    rewrite Hc. destruct r; reflexivity.
Qed.

(** X14.  Once the user lookup and the avatar download have succeeded,
    [fetchStatsData] succeeds whatever [getTotalStars] returns: the
    statistics carry the profile's counters and the avatar, the
    profile's name or, when that is empty, the user name; the star total
    is the one returned, or 0 with one logged warning when the
    repository listing failed. *)
Theorem fetchStatsData_stars_optional (username : string) (p p1 p2 : Process)
    (user : GitHubUser.t) (avatar : image.Image) :
  getUserData username p = Some (inl user, p1) ->
  getAvatar (GitHubUser.AvatarURL user) p1 = Some (inl avatar, p2) ->
  exists stars p3 stats p',
    getTotalStars (GitHubUser.ReposURL user) p2 = Some (stars, p3) /\
    fetchStatsData username p = Some (inl stats, p') /\
    net p' = net p3 /\
    Name stats = (if String.eqb (GitHubUser.Name user) "" then username
                  else GitHubUser.Name user) /\
    Avatar stats = avatar /\
    Followers stats = GitHubUser.Followers user /\
    Following stats = GitHubUser.Following user /\
    PublicRepos stats = GitHubUser.PublicRepos user /\
    match stars with
    | inl total => TotalStars stats = total /\ world p' = world p3
    | inr err =>
        TotalStars stats = 0 /\
        world p' = addEvents (world p3)
                     [EvLog ("Warning: could not get stars for " +:+ username
                             +:+ ": " +:+ err)]
    end.
Proof.
  intros Huser Havatar.
  destruct (getTotalStars_shape (GitHubUser.ReposURL user) p2) as (stars & e3 & H3 & _).
  exists stars. eexists.
  unfold fetchStatsData. unfold bindP at 1. rewrite Huser.
  unfold bindP at 1. rewrite Havatar. unfold bindP at 1. rewrite H3.
  destruct stars as [total | err].
  - eexists _, _. split; [reflexivity |]. split; [reflexivity |].
    cbn. repeat split; reflexivity.
  - eexists _, _. split; [reflexivity |]. split; [reflexivity |].
    cbn. repeat split; reflexivity.
Qed.

(** What [requestHandler] does to the renderer: nothing when it answers
    400 or 404, and otherwise one render, after at most one log line. *)
Lemma requestHandler_world (ctx : fasthttp.RequestCtx) (p : Process) :
  exists ctx' p',
    requestHandler ctx p = Some (ctx', p') /\
    ((exists code msg,
        ctx' = fasthttp.mkRequestCtx (fasthttp.QueryArgs ctx) (errorResponse code msg) /\
        (code = 400 \/ code = 404) /\ world p' = world p) \/
     (exists stats theme w1 r,
        (w1 = world p \/ exists msg, w1 = addEvents (world p) [EvLog msg]) /\
        createStatsImage stats theme w1 = Some (r, world p') /\
        match r with
        | inl png => fasthttp.ContentType (fasthttp.CtxResponse ctx') = "image/png"
        | inr err => fasthttp.StatusCode (fasthttp.CtxResponse ctx') = 500
        end)).
Proof.
  unfold requestHandler.
  destruct (fasthttp.Peek (fasthttp.QueryArgs ctx) "id") as [|c id'] eqn:Hid.
  - eexists _, p. cbn [String.length Nat.eqb]. split; [reflexivity |].
    left. eexists _, _. split; [reflexivity |]. split; [left; reflexivity | reflexivity].
  - cbn [String.length Nat.eqb]. set (id := String c id') in *.
    destruct (fetchStatsData_shape id p) as (r & evs & w' & Hf & _ & _ & Hw & Herr).
    unfold bindP at 1. rewrite Hf.
    destruct r as [stats | err].
    + destruct (createStatsImage_cache stats
                  (selectTheme (fasthttp.Peek (fasthttp.QueryArgs ctx) "theme")) w')
        as (png & w'' & Hc & _).
      unfold bindP, liftM. cbn [world net]. rewrite Hc.
      destruct png as [buf | err]; eexists _, _; (split; [reflexivity |]); right;
        eexists stats, _, w', _; (split; [exact Hw |]); (split; [exact Hc |]); reflexivity.
    + eexists _, _. split; [reflexivity |]. left. eexists _, _.
      split; [reflexivity |]. split; [right; reflexivity |].
      cbn [world]. apply (Herr err). reflexivity.
Qed.

(** X15.  On a context whose response still has status 200, an answer of 400
    or 404 has not touched the renderer: no file was read, no face
    allocated or cached, nothing drawn and nothing logged. *)
Theorem requestHandler_failure_renders_nothing (ctx : fasthttp.RequestCtx) (p : Process) :
  fasthttp.StatusCode (fasthttp.CtxResponse ctx) = fasthttp.StatusOK ->
  exists ctx' p',
    requestHandler ctx p = Some (ctx', p') /\
    (fasthttp.StatusCode (fasthttp.CtxResponse ctx') = 400 \/
     fasthttp.StatusCode (fasthttp.CtxResponse ctx') = 404 ->
     world p' = world p).
Proof.
  intros Hfresh.
  destruct (requestHandler_shape ctx p)
    as (ctx' & p' & evs & Hr & _ & _ & _ & _ & _ & Hclass).
  destruct (requestHandler_world ctx p) as (ctx2 & p2 & Hr2 & Hworld).
  rewrite Hr in Hr2. injection Hr2 as <- <-.
  exists ctx', p'. split; [exact Hr |]. intros Hcode.
  destruct Hworld as [(code & msg & _ & _ & Hw) | (stats & theme & w1 & r & _ & _ & Hr')];
    [exact Hw |].
  exfalso.
  destruct Hclass as [(code & msg & -> & Hc) | (png & _ & ->)].
  - destruct r as [png | err]; cbn in Hr', Hcode; [discriminate Hr' | lia].
  - cbn in Hcode. rewrite Hfresh in Hcode. unfold fasthttp.StatusOK in Hcode. lia.
Qed.

(** X16.  Once the sizes 72 and 48 are in [fontCache], serving a request,
    whatever its arguments and whatever the network answers, reads no
    file, allocates no face and leaves the cache as it is. *)
Theorem requestHandler_warm_cache_no_disk (ctx : fasthttp.RequestCtx) (p : Process) :
  is_Some (fontCache (world p) !! 72) ->
  is_Some (fontCache (world p) !! 48) ->
  exists ctx' p',
    requestHandler ctx p = Some (ctx', p') /\
    reads (world p') = reads (world p) /\
    fontCache (world p') = fontCache (world p) /\
    next_addr (world p') = next_addr (world p).
Proof.
  intros H72 H48.
  destruct (requestHandler_world ctx p) as (ctx' & p' & Hr & Hworld).
  exists ctx', p'. split; [exact Hr |].
  destruct Hworld as [(code & msg & _ & _ & ->) | (stats & theme & w1 & r & Hw1 & Hc & _)];
    [auto |].
  assert (Hsame : fontCache w1 = fontCache (world p) /\ next_addr w1 = next_addr (world p) /\
                  reads w1 = reads (world p)).
  { destruct Hw1 as [-> | (msg & ->)]; [auto |].
    split; [reflexivity |]. split; [reflexivity |].
    rewrite reads_addEvents. cbn [omap]. apply app_nil_r. }
  destruct Hsame as (Hcache & Haddr & Hreads).
  destruct (createStatsImage_cached stats theme w1) as (r' & w' & Hc' & C & A & R & _).
  { rewrite Hcache. exact H72. }
  { rewrite Hcache. exact H48. }
  rewrite Hc in Hc'. injection Hc' as _ <-.
  rewrite R, C, A. auto.
Qed.

(** X17.  [requestHandler] never panics, and on every path the bodies it has
    closed when it returns are exactly the bodies of the responses it
    received, in the order it received them. *)
Theorem requestHandler_closes_every_body (ctx : fasthttp.RequestCtx) (p : Process) :
  exists ctx' p' evs,
    requestHandler ctx p = Some (ctx', p') /\
    net p' = net p ++ evs /\
    closes evs = opens (length (requests p)) evs.
Proof.
  destruct (requestHandler_shape ctx p) as (ctx' & p' & evs & Hr & Hn & Hb & _).
  exists ctx', p', evs. auto.
Qed.

(** X18.  One call of [requestHandler] calls [http.Get] at most three
    times (a call that the client answers by following redirects, or
    fails before sending, is one call): not at all when the [id] is
    missing or empty, and otherwise first with
    "https://api.github.com/users/" followed by the [id] as given. *)
Theorem requestHandler_request_budget (ctx : fasthttp.RequestCtx) (p : Process) :
  exists ctx' p' urls,
    requestHandler ctx p = Some (ctx', p') /\
    gets (net p') = gets (net p) ++ urls /\
    (length urls <= 3)%nat /\
    (fasthttp.Peek (fasthttp.QueryArgs ctx) "id" = "" -> urls = []) /\
    (fasthttp.Peek (fasthttp.QueryArgs ctx) "id" <> "" ->
     exists rest,
       urls = userURL (fasthttp.Peek (fasthttp.QueryArgs ctx) "id") :: rest).
Proof.
  destruct (requestHandler_shape ctx p)
    as (ctx' & p' & evs & Hr & Hn & _ & Hc & Hmissing & Hfirst & _).
  exists ctx', p', (gets evs). split; [exact Hr |].
  split; [unfold gets; rewrite Hn; apply omap_app |].
  split; [exact Hc |]. split; [| exact Hfirst].
  intros Hid. destruct (Hmissing Hid) as [-> _]. reflexivity.
Qed.

(** X19.  Every answer of [requestHandler] is either an error (status 400,
    404 or 500, plain text, all headers reset, hence no [Cache-Control])
    or the image: the status the context had, content type "image/png",
    [Cache-Control] set to one hour, and the PNG appended to the body. *)
Theorem requestHandler_errors_not_cacheable (ctx : fasthttp.RequestCtx) (p : Process) :
  exists ctx' p',
    requestHandler ctx p = Some (ctx', p') /\
    fasthttp.QueryArgs ctx' = fasthttp.QueryArgs ctx /\
    let r := fasthttp.CtxResponse ctx' in
    let r0 := fasthttp.CtxResponse ctx in
    ((fasthttp.StatusCode r = 400 \/ fasthttp.StatusCode r = 404 \/ fasthttp.StatusCode r = 500) /\
     fasthttp.ContentType r = "text/plain; charset=utf-8" /\
     fasthttp.Header r = ∅) \/
    (fasthttp.StatusCode r = fasthttp.StatusCode r0 /\
     fasthttp.ContentType r = "image/png" /\
     fasthttp.Header r =
       <["Cache-Control" := "public, max-age=3600, s-maxage=3600"]> (fasthttp.Header r0) /\
     exists png, fasthttp.Body r = fasthttp.Body r0 ++ png).
Proof.
  destruct (requestHandler_shape ctx p)
    as (ctx' & p' & evs & Hr & _ & _ & _ & _ & _ & Hclass).
  exists ctx', p'. split; [exact Hr |].
  destruct Hclass as [(code & msg & -> & Hcode) | (png & _ & ->)].
  - split; [reflexivity |]. left. cbn.
    split; [destruct Hcode as [[-> _] | [[-> | ->] _]]; auto | auto].
  - split; [reflexivity |]. right. cbn. eauto.
Qed.

End ServerFacts.


(* ===================================================================== *)
(** * Part IV: the statements at sample inputs                             *)
(* ===================================================================== *)

(** ** [resizeImage] *)

Lemma gradient_112_is_bitmap : Bitmap (gradient 112 1).
Proof. repeat split; vm_compute; intro Hc; discriminate Hc. Defined.

Lemma int_160 : 1 <= 160 <= Int.MaxInt.
Proof. split; vm_compute; intro Hc; discriminate Hc. Defined.

Lemma int_1 : 1 <= 1 <= Int.MaxInt.
Proof. split; vm_compute; intro Hc; discriminate Hc. Defined.

Lemma int_huge : 1 <= 2 ^ 30 <= Int.MaxInt.
Proof. split; vm_compute; intro Hc; discriminate Hc. Defined.

Lemma fits_160_1 : 4 * 160 * 1 <= image.maxAlloc.
Proof. vm_compute; intro Hc; discriminate Hc. Defined.

Lemma huge_does_not_fit : image.maxAlloc < 4 * 2 ^ 30 * 2 ^ 30.
Proof. reflexivity. Defined.

Lemma target_160_1 : Target 160 1.
Proof. repeat split; vm_compute; intro Hc; discriminate Hc. Defined.

(** A 112-pixel row resampled to 160 pixels: destination pixel 90 is
    source pixel 62, where [floor(90 * 112 / 160)] is 63.  And a target
    of [2 ^ 30 x 2 ^ 30] pixels is positive, but its buffer of [2 ^ 62]
    bytes makes [image.NewRGBA] panic. *)
Lemma resizeImage_not_floor_sampling :
  ~ floor_sampling (gradient 112 1) 160 1 /\
  ~ floor_sampling (gradient 112 1) (2 ^ 30) (2 ^ 30).
Proof.
  split.
  - intros (dst & Hres & _ & Hpix).
    vm_compute in Hres. injection Hres as <-.
    specialize (Hpix 90 0 ltac:(lia) ltac:(lia)).
    vm_compute in Hpix. discriminate Hpix.
  - intros (dst & Hres & _).
    rewrite (resizeImage_too_large _ _ _ int_huge int_huge huge_does_not_fit) in Hres.
    discriminate Hres.
Qed.

Lemma resizeImage_float_sampling_gradient :
  (Bitmap (gradient 112 1) /\ 1 <= 160 <= Int.MaxInt /\ 1 <= 1 <= Int.MaxInt /\
   4 * 160 * 1 <= image.maxAlloc /\
   exists dst,
     resizeImage (gradient 112 1) 160 1 = Some dst /\
     image.RGBA_Rect dst = image.mkRectangle (image.mkPoint 0 0) (image.mkPoint 160 1) /\
     image.Stride dst = 4 * 160 /\
     Z.of_nat (length (image.Pix dst)) = 4 * 160 * 1 /\
     forall x y, 0 <= x < 160 -> 0 <= y < 1 ->
       let sx := sampleCoord x (width (gradient 112 1)) 160 in
       let sy := sampleCoord y (height (gradient 112 1)) 1 in
       0 <= sx <= width (gradient 112 1) - 1 /\
       0 <= sy <= height (gradient 112 1) - 1 /\
       image.RGBAAt dst x y =
         color.quantize
           (image.At (gradient 112 1)
              (image.X (image.Min (image.Bounds (gradient 112 1))) + sx)
              (image.Y (image.Min (image.Bounds (gradient 112 1))) + sy)) /\
       (width (gradient 112 1) * 160 <= 2 ^ 51 ->
        claimedCoord x (width (gradient 112 1)) 160 - 1 <= sx
          <= claimedCoord x (width (gradient 112 1)) 160 /\
        ((x * width (gradient 112 1)) mod 160 <> 0 ->
         sx = claimedCoord x (width (gradient 112 1)) 160)) /\
       (height (gradient 112 1) * 1 <= 2 ^ 51 ->
        claimedCoord y (height (gradient 112 1)) 1 - 1 <= sy
          <= claimedCoord y (height (gradient 112 1)) 1 /\
        ((y * height (gradient 112 1)) mod 1 <> 0 ->
         sy = claimedCoord y (height (gradient 112 1)) 1))) /\
  (1 <= 2 ^ 30 <= Int.MaxInt /\ image.maxAlloc < 4 * 2 ^ 30 * 2 ^ 30 /\
   resizeImage (gradient 112 1) (2 ^ 30) (2 ^ 30) = None).
Proof.
  split.
  - split; [exact gradient_112_is_bitmap |].
    split; [exact int_160 |]. split; [exact int_1 |]. split; [exact fits_160_1 |].
    exact (proj2 (resizeImage_float_sampling (gradient 112 1) 160 1
                    gradient_112_is_bitmap int_160 int_1) fits_160_1).
  - split; [exact int_huge |]. split; [exact huge_does_not_fit |].
    exact (proj1 (resizeImage_float_sampling (gradient 112 1) (2 ^ 30) (2 ^ 30)
                    gradient_112_is_bitmap int_huge int_huge) huge_does_not_fit).
Defined.

Lemma translucent_dot_is_bitmap : Bitmap (dot (color.OfNRGBA 200 100 50 128)).
Proof. repeat split; vm_compute; intro Hc; discriminate Hc. Defined.

Lemma blue_dot_is_bitmap : Bitmap (dot (rgb 0 0 255 255)).
Proof. repeat split; vm_compute; intro Hc; discriminate Hc. Defined.

(** A [1 x 1] source whose pixel is the half-transparent
    [color.NRGBA{200, 100, 50, 128}], copied at the same size: the
    output pixel holds [(100, 50, 25, 128)], the premultiplied channels,
    which is not a pixel of the source.  And no pixel at all comes out
    of a target of [2 ^ 30 x 2 ^ 30]. *)
Lemma resizeImage_not_verbatim :
  ~ copies_verbatim (dot (color.OfNRGBA 200 100 50 128)) 1 1 /\
  ~ copies_verbatim (dot (rgb 0 0 255 255)) (2 ^ 30) (2 ^ 30).
Proof.
  split.
  - intros (dst & Hres & Hpix).
    vm_compute in Hres. injection Hres as <-.
    destruct (Hpix 0 0 ltac:(lia) ltac:(lia)) as (u & v & _ & Heq).
    vm_compute in Heq. discriminate Heq.
  - intros (dst & Hres & _).
    rewrite (resizeImage_too_large _ _ _ int_huge int_huge huge_does_not_fit) in Hres.
    discriminate Hres.
Qed.

Lemma resizeImage_copies_source_pixels_gradient :
  (Bitmap (gradient 112 1) /\ 1 <= 160 <= Int.MaxInt /\ 1 <= 1 <= Int.MaxInt /\
   4 * 160 * 1 <= image.maxAlloc /\
   exists dst,
     resizeImage (gradient 112 1) 160 1 = Some dst /\
     forall x y, 0 <= x < 160 -> 0 <= y < 1 ->
       exists u v,
         image.In (image.mkPoint u v) (image.Bounds (gradient 112 1)) = true /\
         image.RGBAAt dst x y = color.quantize (image.At (gradient 112 1) u v) /\
         (forall c, image.At (gradient 112 1) u v = color.OfRGBA c -> RGBA8 c ->
                    image.RGBAAt dst x y = c) /\
         (forall r g b, image.At (gradient 112 1) u v = color.OfNRGBA r g b 255 ->
                        byte r -> byte g -> byte b ->
                        image.RGBAAt dst x y = color.mkRGBA r g b 255)) /\
  (Bitmap (dot (color.OfNRGBA 200 100 50 128)) /\
   image.maxAlloc < 4 * 2 ^ 30 * 2 ^ 30 /\
   resizeImage (dot (color.OfNRGBA 200 100 50 128)) (2 ^ 30) (2 ^ 30) = None).
Proof.
  split.
  - split; [exact gradient_112_is_bitmap |].
    split; [exact int_160 |]. split; [exact int_1 |]. split; [exact fits_160_1 |].
    exact (proj2 (resizeImage_copies_source_pixels (gradient 112 1) 160 1
                    gradient_112_is_bitmap int_160 int_1) fits_160_1).
  - split; [exact translucent_dot_is_bitmap |]. split; [exact huge_does_not_fit |].
    exact (proj1 (resizeImage_copies_source_pixels (dot (color.OfNRGBA 200 100 50 128))
                    (2 ^ 30) (2 ^ 30) translucent_dot_is_bitmap int_huge int_huge)
             huge_does_not_fit).
Defined.

Lemma int_3 : 1 <= 3 <= Int.MaxInt.
Proof. split; vm_compute; intro Hc; discriminate Hc. Defined.

Lemma int_2 : 1 <= 2 <= Int.MaxInt.
Proof. split; vm_compute; intro Hc; discriminate Hc. Defined.

Lemma fits_3_2 : 4 * 3 * 2 <= image.maxAlloc.
Proof. vm_compute; intro Hc; discriminate Hc. Defined.

(** A blue dot blown up to [2 ^ 30 x 2 ^ 30]: a positive target for
    which no bitmap is returned. *)
Lemma resizeImage_single_pixel_source_too_large :
  ~ uniform_resample (dot (rgb 0 0 255 255)) (2 ^ 30) (2 ^ 30).
Proof.
  intros (dst & Hres & _).
  rewrite (resizeImage_too_large _ _ _ int_huge int_huge huge_does_not_fit) in Hres.
  discriminate Hres.
Qed.

Lemma resizeImage_single_pixel_source_blue :
  (Bitmap (dot (rgb 0 0 255 255)) /\
   width (dot (rgb 0 0 255 255)) = 1 /\ height (dot (rgb 0 0 255 255)) = 1 /\
   1 <= 3 <= Int.MaxInt /\ 1 <= 2 <= Int.MaxInt /\ 4 * 3 * 2 <= image.maxAlloc /\
   exists dst,
     resizeImage (dot (rgb 0 0 255 255)) 3 2 = Some dst /\
     image.RGBA_Rect dst = image.mkRectangle (image.mkPoint 0 0) (image.mkPoint 3 2) /\
     Z.of_nat (length (image.Pix dst)) = 4 * 3 * 2 /\
     forall x y, 0 <= x < 3 -> 0 <= y < 2 ->
       image.RGBAAt dst x y =
         color.quantize
           (image.At (dot (rgb 0 0 255 255))
              (image.X (image.Min (image.Bounds (dot (rgb 0 0 255 255)))))
              (image.Y (image.Min (image.Bounds (dot (rgb 0 0 255 255))))))) /\
  (image.maxAlloc < 4 * 2 ^ 30 * 2 ^ 30 /\
   resizeImage (dot (rgb 0 0 255 255)) (2 ^ 30) (2 ^ 30) = None).
Proof.
  split.
  - split; [exact blue_dot_is_bitmap |].
    split; [reflexivity |]. split; [reflexivity |].
    split; [exact int_3 |]. split; [exact int_2 |]. split; [exact fits_3_2 |].
    exact (proj2 (resizeImage_single_pixel_source (dot (rgb 0 0 255 255)) 3 2
                    blue_dot_is_bitmap eq_refl eq_refl int_3 int_2) fits_3_2).
  - split; [exact huge_does_not_fit |].
    exact (proj1 (resizeImage_single_pixel_source (dot (rgb 0 0 255 255)) (2 ^ 30) (2 ^ 30)
                    blue_dot_is_bitmap eq_refl eq_refl int_huge int_huge)
             huge_does_not_fit).
Defined.

(** ** [getFontFace] *)

(** With only DejaVu installed the first resolution of 48pt reads four
    files, not one. *)
Lemma getFontFace_reads_four_files :
  ~ @reads_exactly_once rawFonts dejavuOnly 48 world0.
Proof.
  intros Hclaim.
  edestruct Hclaim as (w2 & Hsecond & Hcount); [vm_compute; reflexivity |].
  vm_compute in Hsecond. injection Hsecond as <-.
  vm_compute in Hcount. discriminate Hcount.
Qed.

(** With an unparsable first candidate, two of the four files read are
    read successfully. *)
Lemma getFontFace_reads_two_files_in_full :
  exists face w1,
    @getFontFace rawFonts emptyInconsolata 48 world0 = Some (Some face, w1) /\
    @reads rawFonts w1 = take 4 fontPaths /\
    filter (fun p => is_Some (@ReadFile rawFonts emptyInconsolata p)) (@reads rawFonts w1) =
      [ "/usr/share/fonts/truetype/inconsolata/Inconsolata.ttf";
        "/usr/share/fonts/truetype/dejavu/DejaVuSansMono.ttf" ].
Proof. eexists _, _. split; [vm_compute; reflexivity |]. split; reflexivity. Qed.

Lemma getFontFace_second_is_cached_dejavu :
  exists face w1,
    @getFontFace rawFonts dejavuOnly 48 world0 = Some (Some face, w1) /\
    (@getFontFace rawFonts dejavuOnly 48 w1 = Some (Some face, w1) /\
     fontCache w1 !! 48 = Some face /\
     ((fontCache (@world0 rawFonts) !! 48 = Some face /\ w1 = world0) \/
      (fontCache (@world0 rawFonts) !! 48 = None /\
       exists k font,
         @firstUsable rawFonts dejavuOnly 48 fontPaths = Some (k, font) /\
         face = mkFace (next_addr (@world0 rawFonts)) font (faceOptions 48) /\
         @reads rawFonts w1 = @reads rawFonts world0 ++ take (S k) fontPaths /\
         length (@reads rawFonts w1) = (length (@reads rawFonts world0) + S k)%nat))).
Proof.
  eexists _, _. split; [vm_compute; reflexivity |].
  apply (@getFontFace_second_is_cached rawFonts dejavuOnly 48 world0).
  vm_compute. reflexivity.
Defined.

Lemma newFace_never_fails :
  forall (f : @Font rawFonts) (o : opentype.FaceOptions), @NewFace_ok rawFonts f o = true.
Proof. intros f o. reflexivity. Defined.

Lemma getFontFace_miss_first_loadable_dejavu :
  (forall (f : @Font rawFonts) (o : opentype.FaceOptions), @NewFace_ok rawFonts f o = true) /\
  fontCache (@world0 rawFonts) !! 48 = None /\
  exists face w',
    @getFontFace rawFonts dejavuOnly 48 world0 = Some (Some face, w') /\
    face_font face = [0; 1; 0; 0] /\
    face_opts face = opentype.mkFaceOptions (Float64.of_int 48) (Float64.of_int 72) /\
    fontCache w' = <[48 := face]> (fontCache (@world0 rawFonts)) /\
    @reads rawFonts w' = @reads rawFonts world0 ++ take 4 fontPaths.
Proof.
  split; [exact newFace_never_fails |]. split; [reflexivity |].
  apply (proj1 (@getFontFace_miss_first_loadable rawFonts dejavuOnly 48 world0
                  newFace_never_fails eq_refl)
           3%nat "/usr/share/fonts/truetype/dejavu/DejaVuSansMono.ttf" [0; 1; 0; 0]).
  - reflexivity.
  - reflexivity.
  - intros j p Hj Hp.
    destruct j as [|[|[|j]]]; [| | | lia]; vm_compute in Hp; injection Hp as <-; reflexivity.
Defined.

Lemma no_candidate_without_fonts (size : Z) :
  forall p, p ∈ fontPaths -> @candidate rawFonts noFonts size p = None.
Proof. intros p _. reflexivity. Defined.

Lemma getFontFace_failure_not_cached_twice :
  fontCache (@world0 rawFonts) !! 48 = None /\
  (forall p, p ∈ fontPaths -> @candidate rawFonts noFonts 48 p = None) /\
  exists w',
    @resolveTimes rawFonts noFonts 2 48 world0 = Some (replicate 2 None, w') /\
    fontCache w' = fontCache (@world0 rawFonts) /\
    next_addr w' = next_addr (@world0 rawFonts) /\
    @reads rawFonts w' = @reads rawFonts world0 ++ concat (replicate 2 fontPaths).
Proof.
  split; [reflexivity |]. split; [exact (no_candidate_without_fonts 48) |].
  exact (@getFontFace_failure_not_cached rawFonts noFonts 48 2 world0
           eq_refl (no_candidate_without_fonts 48)).
Defined.

(** Two requests on a machine with DejaVu Sans Mono only, in a process
    that has not rendered yet: eight reads, two faces. *)
Lemma getFontFace_concurrent_miss_dejavu :
  fontCache (@world0 rawFonts) !! 48 = None /\
  @firstUsable rawFonts dejavuOnly 48 fontPaths = Some (3%nat, [0; 1; 0; 0]) /\
  let a := @mkFace rawFonts 0%nat [0; 1; 0; 0] (faceOptions 48) in
  let b := @mkFace rawFonts 1%nat [0; 1; 0; 0] (faceOptions 48) in
  (exists w',
     @run rawFonts dejavuOnly [0; 1; 0; 1]%nat [AtLookup 48; AtLookup 48] world0 =
       Some ([Returned (Some a); Returned (Some b)], w') /\
     fontCache w' = <[48 := b]> (fontCache (@world0 rawFonts)) /\
     fontCache w' !! 48 <> Some a /\
     next_addr w' = 2%nat /\
     @reads rawFonts w' = @reads rawFonts world0 ++ take 4 fontPaths ++ take 4 fontPaths) /\
  a <> b /\
  (exists w',
     @run rawFonts dejavuOnly [0; 0; 1; 1]%nat [AtLookup 48; AtLookup 48] world0 =
       Some ([Returned (Some a); Returned (Some a)], w') /\
     fontCache w' = <[48 := a]> (fontCache (@world0 rawFonts)) /\
     next_addr w' = 1%nat /\
     @reads rawFonts w' = @reads rawFonts world0 ++ take 4 fontPaths).
Proof.
  split; [reflexivity |]. split; [reflexivity |].
  exact (@getFontFace_concurrent_miss rawFonts dejavuOnly 48 world0 3%nat [0; 1; 0; 0]
           eq_refl eq_refl).
Defined.

(** ** The card *)

Lemma nothing_resolves_without_fonts (size : Z) :
  ~ @resolves rawFonts noFonts size world0.
Proof.
  intros [[c Hc] | [c Hc]].
  - unfold world0 in Hc. cbn [fontCache] in Hc. rewrite lookup_empty in Hc. discriminate Hc.
  - vm_compute in Hc. discriminate Hc.
Defined.

Lemma mona_avatar_is_bitmap : Bitmap (Avatar mona).
Proof. repeat split; vm_compute; intro Hc; discriminate Hc. Defined.

(** The card of a user with a gradient avatar on a machine without
    fonts: the canvas shows source pixel [(62, 0)] at avatar pixel
    [(90, 0)] and source pixel [(0, 111)] at avatar pixel [(0, 159)],
    the background right of the avatar, and no text. *)
Lemma createStatsImage_without_fonts_mona :
  Bitmap (Avatar mona) /\
  exists canvas w',
    @createStatsImage rawFonts noFonts mona theme_dark world0 =
      Some (@png_Encode rawFonts noFonts canvas, w') /\
    image.RGBA_Rect canvas = canvasRect /\
    Z.of_nat (length (image.Pix canvas)) = 4 * 1200 * 800 /\
    image.RGBAAt canvas 143 53 = color.mkRGBA 62 0 0 255 /\
    image.RGBAAt canvas 53 212 = color.mkRGBA 0 111 0 255 /\
    image.RGBAAt canvas 213 53 = color.quantize (BGColor theme_dark) /\
    image.RGBAAt canvas 0 0 = color.quantize (BGColor theme_dark) /\
    @draws rawFonts w' = [].
Proof.
  split; [exact mona_avatar_is_bitmap |].
  destruct (proj2 (@createStatsImage_without_fonts rawFonts noFonts mona theme_dark world0
                     mona_avatar_is_bitmap))
    as (base & titled & canvas & w1 & w' & _ & Hrect & Hlen & Hpix & _ & _ & Hpng
        & Hno72 & _ & Hno48 & _).
  destruct (Hno72 (nothing_resolves_without_fonts 72)) as (Ht & Hd1).
  destruct (Hno48 (nothing_resolves_without_fonts 48)) as (Hc & Hd2).
  exists canvas, w'. rewrite Hc, Ht.
  split; [rewrite <- Ht, <- Hc; exact Hpng |].
  split; [exact Hrect |]. split; [exact Hlen |].
  split; [rewrite (Hpix 143 53) by lia; reflexivity |].
  split; [rewrite (Hpix 53 212) by lia; reflexivity |].
  split; [rewrite (Hpix 213 53) by lia; reflexivity |].
  split; [rewrite (Hpix 0 0) by lia; reflexivity |].
  rewrite Hd2, Hd1. reflexivity.
Defined.

(** Without fonts nothing is drawn, the four metric labels no more than
    the title. *)
Lemma drawCard_without_fonts_draws_nothing :
  ~ @draws_stat_labels rawFonts noFonts octocat theme_dark world0.
Proof.
  intros (f48 & c0 & w' & pre & Hcard & _ & _ & Hd & _).
  cbv zeta in Hcard, Hd.
  destruct (@drawCard_unresolved rawFonts noFonts octocat theme_dark world0
              (nothing_resolves_without_fonts 72) (nothing_resolves_without_fonts 48))
    as (base & w'' & _ & Hcard' & _ & Hd').
  rewrite Hcard' in Hcard. injection Hcard as _ ->.
  rewrite Hd' in Hd. apply (f_equal length) in Hd.
  rewrite !length_app in Hd. cbn [length] in Hd. lia.
Qed.

Lemma world0_sized : @cacheSized rawFonts world0.
Proof.
  intros size face Hc. unfold world0 in Hc. cbn [fontCache] in Hc.
  rewrite lookup_empty in Hc. discriminate Hc.
Defined.

Lemma dejavu_resolves_48 :
  is_Some (fontCache (@world0 rawFonts) !! 48) \/
  is_Some (@firstUsable rawFonts dejavuOnly 48 fontPaths).
Proof. right. exists (3%nat, [0; 1; 0; 0]). reflexivity. Defined.

Lemma drawCard_stat_labels_octocat :
  @resolves rawFonts dejavuOnly 48 world0 /\
  exists f48 c0 w' pre,
    let stat := image.Uniform (StatsColor theme_dark) in
    let s1 := "Followers: " +:+ pretty (Followers octocat) in
    let s2 := "Following: " +:+ pretty (Following octocat) in
    let s3 := "Public Repos: " +:+ pretty (PublicRepos octocat) in
    let s4 := "Total Stars: " +:+ pretty (TotalStars octocat) in
    let d1 := mkDrawer c0 stat f48 (mkPoint26_6 (53 * 64) (293 * 64)) in
    let d2 := mkDrawer (@DrawString rawFonts dejavuOnly d1 s1) stat f48
                (mkPoint26_6 (640 * 64) (293 * 64)) in
    let d3 := mkDrawer (@DrawString rawFonts dejavuOnly d2 s2) stat f48
                (mkPoint26_6 (53 * 64) ((293 + 67) * 64)) in
    let d4 := mkDrawer (@DrawString rawFonts dejavuOnly d3 s3) stat f48
                (mkPoint26_6 (640 * 64) ((293 + 67) * 64)) in
    @drawCard rawFonts dejavuOnly octocat theme_dark world0 =
      Some (@DrawString rawFonts dejavuOnly d4 s4, w') /\
    fontCache w' !! 48 = Some f48 /\
    face_opts f48 = opentype.mkFaceOptions (Float64.of_int 48) (Float64.of_int 72) /\
    @draws rawFonts w' =
      @draws rawFonts world0 ++ pre ++ [(d1, s1); (d2, s2); (d3, s3); (d4, s4)] /\
    (length pre <= 1)%nat.
Proof.
  split; [exact dejavu_resolves_48 |].
  destruct (@drawCard_stat_labels rawFonts dejavuOnly octocat theme_dark world0
              dejavu_resolves_48)
    as (f48 & c0 & w' & pre & Hcard & Hcache & Hsize & Hdraws & Hpre).
  exists f48, c0, w', pre.
  split; [exact Hcard |]. split; [exact Hcache |].
  split; [exact (Hsize world0_sized) |]. split; [exact Hdraws | exact Hpre].
Defined.

(** ** [resizeImage]: exact ratios, order, enlarging, degenerate targets *)

Lemma target_56_1 : Target 56 1.
Proof. repeat split; vm_compute; intro Hc; discriminate Hc. Defined.

Lemma resizeImage_integer_ratio_halved :
  exists dst,
    resizeImage (gradient 112 1) 56 1 = Some dst /\
    image.RGBA_Rect dst = image.mkRectangle (image.mkPoint 0 0) (image.mkPoint 56 1) /\
    forall x y, 0 <= x < 56 -> 0 <= y < 1 ->
      image.RGBAAt dst x y =
        color.quantize
          (image.At (gradient 112 1)
             (image.X (image.Min (image.Bounds (gradient 112 1))) + x * 2)
             (image.Y (image.Min (image.Bounds (gradient 112 1))) + y * 1)).
Proof.
  exact (resizeImage_integer_ratio (gradient 112 1) 56 1 2 1
           gradient_112_is_bitmap target_56_1 eq_refl eq_refl).
Defined.

Lemma sampleCoord_monotone_89_90 : sampleCoord 89 112 160 <= sampleCoord 90 112 160.
Proof.
  apply sampleCoord_monotone; lia.
Defined.

Lemma resizeImage_enlarging_keeps_every_pixel_gradient :
  exists dst,
    resizeImage (gradient 112 1) 160 1 = Some dst /\
    forall u v, 0 <= u < width (gradient 112 1) -> 0 <= v < height (gradient 112 1) ->
      exists x y, 0 <= x < 160 /\ 0 <= y < 1 /\
        image.RGBAAt dst x y =
          color.quantize
            (image.At (gradient 112 1)
               (image.X (image.Min (image.Bounds (gradient 112 1))) + u)
               (image.Y (image.Min (image.Bounds (gradient 112 1))) + v)).
Proof.
  apply (resizeImage_enlarging_keeps_every_pixel (gradient 112 1) 160 1
           gradient_112_is_bitmap target_160_1);
    intro Hc; vm_compute in Hc; discriminate Hc.
Defined.


Lemma stripes_is_bitmap : Bitmap (stripes 4 1).
Proof. repeat split; vm_compute; intro Hc; discriminate Hc. Defined.

Lemma target_4_1 : Target 4 1.
Proof. repeat split; vm_compute; intro Hc; discriminate Hc. Defined.

(** Four striped pixels copied at the same size: the opaque columns 0
    and 2 keep their bytes, the transparent columns 1 and 3 come out as
    transparent black. *)
Lemma resizeImage_nrgba_pixels_stripes :
  exists dst,
    resizeImage (stripes 4 1) 4 1 = Some dst /\
    image.RGBAAt dst 0 0 = color.mkRGBA 200 100 50 255 /\
    image.RGBAAt dst 1 0 = blank /\
    image.RGBAAt dst 2 0 = color.mkRGBA 200 100 50 255 /\
    image.RGBAAt dst 3 0 = blank.
Proof.
  destruct (resizeImage_nrgba_pixels (stripes 4 1) 4 1 stripes_is_bitmap target_4_1)
    as (dst & Hres & Hpix).
  exists dst. split; [exact Hres |].
  split; [| split; [| split]].
  - apply (proj1 (Hpix 0 0 200 100 50 ltac:(lia) ltac:(lia)));
      (unfold byte; lia) || reflexivity.
  - apply (proj2 (Hpix 1 0 200 100 50 ltac:(lia) ltac:(lia))). reflexivity.
  - apply (proj1 (Hpix 2 0 200 100 50 ltac:(lia) ltac:(lia)));
      (unfold byte; lia) || reflexivity.
  - apply (proj2 (Hpix 3 0 200 100 50 ltac:(lia) ltac:(lia))). reflexivity.
Defined.

(** ** The card and the font cache *)

Lemma dejavu_resolves (size : Z) : @resolves rawFonts dejavuOnly size world0.
Proof. right. exists (3%nat, [0; 1; 0; 0]). reflexivity. Defined.

Lemma createStatsImage_second_render_reads_nothing_dejavu :
  exists r1 w1 r2 w2,
    @createStatsImage rawFonts dejavuOnly octocat theme_dark world0 = Some (r1, w1) /\
    @createStatsImage rawFonts dejavuOnly octocat theme_light w1 = Some (r2, w2) /\
    @reads rawFonts w2 = @reads rawFonts w1 /\
    @logs rawFonts w2 = @logs rawFonts w1 /\
    fontCache w2 = fontCache w1 /\
    next_addr w2 = next_addr w1.
Proof.
  exact (@createStatsImage_second_render_reads_nothing rawFonts dejavuOnly
           octocat octocat theme_dark theme_light world0
           (dejavu_resolves 72) (dejavu_resolves 48)).
Defined.

Lemma createStatsImage_without_fonts_rescans_octocat :
  exists r w',
    @createStatsImage rawFonts noFonts octocat theme_dark world0 = Some (r, w') /\
    fontCache w' = fontCache (@world0 rawFonts) /\
    @reads rawFonts w' = @reads rawFonts world0 ++ concat (replicate 5 fontPaths) /\
    @logs rawFonts w' = @logs rawFonts world0 ++
      [ notFoundMsg; skipMsg (Name octocat);
        notFoundMsg; skipMsg ("Followers: " +:+ pretty (Followers octocat));
        notFoundMsg; skipMsg ("Following: " +:+ pretty (Following octocat));
        notFoundMsg; skipMsg ("Public Repos: " +:+ pretty (PublicRepos octocat));
        notFoundMsg; skipMsg ("Total Stars: " +:+ pretty (TotalStars octocat)) ].
Proof.
  exact (@createStatsImage_without_fonts_rescans rawFonts noFonts octocat theme_dark world0
           eq_refl eq_refl (no_candidate_without_fonts 72) (no_candidate_without_fonts 48)).
Defined.

(** ** The handler on a sample network *)

Section OnGitHub.

#[local] Existing Instance rawFonts.
#[local] Existing Instance dejavuOnly.
#[local] Existing Instance github.

Lemma getTotalStars_sums_stars_octocat :
  getTotalStars "https://api.github.com/users/octocat/repos" process0 =
    Some (inl (Int.wrap 64 (starTotal [GitHubRepo.mk 80; GitHubRepo.mk 3; GitHubRepo.mk 0])),
          mkProcess (world process0)
            (net process0 ++
             [EvGet (reposPage "https://api.github.com/users/octocat/repos");
              EvClose (5%nat : @ReadCloser github)])) /\
  (Forall (fun r => 0 <= GitHubRepo.StargazersCount r)
          [GitHubRepo.mk 80; GitHubRepo.mk 3; GitHubRepo.mk 0] ->
   starTotal [GitHubRepo.mk 80; GitHubRepo.mk 3; GitHubRepo.mk 0] <= Int.MaxInt ->
   Int.wrap 64 (starTotal [GitHubRepo.mk 80; GitHubRepo.mk 3; GitHubRepo.mk 0]) = 83).
Proof.
  exact (getTotalStars_sums_stars "https://api.github.com/users/octocat/repos" process0
           (http.mkResponse 200 "200 OK" (5%nat : @ReadCloser github)) [5]
           [GitHubRepo.mk 80; GitHubRepo.mk 3; GitHubRepo.mk 0]
           eq_refl eq_refl eq_refl eq_refl).
Defined.

Lemma requestHandler_missing_id_theme_only :
  exists ctx' p',
    requestHandler (request [("theme", "dark")]) process0 = Some (ctx', p') /\
    (fasthttp.Peek [("theme", "dark")] "id" = "" ->
     ctx' = fasthttp.mkRequestCtx [("theme", "dark")]
              (errorResponse 400 "Missing 'id' query parameter") /\
     p' = process0) /\
    (fasthttp.StatusCode (fasthttp.CtxResponse ctx') = 400 <->
     fasthttp.Peek [("theme", "dark")] "id" = "") /\
    (gets (net p') = gets (net process0) <-> fasthttp.Peek [("theme", "dark")] "id" = "").
Proof. exact (requestHandler_missing_id (request [("theme", "dark")]) process0 eq_refl). Defined.

Lemma nobody_is_not_empty : "nobody" <> "".
Proof. intro Hc; discriminate Hc. Defined.

Lemma requestHandler_unknown_user_nobody :
  requestHandler (request [("id", "nobody")]) process0 =
    Some (fasthttp.mkRequestCtx [("id", "nobody")]
            (errorResponse 404
               ("Failed to get GitHub stats for " +:+ "nobody"
                +:+ ": could not get user data: GitHub API returned status: "
                +:+ "404 Not Found")),
          mkProcess world0 [EvGet (userURL "nobody"); EvClose (0%nat : @ReadCloser github)]).
Proof.
  apply (requestHandler_unknown_user (request [("id", "nobody")]) process0 "nobody"
           (http.mkResponse 404 "404 Not Found" (0%nat : @ReadCloser github))
           eq_refl nobody_is_not_empty eq_refl).
  intro Hc; discriminate Hc.
Defined.

Lemma nameless_is_not_empty : "nameless" <> "".
Proof. intro Hc; discriminate Hc. Defined.

Lemma requestHandler_undecodable_avatar_nameless :
  requestHandler (request [("id", "nameless")]) process0 =
    Some (fasthttp.mkRequestCtx [("id", "nameless")]
            (errorResponse 404
               ("Failed to get GitHub stats for " +:+ "nameless"
                +:+ ": could not get avatar: " +:+ "image: unknown format")),
          mkProcess world0
            [EvGet (userURL "nameless"); EvClose (2%nat : @ReadCloser github);
             EvGet (GitHubUser.AvatarURL namelessUser); EvClose (4%nat : @ReadCloser github)]).
Proof.
  exact (requestHandler_undecodable_avatar (request [("id", "nameless")]) process0 "nameless"
           (http.mkResponse 200 "200 OK" (2%nat : @ReadCloser github))
           (http.mkResponse 200 "200 OK" (4%nat : @ReadCloser github))
           [2] namelessUser "image: unknown format"
           eq_refl nameless_is_not_empty eq_refl eq_refl eq_refl eq_refl
           eq_refl eq_refl eq_refl).
Defined.

Lemma octocat_is_not_empty : "octocat" <> "".
Proof. intro Hc; discriminate Hc. Defined.

Lemma requestHandler_renders_card_octocat :
  exists r w',
    createStatsImage (mkStatsData "The Octocat" (Avatar octocat) 10 5 3 83) theme_dark world0
      = Some (r, w') /\
    requestHandler (request [("id", "octocat"); ("theme", "dark")]) process0 =
      Some (fasthttp.mkRequestCtx [("id", "octocat"); ("theme", "dark")]
              match r with
              | inl png =>
                  fasthttp.mkResponse 200 "image/png"
                    (<["Cache-Control" := "public, max-age=3600, s-maxage=3600"]> ∅) png
              | inr err => errorResponse 500 ("Failed to create image: " +:+ err)
              end,
            mkProcess w'
              [EvGet (userURL "octocat"); EvClose (1%nat : @ReadCloser github);
               EvGet (GitHubUser.AvatarURL octocatUser); EvClose (3%nat : @ReadCloser github);
               EvGet (reposPage (GitHubUser.ReposURL octocatUser));
               EvClose (5%nat : @ReadCloser github)]).
Proof.
  exact (requestHandler_renders_card
           (request [("id", "octocat"); ("theme", "dark")]) process0
           (mkProcess world0
              [EvGet (userURL "octocat"); EvClose (1%nat : @ReadCloser github);
               EvGet (GitHubUser.AvatarURL octocatUser); EvClose (3%nat : @ReadCloser github);
               EvGet (reposPage (GitHubUser.ReposURL octocatUser));
               EvClose (5%nat : @ReadCloser github)])
           "octocat"
           (http.mkResponse 200 "200 OK" (1%nat : @ReadCloser github))
           (http.mkResponse 200 "200 OK" (3%nat : @ReadCloser github))
           [1] octocatUser (Avatar octocat) (inl 83)
           eq_refl octocat_is_not_empty eq_refl eq_refl eq_refl eq_refl
           eq_refl eq_refl eq_refl eq_refl).
Defined.

Lemma fetchStatsData_stars_optional_octocat :
  exists stars p3 stats p',
    getTotalStars (GitHubUser.ReposURL octocatUser)
      (mkProcess world0
         [EvGet (userURL "octocat"); EvClose (1%nat : @ReadCloser github);
          EvGet (GitHubUser.AvatarURL octocatUser); EvClose (3%nat : @ReadCloser github)])
      = Some (stars, p3) /\
    fetchStatsData "octocat" process0 = Some (inl stats, p') /\
    net p' = net p3 /\
    Name stats = "The Octocat" /\
    Avatar stats = Avatar octocat /\
    Followers stats = 10 /\
    Following stats = 5 /\
    PublicRepos stats = 3 /\
    match stars with
    | inl total => TotalStars stats = total /\ world p' = world p3
    | inr err =>
        TotalStars stats = 0 /\
        world p' = addEvents (world p3)
                     [EvLog ("Warning: could not get stars for " +:+ "octocat"
                             +:+ ": " +:+ err)]
    end.
Proof.
  exact (fetchStatsData_stars_optional "octocat" process0
           (mkProcess world0
              [EvGet (userURL "octocat"); EvClose (1%nat : @ReadCloser github)])
           (mkProcess world0
              [EvGet (userURL "octocat"); EvClose (1%nat : @ReadCloser github);
               EvGet (GitHubUser.AvatarURL octocatUser);
               EvClose (3%nat : @ReadCloser github)])
           octocatUser (Avatar octocat) eq_refl eq_refl).
Defined.

Lemma requestHandler_failure_renders_nothing_nobody :
  exists ctx' p',
    requestHandler (request [("id", "nobody")]) process0 = Some (ctx', p') /\
    (fasthttp.StatusCode (fasthttp.CtxResponse ctx') = 400 \/
     fasthttp.StatusCode (fasthttp.CtxResponse ctx') = 404 ->
     world p' = world process0).
Proof.
  exact (requestHandler_failure_renders_nothing (request [("id", "nobody")]) process0 eq_refl).
Defined.

Lemma warm_72 : is_Some (fontCache warmWorld !! 72).
Proof. eexists. apply lookup_insert_eq. Defined.

Lemma warm_48 : is_Some (fontCache warmWorld !! 48).
Proof.
  eexists. unfold warmWorld. cbn [fontCache].
  rewrite lookup_insert_ne by (intro Hc; discriminate Hc). apply lookup_insert_eq.
Defined.

Lemma requestHandler_warm_cache_no_disk_octocat :
  exists ctx' p',
    requestHandler (request [("id", "octocat")]) (mkProcess warmWorld []) = Some (ctx', p') /\
    reads (world p') = reads warmWorld /\
    fontCache (world p') = fontCache warmWorld /\
    next_addr (world p') = next_addr warmWorld.
Proof.
  exact (requestHandler_warm_cache_no_disk (request [("id", "octocat")])
           (mkProcess warmWorld []) warm_72 warm_48).
Defined.

End OnGitHub.
